(** * Gitness: registry metadata helpers, space creation, gitspace wiring

    A shallow embedding of the parts of the repository that the
    specification's claims are about:

    - [Regexp], [Metadata]: registry/app/api/controller/metadata/utils.go
      (sort-field selection and identifier validation);
    - [Strconv], [Space]: app/api/controller/space/create.go (input
      sanitization and the transaction of [Create]);
    - [Wire]: cmd/gitness/wire_gen.go (the statements of [initSystem]);
    - [Constants]: web/src/cde-gitness/constants/index.ts (enumerations);
    - [Gitspace]: the orchestration engine, whose code is only wired in
      [initSystem]; it follows the specification;
    - [Listing]: web/src/cde-gitness (filter options and the query
      parameters of the listing request).

    Each module of definitions is followed by a module of its properties. *)

From Stdlib Require Import ZArith Bool Ascii String List Lia.
From stdpp Require Import base option list strings gmap.

Local Open Scope string_scope.

(* ===================================================================== *)
(** ** Regular expressions (the fragment of Go's [regexp] the code uses) *)
(* ===================================================================== *)

Module Regexp.

(** Syntax trees.  [Class] is a bracket expression given by its ranges (a
    single character [c] is the range [c-c]); [Empty] matches nothing and
    has no notation in Go, it only arises as a derivative. *)
Inductive regex : Type :=
| Empty
| Eps
| Class (ranges : list (ascii * ascii))
| Cat (r1 r2 : regex)
| Alt (r1 r2 : regex)
| Star (r : regex)
| Plus (r : regex).

Definition in_range (c : ascii) (range : ascii * ascii) : bool :=
  (nat_of_ascii (fst range) <=? nat_of_ascii c)%nat &&
  (nat_of_ascii c <=? nat_of_ascii (snd range))%nat.

Definition in_class (ranges : list (ascii * ascii)) (c : ascii) : bool :=
  existsb (in_range c) ranges.

(** The language of a regular expression. *)
Inductive matches : regex -> list ascii -> Prop :=
| MEps : matches Eps []
| MClass ranges c : in_class ranges c = true -> matches (Class ranges) [c]
| MCat r1 r2 s1 s2 :
    matches r1 s1 -> matches r2 s2 -> matches (Cat r1 r2) (s1 ++ s2)
| MAltL r1 r2 s : matches r1 s -> matches (Alt r1 r2) s
| MAltR r1 r2 s : matches r2 s -> matches (Alt r1 r2) s
| MStarNil r : matches (Star r) []
| MStarApp r s1 s2 :
    matches r s1 -> matches (Star r) s2 -> matches (Star r) (s1 ++ s2)
| MPlus r s1 s2 :
    matches r s1 -> matches (Star r) s2 -> matches (Plus r) (s1 ++ s2).

(** Matching by derivatives. *)
Fixpoint nullable (r : regex) : bool :=
  match r with
  | Empty => false
  | Eps => true
  | Class _ => false
  | Cat r1 r2 => nullable r1 && nullable r2
  | Alt r1 r2 => nullable r1 || nullable r2
  | Star _ => true
  | Plus r => nullable r
  end.

Fixpoint deriv (c : ascii) (r : regex) : regex :=
  match r with
  | Empty => Empty
  | Eps => Empty
  | Class ranges => if in_class ranges c then Eps else Empty
  | Cat r1 r2 =>
      if nullable r1 then Alt (Cat (deriv c r1) r2) (deriv c r2)
      else Cat (deriv c r1) r2
  | Alt r1 r2 => Alt (deriv c r1) (deriv c r2)
  | Star r => Cat (deriv c r) (Star r)
  | Plus r => Cat (deriv c r) (Star r)
  end.

Fixpoint accepts (r : regex) (s : list ascii) : bool :=
  match s with
  | [] => nullable r
  | c :: rest => accepts (deriv c r) rest
  end.

(** Printing a tree in Go's notation.  The patterns of the code are built
    from classes, concatenation, [*] and [+]; [Empty], [Eps] and [Alt] only
    arise as derivatives and are printed for completeness. *)
Definition render_range (range : ascii * ascii) : string :=
  let (lo, hi) := range in
  if Ascii.eqb lo hi then String lo EmptyString
  else String lo (String "-" (String hi EmptyString)).

Definition is_atom (r : regex) : bool :=
  match r with
  | Class _ => true
  | _ => false
  end.

Fixpoint render (r : regex) : string :=
  let group r := if is_atom r then render r else "(?:" ++ render r ++ ")" in
  match r with
  | Empty => "[^\x00-\x{10FFFF}]"
  | Eps => "(?:)"
  | Class ranges => "[" ++ String.concat "" (map render_range ranges) ++ "]"
  | Cat r1 r2 => render r1 ++ render r2
  | Alt r1 r2 => render r1 ++ "|" ++ render r2
  | Star r => group r ++ "*"
  | Plus r => group r ++ "+"
  end.

(** A pattern anchored at both ends. *)
Definition render_anchored (body : regex) : string :=
  "^" ++ render body ++ "$".

End Regexp.

(* ===================================================================== *)
(** ** registry/app/api/controller/metadata/utils.go *)
(* ===================================================================== *)

Module Metadata.
Import Regexp.

(** *** Sort tables *)

Definition registrySort : list string :=
  [ "identifier"; "lastModified"; "registrySize"; "artifactsCount";
    "downloadsCount" ].

Definition RepositoryResource : string := "repository".
Definition ArtifactResource : string := "artifact".
Definition ArtifactVersionResource : string := "artifactversion".

Definition RegistryIdentifierErrorMsg : string :=
  "registry name should be 1~255 characters long with lower case characters, numbers " ++
  "and ._- and must be start with numbers or characters".

Definition RegistrySortMap : gmap string string :=
  list_to_map
    [ ("identifier", "name");
      ("lastModified", "updated_at");
      ("registrySize", "size");
      ("artifactsCount", "artifact_count");
      ("downloadsCount", "download_count");
      ("createdAt", "created_at") ].

Definition artifactSort : list string :=
  [ "repoKey"; "name"; "lastModified"; "downloadsCount" ].

Definition artifactSortMap : gmap string string :=
  list_to_map
    [ ("repoKey", "name");
      ("lastModified", "updated_at");
      ("name", "image_name");
      ("downloadsCount", "image_name");
      ("createdAt", "created_at") ].

Definition artifactVersionSort : list string :=
  [ "name"; "size"; "pullCommand"; "downloadsCount"; "lastModified" ].

Definition artifactVersionSortMap : gmap string string :=
  list_to_map
    [ ("name", "name");
      ("size", "name");
      ("pullCommand", "name");
      ("downloadsCount", "name");
      ("lastModified", "updated_at");
      ("createdAt", "created_at") ].

(** Indexing a Go [map[string]string] with a key that is absent yields the
    zero value of the element type, the empty string. *)
Definition map_index (m : gmap string string) (k : string) : string :=
  default "" (m !! k).

(** [sortKey]: the first element of [slice] equal to [target], or
    ["createdAt"] when the loop runs to its end. *)
Fixpoint sortKey (slice : list string) (target : string) : string :=
  match slice with
  | [] => "createdAt"
  | item :: rest => if String.eqb item target then item else sortKey rest target
  end.

(** [GetSortByField]: the [switch] over the three resource constants, with
    the statement after the switch as the default. *)
Definition GetSortByField (sortByField resource : string) : string :=
  if String.eqb resource RepositoryResource then
    map_index RegistrySortMap (sortKey registrySort sortByField)
  else if String.eqb resource ArtifactResource then
    map_index artifactSortMap (sortKey artifactSort sortByField)
  else if String.eqb resource ArtifactVersionResource then
    map_index artifactVersionSortMap (sortKey artifactVersionSort sortByField)
  else "created_at".

(** The list of sort fields the switch consults for a resource; [None] for a
    resource that none of the three cases matches. *)
Definition allowedSort (resource : string) : option (list string) :=
  if String.eqb resource RepositoryResource then Some registrySort
  else if String.eqb resource ArtifactResource then Some artifactSort
  else if String.eqb resource ArtifactVersionResource then Some artifactVersionSort
  else None.

(** *** Identifier validation *)

(** Go's [errors.New]. *)
Inductive error : Type :=
| errors_New (msg : string).

(** [RegexIdentifierPattern] is the string handed to [regexp.MatchString].
    [identifierRegex] below is its syntax tree and [render] prints a tree
    back in Go's notation, so that the tree can be compared with the
    constant of the source. *)
Definition RegexIdentifierPattern : string := "^[a-z0-9]+(?:[._-][a-z0-9]+)*$".

Definition alnum : regex := Class [("a", "z"); ("0", "9")]%char.
Definition separator : regex := Class [(".", "."); ("_", "_"); ("-", "-")]%char.

Definition identifierRegex : regex :=
  Cat (Plus alnum) (Star (Cat separator (Plus alnum))).

(** [regexp.MatchString(pattern, s)] for a pattern of the form [^body$]:
    the pattern compiles (the error is nil) and, with no multi-line flag,
    [^] and [$] match only at the two ends of the text, so some substring
    matches exactly when the whole of [s] is in the language of [body].
    The classes of the body hold ASCII characters only, so a string with a
    byte above 127 is rejected by the rune-wise matcher of Go and by this
    byte-wise one alike. *)
Definition MatchString (body : regex) (s : string) : bool * option error :=
  (accepts body (list_ascii_of_string s), None).

Definition ValidateIdentifier (identifier : string) : option error :=
  if Nat.eqb (String.length identifier) 0 then
    Some (errors_New RegistryIdentifierErrorMsg)
  else
    let '(matched, err) := MatchString identifierRegex identifier in
    if bool_decide (err <> None) || negb matched then
      Some (errors_New RegistryIdentifierErrorMsg)
    else None.

End Metadata.

(* ===================================================================== *)
(** ** The derivative matcher decides the language *)
(* ===================================================================== *)

Module RegexpFacts.
Import Regexp.

(** Inversion of the two rules that split the word. *)
Lemma cat_inv r1 r2 s :
  matches (Cat r1 r2) s ->
  exists s1 s2, s = (s1 ++ s2)%list /\ matches r1 s1 /\ matches r2 s2.
Proof. intros H. inversion H; subst. eauto. Qed.

Lemma plus_inv r s :
  matches (Plus r) s ->
  exists s1 s2, s = (s1 ++ s2)%list /\ matches r s1 /\ matches (Star r) s2.
Proof. intros H. inversion H; subst. eauto. Qed.

Lemma nullable_matches r : nullable r = true <-> matches r [].
Proof.
  induction r as [| |ranges|r1 IH1 r2 IH2|r1 IH1 r2 IH2|r IH|r IH]; simpl.
  - split; [discriminate|]. intros H; inversion H.
  - split; [constructor|reflexivity].
  - split; [discriminate|]. intros H; inversion H.
  - rewrite andb_true_iff, IH1, IH2. split.
    + intros [H1 H2]. exact (MCat _ _ [] [] H1 H2).
    + intros H. apply cat_inv in H as (s1 & s2 & Heq & H1 & H2).
      symmetry in Heq. apply app_eq_nil in Heq as [-> ->]. now split.
  - rewrite orb_true_iff, IH1, IH2. split.
    + intros [H|H]; [now apply MAltL | now apply MAltR].
    + intros H. inversion H; subst; [now left | now right].
  - split; [constructor|reflexivity].
  - rewrite IH. split.
    + intros H. exact (MPlus _ [] [] H (MStarNil _)).
    + intros H. apply plus_inv in H as (s1 & s2 & Heq & H1 & H2).
      symmetry in Heq. apply app_eq_nil in Heq as [-> ->]. assumption.
Qed.

(** A non-empty word of [Star r] starts with a non-empty word of [r]. *)
Lemma star_cons_inv_gen r' w :
  matches r' w ->
  forall r c s, r' = Star r -> w = c :: s ->
  exists s1 s2, s = (s1 ++ s2)%list /\ matches r (c :: s1) /\ matches (Star r) s2.
Proof.
  induction 1 as [| | | | | |r0 s1 s2 H1 _ H2 IH2|]; intros body a t Hr Hw;
    try discriminate.
  injection Hr as ->.
  destruct s1 as [|c1 s1]; simpl in Hw.
  - now apply IH2.
  - injection Hw as <- <-. now exists s1, s2.
Qed.

Lemma star_cons_inv r c s :
  matches (Star r) (c :: s) ->
  exists s1 s2, s = (s1 ++ s2)%list /\ matches r (c :: s1) /\ matches (Star r) s2.
Proof. intros H. now apply (star_cons_inv_gen _ _ H). Qed.

Lemma deriv_matches r : forall c s,
  matches (deriv c r) s <-> matches r (c :: s).
Proof.
  induction r as [| |ranges|r1 IH1 r2 IH2|r1 IH1 r2 IH2|r IH|r IH];
    intros c s; simpl.
  - split; intros H; inversion H.
  - split; intros H; inversion H.
  - destruct (in_class ranges c) eqn:Hc; split; intros H.
    + inversion H; subst. now constructor.
    + inversion H; subst. constructor.
    + inversion H.
    + inversion H; subst. congruence.
  - assert (Hcat : matches (Cat (deriv c r1) r2) s ->
                   matches (Cat r1 r2) (c :: s)).
    { intros H. apply cat_inv in H as (s1 & s2 & -> & H1 & H2).
      apply IH1 in H1. exact (MCat _ _ (c :: s1) s2 H1 H2). }
    assert (Hinv : matches (Cat r1 r2) (c :: s) ->
                   matches (Cat (deriv c r1) r2) s \/
                   (matches r1 [] /\ matches r2 (c :: s))).
    { intros H. apply cat_inv in H as (s1 & s2 & Heq & H1 & H2).
      destruct s1 as [|c1 s1]; simpl in Heq.
      - right. subst. now split.
      - injection Heq as -> ->. left. apply MCat; [now apply IH1 | assumption]. }
    destruct (nullable r1) eqn:Hn; split; intros H.
    + inversion H; subst; [now apply Hcat|].
      apply nullable_matches in Hn.
      match goal with H2 : matches (deriv c r2) s |- _ => apply IH2 in H2;
        exact (MCat _ _ [] _ Hn H2) end.
    + destruct (Hinv H) as [H'|[_ H']]; [now apply MAltL|].
      apply MAltR. now apply IH2.
    + now apply Hcat.
    + destruct (Hinv H) as [H'|[H' _]]; [assumption|].
      apply nullable_matches in H'. congruence.
  - split; intros H; inversion H; subst.
    + apply MAltL. now apply IH1.
    + apply MAltR. now apply IH2.
    + apply MAltL. now apply IH1.
    + apply MAltR. now apply IH2.
  - split; intros H.
    + apply cat_inv in H as (s1 & s2 & -> & H1 & H2).
      apply IH in H1. exact (MStarApp _ (c :: s1) s2 H1 H2).
    + apply star_cons_inv in H as (s1 & s2 & -> & H1 & H2).
      apply MCat; [now apply IH | assumption].
  - split; intros H.
    + apply cat_inv in H as (s1 & s2 & -> & H1 & H2).
      apply IH in H1. exact (MPlus _ (c :: s1) s2 H1 H2).
    + apply plus_inv in H as (s1 & s2 & Heq & H1 & H2).
      destruct s1 as [|c1 s1]; simpl in Heq.
      * subst. apply star_cons_inv in H2 as (s1 & s2' & -> & H1' & H2').
        apply MCat; [now apply IH | assumption].
      * injection Heq as -> ->. apply MCat; [now apply IH | assumption].
Qed.

Theorem accepts_matches s : forall r,
  accepts r s = true <-> matches r s.
Proof.
  induction s as [|c s IH]; intros r; simpl.
  - apply nullable_matches.
  - rewrite IH. apply deriv_matches.
Qed.

End RegexpFacts.

(* ===================================================================== *)
(** ** Properties of the metadata helpers *)
(* ===================================================================== *)

Module MetadataFacts.
Import Metadata.

Example sort_repository_identifier :
  GetSortByField "identifier" "repository" = "name".
Proof. reflexivity. Qed.

Example sort_artifact_downloads :
  GetSortByField "downloadsCount" "artifact" = "image_name".
Proof. reflexivity. Qed.

Example sort_version_size_is_not_allowed_for_artifacts :
  GetSortByField "size" "artifact" = "created_at".
Proof. reflexivity. Qed.

Example sort_unknown_resource :
  GetSortByField "identifier" "package" = "created_at".
Proof. reflexivity. Qed.

(** [sortKey] returns its target when the slice has it and the fallback key
    otherwise. *)
Lemma sortKey_found slice target :
  In target slice -> sortKey slice target = target.
Proof.
  induction slice as [|item rest IH]; simpl; [tauto|].
  intros [->|Hin].
  - now rewrite String.eqb_refl.
  - destruct (String.eqb_spec item target) as [->|_]; auto.
Qed.

Lemma sortKey_fallback slice target :
  ~ In target slice -> sortKey slice target = "createdAt".
Proof.
  induction slice as [|item rest IH]; simpl; [reflexivity|].
  intros Hnot.
  destruct (String.eqb_spec item target) as [->|_].
  - exfalso. apply Hnot. now left.
  - apply IH. intros Hin. apply Hnot. now right.
Qed.

Lemma sortKey_cases slice target :
  (In target slice /\ sortKey slice target = target) \/
  (~ In target slice /\ sortKey slice target = "createdAt").
Proof.
  destruct (in_dec String.string_dec target slice) as [Hin|Hnot].
  - left. split; [assumption|]. now apply sortKey_found.
  - right. split; [assumption|]. now apply sortKey_fallback.
Qed.

(** Every key [sortKey] can return for one of the three tables has a
    non-empty column in that table's map. *)
Lemma columns_nonempty (slice : list string) (m : gmap string string) :
  forallb (fun k => negb (String.eqb (map_index m k) ""))
          ("createdAt" :: slice) = true ->
  forall target, map_index m (sortKey slice target) <> "".
Proof.
  intros Hall target.
  rewrite forallb_forall in Hall.
  assert (Hk : In (sortKey slice target) ("createdAt" :: slice)).
  { destruct (sortKey_cases slice target) as [[Hin ->]|[_ ->]];
      [now right | now left]. }
  specialize (Hall _ Hk).
  apply negb_true_iff in Hall.
  now apply String.eqb_neq in Hall.
Qed.

(** C8. [GetSortByField] is total with a [created_at] fallback: for every
    sort field and every resource among repository, artifact and
    artifactversion the returned column name is non-empty; whenever the sort
    field is not in the resource's list of allowed sort fields, and whenever
    the resource is none of the three, the returned column is
    ["created_at"]. *)
Theorem GetSortByField_total_created_at_fallback :
  forall sortByField resource : string,
    (In resource [RepositoryResource; ArtifactResource; ArtifactVersionResource] ->
       GetSortByField sortByField resource <> "") /\
    (forall allowed, allowedSort resource = Some allowed ->
       ~ In sortByField allowed ->
       GetSortByField sortByField resource = "created_at") /\
    (allowedSort resource = None ->
       GetSortByField sortByField resource = "created_at").
Proof.
  intros sortByField resource.
  unfold GetSortByField, allowedSort.
  destruct (String.eqb_spec resource RepositoryResource) as [->|Hrepo].
  { split; [|split].
    - intros _. now apply columns_nonempty.
    - intros allowed [= <-] Hnot. now rewrite sortKey_fallback.
    - discriminate. }
  destruct (String.eqb_spec resource ArtifactResource) as [->|Hart].
  { split; [|split].
    - intros _. now apply columns_nonempty.
    - intros allowed [= <-] Hnot. now rewrite sortKey_fallback.
    - discriminate. }
  destruct (String.eqb_spec resource ArtifactVersionResource) as [->|Hver].
  { split; [|split].
    - intros _. now apply columns_nonempty.
    - intros allowed [= <-] Hnot. now rewrite sortKey_fallback.
    - discriminate. }
  split; [|split].
  - simpl. intros [H|[H|[H|[]]]]; congruence.
  - discriminate.
  - reflexivity.
Qed.

(** *** Identifier validation *)

Import Regexp RegexpFacts.

(** The syntax tree is the pattern of the source. *)
Example identifierRegex_is_the_pattern :
  render_anchored identifierRegex = RegexIdentifierPattern.
Proof. reflexivity. Qed.

Example identifier_accepted : ValidateIdentifier "my-registry.v2_x" = None.
Proof. reflexivity. Qed.

Example identifier_upper_case_rejected :
  ValidateIdentifier "Registry" = Some (errors_New RegistryIdentifierErrorMsg).
Proof. reflexivity. Qed.

Example identifier_double_separator_rejected :
  ValidateIdentifier "a..b" = Some (errors_New RegistryIdentifierErrorMsg).
Proof. reflexivity. Qed.

Example identifier_trailing_newline_rejected :
  ValidateIdentifier (String "a" (String "010" EmptyString))
  = Some (errors_New RegistryIdentifierErrorMsg).
Proof. reflexivity. Qed.

Lemma length_string_of_list_ascii (l : list ascii) :
  String.length (string_of_list_ascii l) = length l.
Proof. induction l as [|c l IH]; simpl; congruence. Qed.

Lemma length_zero_empty (s : string) : String.length s = 0 <-> s = "".
Proof. destruct s; simpl; split; congruence. Qed.

(** [ValidateIdentifier] returns nil exactly on the non-empty words of the
    pattern's language. *)
Lemma ValidateIdentifier_nil_iff (identifier : string) :
  ValidateIdentifier identifier = None <->
  identifier <> "" /\ matches identifierRegex (list_ascii_of_string identifier).
Proof.
  unfold ValidateIdentifier, MatchString.
  destruct (Nat.eqb_spec (String.length identifier) 0) as [Hlen|Hlen].
  - apply length_zero_empty in Hlen. split; [discriminate|]. tauto.
  - rewrite <- length_zero_empty.
    rewrite bool_decide_eq_false_2 by (intros H; now apply H).
    simpl. rewrite <- accepts_matches.
    destruct (accepts identifierRegex (list_ascii_of_string identifier));
      simpl; split; try tauto; try discriminate.
    intros [_ H]. discriminate.
Qed.

(** Words of any length made of one lower-case letter. *)
Definition long_identifier (n : nat) : string :=
  string_of_list_ascii (repeat "a"%char (S n)).

Lemma star_alnum_repeat n : matches (Star alnum) (repeat "a"%char n).
Proof.
  induction n as [|n IH]; simpl.
  - constructor.
  - apply (MStarApp alnum ["a"%char] _); [|assumption].
    now constructor.
Qed.

Lemma long_identifier_matches n :
  matches identifierRegex (list_ascii_of_string (long_identifier n)).
Proof.
  unfold long_identifier. rewrite list_ascii_of_string_of_list_ascii.
  rewrite <- (app_nil_r (repeat "a"%char (S n))).
  apply MCat; [|constructor].
  apply (MPlus alnum ["a"%char] (repeat "a"%char n)).
  - now constructor.
  - apply star_alnum_repeat.
Qed.

Lemma long_identifier_length n : String.length (long_identifier n) = S n.
Proof.
  unfold long_identifier.
  now rewrite length_string_of_list_ascii, repeat_length.
Qed.

Lemma long_identifier_valid n : ValidateIdentifier (long_identifier n) = None.
Proof.
  apply ValidateIdentifier_nil_iff. split.
  - intros H. apply length_zero_empty in H.
    rewrite long_identifier_length in H. discriminate.
  - apply long_identifier_matches.
Qed.

(** C9. [ValidateIdentifier] accepts exactly the non-empty strings in the
    language of [^[a-z0-9]+(?:[._-][a-z0-9]+)*$], with no upper bound on
    the length: beyond every length, in particular beyond 255 characters,
    there is an identifier for which it returns nil, although the message of
    the error it returns otherwise asks for 1~255 characters. *)
Theorem ValidateIdentifier_pattern_without_length_bound :
  (forall identifier : string,
     ValidateIdentifier identifier = None <->
     identifier <> "" /\
     matches identifierRegex (list_ascii_of_string identifier)) /\
  (forall n : nat, exists identifier : string,
     n < String.length identifier /\ ValidateIdentifier identifier = None) /\
  (exists identifier : string,
     255 < String.length identifier /\
     matches identifierRegex (list_ascii_of_string identifier) /\
     ValidateIdentifier identifier = None) /\
  (forall identifier : string,
     ValidateIdentifier identifier <> None ->
     ValidateIdentifier identifier = Some (errors_New RegistryIdentifierErrorMsg)) /\
  String.substring 24 21 RegistryIdentifierErrorMsg = "1~255 characters long".
Proof.
  split; [exact ValidateIdentifier_nil_iff|].
  split.
  { intros n. exists (long_identifier n). split.
    - rewrite long_identifier_length. lia.
    - apply long_identifier_valid. }
  split.
  { exists (long_identifier 255). split; [|split].
    - rewrite long_identifier_length. lia.
    - apply long_identifier_matches.
    - apply long_identifier_valid. }
  split; [|reflexivity].
  intros identifier. unfold ValidateIdentifier, MatchString.
  destruct (String.length identifier =? 0)%nat; [reflexivity|].
  destruct (_ || _); [reflexivity|]. intros H. now contradiction H.
Qed.

End MetadataFacts.

(* ===================================================================== *)
(** ** strconv.ParseInt, base 10, 64 bits *)
(* ===================================================================== *)

Module Strconv.

Local Open Scope Z_scope.

(** The two causes a [*NumError] can carry. *)
Inductive NumError : Type :=
| ErrSyntax
| ErrRange.

Definition maxUint64 : Z := 2 ^ 64 - 1.

Definition is_digit (c : ascii) : bool :=
  (48 <=? Z.of_nat (nat_of_ascii c)) && (Z.of_nat (nat_of_ascii c) <=? 57).

Definition digit_value (c : ascii) : Z := Z.of_nat (nat_of_ascii c) - 48.

(** The loop of [ParseUint(s, 10, 64)] over the bytes of [s], with [n] the
    value read so far.  A byte that is no decimal digit is a syntax error
    (a letter has a digit value of 10 or more, an underscore is only
    skipped in base 0); an overflow returns the largest value with a range
    error at once, without reading the bytes that follow. *)
Fixpoint parse_digits (s : list ascii) (n : Z) : Z * option NumError :=
  match s with
  | [] => (n, None)
  | c :: rest =>
      if negb (is_digit c) then (0, Some ErrSyntax)
      else if maxUint64 / 10 + 1 <=? n then (maxUint64, Some ErrRange)
      else
        let n1 := n * 10 + digit_value c in
        if maxUint64 <? n1 then (maxUint64, Some ErrRange)
        else parse_digits rest n1
  end.

Definition ParseUint (s : list ascii) : Z * option NumError :=
  match s with
  | [] => (0, Some ErrSyntax)
  | _ => parse_digits s 0
  end.

(** [ParseInt(s, 10, 64)]: an optional sign, then [ParseUint]; a syntax
    error returns 0, a value outside of [int64] is clamped and returned
    with a range error. *)
Definition ParseInt (s : string) : Z * option NumError :=
  match list_ascii_of_string s with
  | [] => (0, Some ErrSyntax)
  | c :: rest =>
      let neg := Ascii.eqb c "-" in
      let digits := if Ascii.eqb c "+" || neg then rest else c :: rest in
      let '(un, err) := ParseUint digits in
      match err with
      | Some ErrSyntax => (0, Some ErrSyntax)
      | _ =>
          let cutoff := 2 ^ 63 in
          if negb neg && (cutoff <=? un) then (cutoff - 1, Some ErrRange)
          else if neg && (cutoff <? un) then (- cutoff, Some ErrRange)
          else (if neg then - un else un, None)
      end
  end.

End Strconv.

Module StrconvFacts.
Import Strconv.
Local Open Scope Z_scope.

Example ParseInt_minus_one : ParseInt "-1" = (-1, None).
Proof. reflexivity. Qed.

Example ParseInt_plus_zero : ParseInt "+0" = (0, None).
Proof. reflexivity. Qed.

Example ParseInt_minus_zero : ParseInt "-0" = (0, None).
Proof. reflexivity. Qed.

Example ParseInt_empty : ParseInt "" = (0, Some ErrSyntax).
Proof. reflexivity. Qed.

Example ParseInt_sign_only : ParseInt "-" = (0, Some ErrSyntax).
Proof. reflexivity. Qed.

Example ParseInt_path : ParseInt "parent/child" = (0, Some ErrSyntax).
Proof. reflexivity. Qed.

Example ParseInt_min : ParseInt "-9223372036854775808" = (- 2 ^ 63, None).
Proof. reflexivity. Qed.

Example ParseInt_below_min :
  ParseInt "-9223372036854775809" = (- 2 ^ 63, Some ErrRange).
Proof. reflexivity. Qed.

Example ParseInt_above_max :
  ParseInt "9223372036854775808" = (2 ^ 63 - 1, Some ErrRange).
Proof. reflexivity. Qed.

Example ParseInt_overflow_before_letter :
  ParseInt "-99999999999999999999x" = (- 2 ^ 63, Some ErrRange).
Proof. reflexivity. Qed.

End StrconvFacts.

(* ===================================================================== *)
(** ** app/api/controller/space/create.go *)
(* ===================================================================== *)

Module Space.
Import Strconv.

Local Open Scope Z_scope.
Local Open Scope list_scope.

(** *** Errors *)

(** Go error values: [usererror.BadRequest], [usererror.ErrUnauthorized],
    an error returned by a collaborator, and [fmt.Errorf] with a [%w] verb,
    which wraps its last argument ([args] are the integers formatted by the
    other verbs). *)
Inductive error : Type :=
| BadRequest (msg : string)
| ErrUnauthorized
| Failure (what : string)
| Errorf (format : string) (args : list Z) (wrapped : error).

Definition error_eqb_head (e target : error) : bool :=
  match e, target with
  | BadRequest m1, BadRequest m2 => String.eqb m1 m2
  | ErrUnauthorized, ErrUnauthorized => true
  | Failure w1, Failure w2 => String.eqb w1 w2
  | _, _ => false
  end.

(** [errors.Is]: the target is found along the chain of wrapped errors. *)
Fixpoint errors_Is (e target : error) : bool :=
  error_eqb_head e target ||
  match e with
  | Errorf _ _ wrapped => errors_Is wrapped target
  | _ => false
  end.

Definition errParentIDNegative : error :=
  BadRequest
    "Parent ID has to be either zero for a root space or greater than zero for a child space.".

(** *** Data *)

Record CreateInput : Type := {
  ParentRef : string;
  UID : string;
  Identifier : string;
  Description : string;
  IsPublic : bool
}.

Record Principal : Type := { Principal_ID : Z }.

Record Session : Type := { Session_Principal : Principal }.

(** [types.Space], [types.SpacePathSegment], [types.SpacePath] and
    [types.Membership], with the fields the controller reads or sets. *)
Record Space : Type := {
  Space_ID : Z;
  Space_Version : Z;
  Space_ParentID : Z;
  Space_Identifier : string;
  Space_Description : string;
  Space_Path : string;
  Space_CreatedBy : Z;
  Space_Created : Z;
  Space_Updated : Z
}.

(** [&types.Space{}]. *)
Definition zero_Space : Space :=
  {| Space_ID := 0; Space_Version := 0; Space_ParentID := 0;
     Space_Identifier := ""; Space_Description := ""; Space_Path := "";
     Space_CreatedBy := 0; Space_Created := 0; Space_Updated := 0 |}.

Record SpacePathSegment : Type := {
  Segment_Identifier : string;
  Segment_IsPrimary : bool;
  Segment_SpaceID : Z;
  Segment_ParentID : Z;
  Segment_CreatedBy : Z;
  Segment_Created : Z;
  Segment_Updated : Z
}.

Record SpacePath : Type := { SpacePath_Value : string }.

Inductive MembershipRole : Type := MembershipRoleSpaceOwner.
Inductive ResourceType : Type := ResourceTypeSpace.
Inductive Permission : Type := PermissionSpaceEdit.
Inductive PublicResourceType : Type := PublicResourceTypeSpace.

Record Membership : Type := {
  Membership_SpaceID : Z;
  Membership_PrincipalID : Z;
  Membership_Role : MembershipRole;
  Membership_CreatedBy : Z;
  Membership_Created : Z;
  Membership_Updated : Z
}.

(** *** Outcomes, contexts and the world *)

(** What a call produces: a value, an error, or a run-time panic (a nil
    pointer dereference). *)
Inductive outcome (A : Type) : Type :=
| Ok (a : A)
| Err (e : error)
| Panic.
Arguments Ok {A} a.
Arguments Err {A} e.
Arguments Panic {A}.

(** A [context.Context] either carries the transaction opened by [WithTx] or
    it does not; a store reached with a context reads and writes the
    transaction the context carries and the database itself otherwise. *)
Inductive Ctx : Type :=
| CtxBase
| CtxTx.

(** The calls of the controller to its collaborators, in the order made. *)
Inductive Op : Type :=
| OpSpaceFindByRef
| OpCheckSpaceScope
| OpFindPrimaryBySpaceID
| OpSpaceCreate
| OpInsertSegment
| OpMembershipCreate
| OpPublicAccessSet
| OpGetSpaceOutput.

Inductive Event : Type :=
| Call (op : Op) (ctx : Ctx)
| TxBegin
| TxCommit
| TxRollback.

Definition is_write (op : Op) : bool :=
  match op with
  | OpSpaceCreate | OpInsertSegment | OpMembershipCreate | OpPublicAccessSet => true
  | _ => false
  end.

Section Controller.

(** The database behind the stores.  Its content is whatever the stores keep
    in it: spaces, path segments, memberships, public-access settings. *)
Variable DB : Type.
Variable SpaceOutput : Type.

(** [committed] is the state every reader sees; [pending] is the state of
    the open transaction, if one is open; [trace] records the calls made. *)
Record World : Type := {
  committed : DB;
  pending : option DB;
  trace : list Event
}.

Definition M (A : Type) : Type := World -> outcome A * World.

Definition ret {A} (a : A) : M A := fun w => (Ok a, w).
Definition fail {A} (e : error) : M A := fun w => (Err e, w).
Definition panic {A} : M A := fun w => (Panic, w).

Definition bind {A B} (m : M A) (k : A -> M B) : M B :=
  fun w =>
    match m w with
    | (Ok a, w') => k a w'
    | (Err e, w') => (Err e, w')
    | (Panic, w') => (Panic, w')
    end.

(** [x, err := call; if err != nil { return nil, fmt.Errorf(format, args..., err) }] *)
Definition wrap {A} (format : string) (args : list Z) (m : M A) : M A :=
  fun w =>
    match m w with
    | (Err e, w') => (Err (Errorf format args e), w')
    | r => r
    end.

Definition log (ev : Event) (w : World) : World :=
  {| committed := committed w; pending := pending w; trace := trace w ++ [ev] |}.

Definition db_of (ctx : Ctx) (w : World) : DB :=
  match ctx, pending w with
  | CtxTx, Some d => d
  | _, _ => committed w
  end.

Definition set_db (ctx : Ctx) (d : DB) (w : World) : World :=
  match ctx, pending w with
  | CtxTx, Some _ => {| committed := committed w; pending := Some d; trace := trace w |}
  | _, _ => {| committed := d; pending := pending w; trace := trace w |}
  end.

(** A store method that only reads, and one that may write. *)
Definition read {A} (op : Op) (f : DB -> error + A) (ctx : Ctx) : M A :=
  fun w =>
    let w' := log (Call op ctx) w in
    match f (db_of ctx w') with
    | inr a => (Ok a, w')
    | inl e => (Err e, w')
    end.

Definition write {A} (op : Op) (f : DB -> error + A * DB) (ctx : Ctx) : M A :=
  fun w =>
    let w' := log (Call op ctx) w in
    match f (db_of ctx w') with
    | inr (a, d) => (Ok a, set_db ctx d w')
    | inl e => (Err e, w')
    end.

(** Modelled from the spec: the transactor behind [c.tx.WithTx] (package
    dbtx) is not under src/.  The specification has all state writes of a
    call occur inside a single transaction: the function runs with a context
    that carries the transaction, its writes become visible when it returns
    nil, and they are dropped when it returns an error or panics. *)
Definition begin_tx (w : World) : World :=
  log TxBegin
    {| committed := committed w; pending := Some (committed w); trace := trace w |}.

Definition commit_tx (w : World) : World :=
  log TxCommit
    {| committed := db_of CtxTx w; pending := None; trace := trace w |}.

Definition rollback_tx (w : World) : World :=
  log TxRollback
    {| committed := committed w; pending := None; trace := trace w |}.

Definition WithTx {A} (fn : Ctx -> M A) : M A :=
  fun w =>
    match fn CtxTx (begin_tx w) with
    | (Ok a, w') => (Ok a, commit_tx w')
    | (Err e, w') => (Err e, rollback_tx w')
    | (Panic, w') => (Panic, rollback_tx w')
    end.

(** The fields of [Controller] that [Create] uses.  Stores, authorizer and
    public-access service are interfaces: any behaviour over the database. *)
Record Controller : Type := {
  nestedSpacesEnabled : bool;
  publicResourceCreationEnabled : bool;
  identifierCheck : string -> bool -> option error;
  spaceStore_FindByRef : string -> DB -> error + Space;
  spaceStore_Create : Space -> DB -> error + Space * DB;
  spacePathStore_FindPrimaryBySpaceID : Z -> DB -> error + SpacePath;
  spacePathStore_InsertSegment : SpacePathSegment -> DB -> error + unit * DB;
  membershipStore_Create : Membership -> DB -> error + unit * DB;
  publicAccess_Set : PublicResourceType -> string -> bool -> DB -> error + unit * DB;
  authorizer_CheckSpaceScope :
    option Session -> Space -> ResourceType -> Permission -> DB -> error + unit
}.

(** Declared in the package or in packages it imports, outside of src/:
    two error variables, the checks of package check, [paths.Concatenate],
    [strings.TrimSpace], the clock, the principal of the system service
    session and [GetSpaceOutput], which reads the public-access setting. *)
Variable errNestedSpacesNotSupported : error.
Variable errPublicSpaceCreationDisabled : error.
Variable check_Description : string -> option error.
Variable check_PathDepth : string -> bool -> option error.
Variable paths_Concatenate : string -> string -> string.
Variable strings_TrimSpace : string -> string.
Variable time_Now_UnixMilli : Z.
Variable systemServicePrincipalID : Z.
Variable GetSpaceOutput_body : Space -> DB -> error + SpaceOutput.

Variable c : Controller.

Definition is_nil {A} (err : option A) : bool :=
  match err with
  | None => true
  | Some _ => false
  end.

Definition len (s : string) : Z := Z.of_nat (String.length s).

(** [sanitizeCreateInput] updates the input in place and returns an error:
    the result is the input as the call leaves it, with the error. *)
Definition sanitizeCreateInput (in0 : CreateInput) : CreateInput * option error :=
  let in1 :=
    if String.eqb (Identifier in0) "" then
      {| ParentRef := ParentRef in0; UID := UID in0; Identifier := UID in0;
         Description := Description in0; IsPublic := IsPublic in0 |}
    else in0 in
  if (0 <? len (ParentRef in1)) && negb (nestedSpacesEnabled c) then
    (in1, Some errNestedSpacesNotSupported)
  else if IsPublic in1 && negb (publicResourceCreationEnabled c) then
    (in1, Some errPublicSpaceCreationDisabled)
  else
    let '(parentRefAsID, err) := ParseInt (ParentRef in1) in
    if is_nil err && (parentRefAsID <? 0) then
      (in1, Some errParentIDNegative)
    else
      let isRoot :=
        (is_nil err && (parentRefAsID =? 0)) ||
        (len (strings_TrimSpace (ParentRef in1)) =? 0) in
      match identifierCheck c (Identifier in1) isRoot with
      | Some e => (in1, Some e)
      | None =>
          let in2 :=
            {| ParentRef := ParentRef in1; UID := UID in1;
               Identifier := Identifier in1;
               Description := strings_TrimSpace (Description in1);
               IsPublic := IsPublic in1 |} in
          match check_Description (Description in2) with
          | Some e => (in2, Some e)
          | None => (in2, None)
          end
      end.

Definition getSpaceCheckAuthSpaceCreation
    (ctx : Ctx) (session : option Session) (parentRef : string) : M Space :=
  let '(parentRefAsID, err) := ParseInt parentRef in
  if ((parentRefAsID <=? 0) && is_nil err) ||
     (len (strings_TrimSpace parentRef) =? 0) then
    match session with
    | None =>
        fail (Errorf "anonymous user not allowed to create top level spaces: %w" []
                ErrUnauthorized)
    | Some _ => ret zero_Space
    end
  else
    bind (wrap "failed to get parent space: %w" []
            (read OpSpaceFindByRef (spaceStore_FindByRef c parentRef) ctx))
      (fun parentSpace =>
    bind (wrap "authorization failed: %w" []
            (read OpCheckSpaceScope
               (authorizer_CheckSpaceScope c session parentSpace
                  ResourceTypeSpace PermissionSpaceEdit) ctx))
      (fun _ => ret parentSpace)).

Definition setSpacePublicAccess (ctx : Ctx) (space : Space) (isPublic : bool) : M unit :=
  write OpPublicAccessSet
    (publicAccess_Set c PublicResourceTypeSpace (Space_Path space) isPublic) ctx.

Definition createSpaceInnerInTX
    (ctx : Ctx) (session : option Session) (parentID : Z) (in1 : CreateInput)
  : M Space :=
  bind
    (if 0 <? parentID then
       bind (wrap "failed to find primary path for parent '%d': %w" [parentID]
               (read OpFindPrimaryBySpaceID
                  (spacePathStore_FindPrimaryBySpaceID c parentID) ctx))
         (fun parentPath =>
            let spacePath :=
              paths_Concatenate (SpacePath_Value parentPath) (Identifier in1) in
            match check_PathDepth spacePath true with
            | Some e => fail (Errorf "path is invalid: %w" [] e)
            | None => ret spacePath
            end)
     else ret (Identifier in1))
    (fun spacePath =>
  let now := time_Now_UnixMilli in
  match session with
  | None => panic
  | Some session =>
  let space :=
    {| Space_ID := 0; Space_Version := 0; Space_ParentID := parentID;
       Space_Identifier := Identifier in1;
       Space_Description := Description in1;
       Space_Path := spacePath;
       Space_CreatedBy := Principal_ID (Session_Principal session);
       Space_Created := now; Space_Updated := now |} in
  bind (wrap "space creation failed: %w" []
          (write OpSpaceCreate (spaceStore_Create c space) ctx))
    (fun space =>
  let pathSegment :=
    {| Segment_Identifier := Space_Identifier space;
       Segment_IsPrimary := true;
       Segment_SpaceID := Space_ID space;
       Segment_ParentID := parentID;
       Segment_CreatedBy := Space_CreatedBy space;
       Segment_Created := now; Segment_Updated := now |} in
  bind (wrap "failed to insert primary path segment: %w" []
          (write OpInsertSegment (spacePathStore_InsertSegment c pathSegment) ctx))
    (fun _ =>
  bind
    (if parentID =? 0 then
       let membership :=
         {| Membership_SpaceID := Space_ID space;
            Membership_PrincipalID := Principal_ID (Session_Principal session);
            Membership_Role := MembershipRoleSpaceOwner;
            Membership_CreatedBy := systemServicePrincipalID;
            Membership_Created := now; Membership_Updated := now |} in
       wrap "failed to make user owner of the space: %w" []
         (write OpMembershipCreate (membershipStore_Create c membership) ctx)
     else ret tt)
    (fun _ =>
  bind (wrap "failed to set a space public: %w" []
          (setSpacePublicAccess ctx space (IsPublic in1)))
    (fun _ => ret space))))
  end).

Definition GetSpaceOutput (ctx : Ctx) (space : Space) : M SpaceOutput :=
  read OpGetSpaceOutput (GetSpaceOutput_body space) ctx.

Definition Create (session : option Session) (in0 : CreateInput) : M SpaceOutput :=
  match sanitizeCreateInput in0 with
  | (_, Some err) => fail (Errorf "failed to sanitize input: %w" [] err)
  | (in1, None) =>
      bind (getSpaceCheckAuthSpaceCreation CtxBase session (ParentRef in1))
        (fun parentSpace =>
      bind (WithTx (fun ctx =>
              createSpaceInnerInTX ctx session (Space_ID parentSpace) in1))
        (fun space => GetSpaceOutput CtxBase space))
  end.

(** *** Where the calls go *)

Definition is_tx_call (ev : Event) : bool :=
  match ev with
  | Call _ CtxTx => true
  | _ => false
  end.

Definition is_base_read (ev : Event) : bool :=
  match ev with
  | Call op CtxBase => negb (is_write op)
  | _ => false
  end.

(** The phases of a call with respect to its transaction. *)
Inductive Phase : Type :=
| BeforeTx
| InsideTx
| AfterTx.

(** [single_tx ph evs]: from phase [ph] the events [evs] open at most one
    transaction and close it; every call made while it is open carries its
    context, and every call made outside of it is a read. *)
Fixpoint single_tx (ph : Phase) (evs : list Event) : bool :=
  match evs with
  | [] =>
      match ph with
      | InsideTx => false
      | _ => true
      end
  | Call op ctx :: rest =>
      match ph with
      | InsideTx => is_tx_call (Call op ctx) && single_tx InsideTx rest
      | _ => is_base_read (Call op ctx) && single_tx ph rest
      end
  | TxBegin :: rest =>
      match ph with
      | BeforeTx => single_tx InsideTx rest
      | _ => false
      end
  | TxCommit :: rest | TxRollback :: rest =>
      match ph with
      | InsideTx => single_tx AfterTx rest
      | _ => false
      end
  end.

(** The write calls among the events, in order. *)
Fixpoint writes_of (evs : list Event) : list Op :=
  match evs with
  | [] => []
  | Call op _ :: rest => if is_write op then op :: writes_of rest else writes_of rest
  | _ :: rest => writes_of rest
  end.

(** A computation that, run while a transaction is open, only touches the
    transaction: the committed state stays, the transaction stays open, and
    every call is made with the transaction's context. *)
Definition tx_confined {A} (m : M A) : Prop :=
  forall w r w',
    is_Some (pending w) -> m w = (r, w') ->
    committed w' = committed w /\ is_Some (pending w') /\
    exists new, trace w' = trace w ++ new /\ forallb is_tx_call new = true.

(** A computation that only reads, outside of any transaction. *)
Definition read_only {A} (m : M A) : Prop :=
  forall w r w',
    m w = (r, w') ->
    committed w' = committed w /\ pending w' = pending w /\
    exists new, trace w' = trace w ++ new /\ forallb is_base_read new = true.

Lemma tx_confined_ret {A} (a : A) : tx_confined (ret a).
Proof.
  intros w r w' Hp [= <- <-]. repeat split; auto.
  exists []. now rewrite app_nil_r.
Qed.

Lemma tx_confined_fail {A} (e : error) : tx_confined (@fail A e).
Proof.
  intros w r w' Hp [= <- <-]. repeat split; auto.
  exists []. now rewrite app_nil_r.
Qed.

Lemma tx_confined_panic {A} : tx_confined (@panic A).
Proof.
  intros w r w' Hp [= <- <-]. repeat split; auto.
  exists []. now rewrite app_nil_r.
Qed.

Lemma tx_confined_bind {A B} (m : M A) (k : A -> M B) :
  tx_confined m -> (forall a, tx_confined (k a)) -> tx_confined (bind m k).
Proof.
  intros Hm Hk w r w' Hp. unfold bind.
  destruct (m w) as [ra w1] eqn:Em.
  destruct (Hm _ _ _ Hp Em) as (Hc1 & Hp1 & new1 & Ht1 & Hn1).
  destruct ra as [a|e|].
  - intros Ek.
    destruct (Hk a _ _ _ Hp1 Ek) as (Hc2 & Hp2 & new2 & Ht2 & Hn2).
    split; [congruence|]. split; [assumption|].
    exists (new1 ++ new2). split.
    + now rewrite Ht2, Ht1, app_assoc.
    + rewrite forallb_app, Hn1, Hn2. reflexivity.
  - intros [= <- <-]. repeat split; auto. now exists new1.
  - intros [= <- <-]. repeat split; auto. now exists new1.
Qed.

Lemma tx_confined_wrap {A} format args (m : M A) :
  tx_confined m -> tx_confined (wrap format args m).
Proof.
  intros Hm w r w' Hp. unfold wrap.
  destruct (m w) as [ra w1] eqn:Em.
  specialize (Hm _ _ _ Hp Em).
  destruct ra; intros [= <- <-]; exact Hm.
Qed.

Lemma log_committed ev w : committed (log ev w) = committed w.
Proof. reflexivity. Qed.

Lemma log_pending ev w : pending (log ev w) = pending w.
Proof. reflexivity. Qed.

Lemma log_trace ev w : trace (log ev w) = trace w ++ [ev].
Proof. reflexivity. Qed.

Lemma tx_confined_read {A} op (f : DB -> error + A) :
  tx_confined (read op f CtxTx).
Proof.
  intros w r w' Hp. unfold read.
  destruct (f _); intros [= <- <-]; repeat split; auto;
    exists [Call op CtxTx]; auto.
Qed.

Lemma tx_confined_write {A} op (f : DB -> error + A * DB) :
  tx_confined (write op f CtxTx).
Proof.
  intros w r w' [d Hp]. unfold write.
  destruct (f _) as [e|[a d']]; intros [= <- <-].
  - repeat split; [now exists d|]. exists [Call op CtxTx]; auto.
  - unfold set_db. simpl. rewrite Hp. simpl.
    repeat split; [now exists d'|]. exists [Call op CtxTx]; auto.
Qed.

Lemma read_only_ret {A} (a : A) : read_only (ret a).
Proof.
  intros w r w' [= <- <-]. repeat split.
  exists []. now rewrite app_nil_r.
Qed.

Lemma read_only_fail {A} (e : error) : read_only (@fail A e).
Proof.
  intros w r w' [= <- <-]. repeat split.
  exists []. now rewrite app_nil_r.
Qed.

Lemma read_only_bind {A B} (m : M A) (k : A -> M B) :
  read_only m -> (forall a, read_only (k a)) -> read_only (bind m k).
Proof.
  intros Hm Hk w r w'. unfold bind.
  destruct (m w) as [ra w1] eqn:Em.
  destruct (Hm _ _ _ Em) as (Hc1 & Hp1 & new1 & Ht1 & Hn1).
  destruct ra as [a|e|].
  - intros Ek.
    destruct (Hk a _ _ _ Ek) as (Hc2 & Hp2 & new2 & Ht2 & Hn2).
    split; [congruence|]. split; [congruence|].
    exists (new1 ++ new2). split.
    + now rewrite Ht2, Ht1, app_assoc.
    + rewrite forallb_app, Hn1, Hn2. reflexivity.
  - intros [= <- <-]. repeat split; auto. now exists new1.
  - intros [= <- <-]. repeat split; auto. now exists new1.
Qed.

Lemma read_only_wrap {A} format args (m : M A) :
  read_only m -> read_only (wrap format args m).
Proof.
  intros Hm w r w'. unfold wrap.
  destruct (m w) as [ra w1] eqn:Em.
  specialize (Hm _ _ _ Em).
  destruct ra; intros [= <- <-]; exact Hm.
Qed.

Lemma read_only_read {A} op (f : DB -> error + A) :
  is_write op = false -> read_only (read op f CtxBase).
Proof.
  intros Hop w r w'. unfold read.
  destruct (f _); intros [= <- <-]; repeat split;
    exists [Call op CtxBase]; simpl; now rewrite Hop.
Qed.

Lemma getSpaceCheckAuthSpaceCreation_read_only session parentRef :
  read_only (getSpaceCheckAuthSpaceCreation CtxBase session parentRef).
Proof.
  unfold getSpaceCheckAuthSpaceCreation.
  destruct (ParseInt parentRef) as [parentRefAsID err].
  destruct (_ || _).
  - destruct session; [apply read_only_ret | apply read_only_fail].
  - apply read_only_bind; [now apply read_only_wrap, read_only_read|].
    intros parentSpace.
    apply read_only_bind; [now apply read_only_wrap, read_only_read|].
    intros _. apply read_only_ret.
Qed.

Lemma GetSpaceOutput_read_only space :
  read_only (GetSpaceOutput CtxBase space).
Proof. now apply read_only_read. Qed.

Lemma createSpaceInnerInTX_confined session parentID in1 :
  tx_confined (createSpaceInnerInTX CtxTx session parentID in1).
Proof.
  unfold createSpaceInnerInTX, setSpacePublicAccess.
  apply tx_confined_bind.
  { destruct (0 <? parentID); [|apply tx_confined_ret].
    apply tx_confined_bind; [apply tx_confined_wrap, tx_confined_read|].
    intros parentPath.
    destruct (check_PathDepth _ _); [apply tx_confined_fail | apply tx_confined_ret]. }
  intros spacePath.
  destruct session as [session|]; [|apply tx_confined_panic].
  apply tx_confined_bind; [apply tx_confined_wrap, tx_confined_write|].
  intros space.
  apply tx_confined_bind; [apply tx_confined_wrap, tx_confined_write|].
  intros _.
  apply tx_confined_bind.
  { destruct (parentID =? 0); [|apply tx_confined_ret].
    apply tx_confined_wrap, tx_confined_write. }
  intros _.
  apply tx_confined_bind; [apply tx_confined_wrap, tx_confined_write|].
  intros _. apply tx_confined_ret.
Qed.

(** *** The shape of the trace *)

Lemma single_tx_reads ph evs :
  ph <> InsideTx -> forallb is_base_read evs = true ->
  forall rest, single_tx ph (evs ++ rest) = single_tx ph rest.
Proof.
  intros Hph. induction evs as [|ev evs IH]; simpl; [reflexivity|].
  intros Hall rest. apply andb_true_iff in Hall as [Hev Hall].
  destruct ev as [op [|]| | |]; simpl in Hev; try discriminate.
  destruct ph; try congruence; rewrite Hev; simpl; now apply IH.
Qed.

Lemma single_tx_calls evs :
  forallb is_tx_call evs = true ->
  forall rest, single_tx InsideTx (evs ++ rest) = single_tx InsideTx rest.
Proof.
  induction evs as [|ev evs IH]; simpl; [reflexivity|].
  intros Hall rest. apply andb_true_iff in Hall as [Hev Hall].
  destruct ev as [op [|]| | |]; simpl in Hev; try discriminate.
  now apply IH.
Qed.

Lemma single_tx_reads_only ph evs :
  ph <> InsideTx -> forallb is_base_read evs = true -> single_tx ph evs = true.
Proof.
  intros Hph Hall. rewrite <- (app_nil_r evs).
  rewrite single_tx_reads by assumption. now destruct ph.
Qed.

(** The shape of a whole transaction between reads. *)
Lemma single_tx_around pre body closing post :
  forallb is_base_read pre = true ->
  forallb is_tx_call body = true ->
  closing = TxCommit \/ closing = TxRollback ->
  forallb is_base_read post = true ->
  single_tx BeforeTx (pre ++ (TxBegin :: body ++ closing :: post)) = true.
Proof.
  intros Hpre Hbody Hclosing Hpost.
  rewrite single_tx_reads by (assumption || discriminate). simpl.
  rewrite single_tx_calls by assumption.
  destruct Hclosing as [-> | ->]; simpl;
    now apply single_tx_reads_only.
Qed.

(** The writes [createSpaceInnerInTX] has made when it returns a space. *)
Definition expected_writes (parentID : Z) : list Op :=
  [OpSpaceCreate; OpInsertSegment] ++
  (if parentID =? 0 then [OpMembershipCreate] else []) ++
  [OpPublicAccessSet].

Lemma writes_of_app evs1 evs2 :
  writes_of (evs1 ++ evs2) = writes_of evs1 ++ writes_of evs2.
Proof.
  induction evs1 as [|ev evs1 IH]; simpl; [reflexivity|].
  destruct ev as [op ctx| | |]; try assumption.
  destruct (is_write op); simpl; now rewrite IH.
Qed.

(** A computation that, when it returns a value, has made the writes [ws],
    in this order. *)
Definition logs_writes {A} (ws : list Op) (m : M A) : Prop :=
  forall w r w',
    m w = (r, w') ->
    exists body,
      trace w' = trace w ++ body /\
      (forall a, r = Ok a -> writes_of body = ws).

Lemma logs_writes_ret {A} (a : A) : logs_writes [] (ret a).
Proof.
  intros w r w' [= <- <-]. exists []. now rewrite app_nil_r.
Qed.

Lemma logs_writes_fail {A} ws (e : error) : logs_writes ws (@fail A e).
Proof.
  intros w r w' [= <- <-]. exists []. rewrite app_nil_r.
  split; [reflexivity|discriminate].
Qed.

Lemma logs_writes_panic {A} ws : logs_writes ws (@panic A).
Proof.
  intros w r w' [= <- <-]. exists []. rewrite app_nil_r.
  split; [reflexivity|discriminate].
Qed.

Lemma logs_writes_bind {A B} ws1 ws2 (m : M A) (k : A -> M B) :
  logs_writes ws1 m -> (forall a, logs_writes ws2 (k a)) ->
  logs_writes (ws1 ++ ws2) (bind m k).
Proof.
  intros Hm Hk w r w'. unfold bind.
  destruct (m w) as [ra w1] eqn:Em.
  destruct (Hm _ _ _ Em) as (body1 & Ht1 & Hw1).
  destruct ra as [a|e|].
  - intros Ek. destruct (Hk a _ _ _ Ek) as (body2 & Ht2 & Hw2).
    exists (body1 ++ body2). split.
    + now rewrite Ht2, Ht1, app_assoc.
    + intros b ->. rewrite writes_of_app.
      now rewrite (Hw1 a eq_refl), (Hw2 b eq_refl).
  - intros [= <- <-]. exists body1. split; [assumption|discriminate].
  - intros [= <- <-]. exists body1. split; [assumption|discriminate].
Qed.

Lemma logs_writes_wrap {A} ws format args (m : M A) :
  logs_writes ws m -> logs_writes ws (wrap format args m).
Proof.
  intros Hm w r w'. unfold wrap.
  destruct (m w) as [ra w1] eqn:Em.
  destruct (Hm _ _ _ Em) as (body & Ht & Hw).
  destruct ra; intros [= <- <-]; exists body; split; auto; discriminate.
Qed.

Lemma logs_writes_read {A} op (f : DB -> error + A) ctx :
  is_write op = false -> logs_writes [] (read op f ctx).
Proof.
  intros Hop w r w'. unfold read.
  destruct (f _); intros [= <- <-]; exists [Call op ctx];
    (split; [reflexivity|]); intros b; simpl; now rewrite Hop.
Qed.

Lemma set_db_trace ctx d w : trace (set_db ctx d w) = trace w.
Proof. unfold set_db. now destruct ctx, (pending w). Qed.

Lemma logs_writes_write {A} op (f : DB -> error + A * DB) ctx :
  is_write op = true -> logs_writes [op] (write op f ctx).
Proof.
  intros Hop w r w'. unfold write.
  destruct (f _) as [e|[a d]]; intros [= <- <-]; exists [Call op ctx];
    rewrite ?set_db_trace; (split; [reflexivity|]);
    intros b; simpl; now rewrite Hop.
Qed.

Lemma createSpaceInnerInTX_writes ctx session parentID in1 :
  logs_writes (expected_writes parentID)
    (createSpaceInnerInTX ctx session parentID in1).
Proof.
  unfold createSpaceInnerInTX, setSpacePublicAccess, expected_writes.
  apply (logs_writes_bind []).
  { destruct (0 <? parentID); [|apply logs_writes_ret].
    apply (logs_writes_bind [] []);
      [now apply logs_writes_wrap, logs_writes_read|].
    intros parentPath.
    destruct (check_PathDepth _ _);
      [apply logs_writes_fail | apply logs_writes_ret]. }
  intros spacePath.
  destruct session as [session|]; [|apply logs_writes_panic].
  apply (logs_writes_bind [OpSpaceCreate]);
    [now apply logs_writes_wrap, logs_writes_write|].
  intros space.
  apply (logs_writes_bind [OpInsertSegment]);
    [now apply logs_writes_wrap, logs_writes_write|].
  intros _.
  apply logs_writes_bind.
  { destruct (parentID =? 0); [|apply logs_writes_ret].
    now apply logs_writes_wrap, logs_writes_write. }
  intros _.
  apply (logs_writes_bind [OpPublicAccessSet] []);
    [now apply logs_writes_wrap, logs_writes_write|].
  intros _. apply logs_writes_ret.
Qed.

(** *** [Create] and its transaction *)

(** [Create] once its input is sanitized and the parent space is found. *)
Lemma Create_reaches_transaction session in0 w in1 parentSpace w1 r w2 :
  sanitizeCreateInput in0 = (in1, None) ->
  getSpaceCheckAuthSpaceCreation CtxBase session (ParentRef in1) w
    = (Ok parentSpace, w1) ->
  createSpaceInnerInTX CtxTx session (Space_ID parentSpace) in1 (begin_tx w1)
    = (r, w2) ->
  Create session in0 w =
    match r with
    | Ok space => GetSpaceOutput CtxBase space (commit_tx w2)
    | Err e => (Err e, rollback_tx w2)
    | Panic => (Panic, rollback_tx w2)
    end.
Proof.
  intros Hsan Hparent Hinner.
  unfold Create, bind, WithTx. rewrite Hsan, Hparent, Hinner.
  now destruct r.
Qed.

(** The events of any run of [Create] open at most one transaction, and
    every write among them is made inside it with its context. *)
Lemma Create_trace session in0 w :
  exists new,
    trace (snd (Create session in0 w)) = trace w ++ new /\
    single_tx BeforeTx new = true.
Proof.
  destruct (sanitizeCreateInput in0) as [in1 [err|]] eqn:Hsan.
  { unfold Create. rewrite Hsan. exists []. now rewrite app_nil_r. }
  destruct (getSpaceCheckAuthSpaceCreation CtxBase session (ParentRef in1) w)
    as [rp w1] eqn:Hparent.
  destruct (getSpaceCheckAuthSpaceCreation_read_only _ _ _ _ _ Hparent)
    as (_ & _ & pre & Hpre & Hreads).
  destruct rp as [parentSpace|e|].
  2,3: unfold Create, bind; rewrite Hsan, Hparent; exists pre;
       (split; [assumption|]); now apply single_tx_reads_only.
  destruct (createSpaceInnerInTX CtxTx session (Space_ID parentSpace) in1
              (begin_tx w1)) as [r w2] eqn:Hinner.
  rewrite (Create_reaches_transaction _ _ _ _ _ _ _ _ Hsan Hparent Hinner).
  destruct (createSpaceInnerInTX_confined _ _ _ _ _ _
              (ltac:(now eexists) : is_Some (pending (begin_tx w1))) Hinner)
    as (_ & _ & body & Hbody & Hcalls).
  assert (Htx : trace w2 = trace w ++ pre ++ TxBegin :: body).
  { rewrite Hbody. unfold begin_tx. rewrite log_trace. simpl.
    rewrite Hpre, <- ?app_assoc. reflexivity. }
  destruct r as [space|e|].
  - destruct (GetSpaceOutput CtxBase space (commit_tx w2)) as [ro w3] eqn:Hout.
    destruct (GetSpaceOutput_read_only _ _ _ _ Hout)
      as (_ & _ & post & Hpost & Hreads').
    exists (pre ++ (TxBegin :: body ++ TxCommit :: post)). split.
    + simpl. rewrite Hpost. unfold commit_tx. rewrite log_trace. simpl.
      rewrite Htx, <- ?app_assoc. simpl. now rewrite <- ?app_assoc.
    + apply single_tx_around; auto.
  - exists (pre ++ (TxBegin :: body ++ TxRollback :: [])). split.
    + simpl. rewrite Htx, <- ?app_assoc. simpl. now rewrite <- ?app_assoc.
    + apply single_tx_around; auto.
  - exists (pre ++ (TxBegin :: body ++ TxRollback :: [])). split.
    + simpl. rewrite Htx, <- ?app_assoc. simpl. now rewrite <- ?app_assoc.
    + apply single_tx_around; auto.
Qed.

(** *** A negative parent id *)

Lemma ParseInt_nil_nonempty (s : string) (n : Z) :
  ParseInt s = (n, None) -> (0 <? len s) = true.
Proof.
  unfold ParseInt, len. destruct s as [|ch s]; simpl; [discriminate|].
  intros _. apply Z.ltb_lt. lia.
Qed.

(** The error [sanitizeCreateInput] returns for a negative parent id: the
    first of its three guards that fires. *)
Definition negative_parent_error (in0 : CreateInput) : error :=
  if negb (nestedSpacesEnabled c) then errNestedSpacesNotSupported
  else if IsPublic in0 && negb (publicResourceCreationEnabled c) then
    errPublicSpaceCreationDisabled
  else errParentIDNegative.

Lemma sanitizeCreateInput_negative_parent (in0 : CreateInput) (n : Z) :
  ParseInt (ParentRef in0) = (n, None) -> n < 0 ->
  snd (sanitizeCreateInput in0) = Some (negative_parent_error in0).
Proof.
  intros Hparse Hneg.
  pose proof (ParseInt_nil_nonempty _ _ Hparse) as Hlen.
  unfold sanitizeCreateInput, negative_parent_error.
  destruct (String.eqb (Identifier in0) ""); simpl;
    rewrite Hlen, Hparse; simpl;
    destruct (nestedSpacesEnabled c); simpl; try reflexivity;
    destruct (IsPublic in0 && negb (publicResourceCreationEnabled c));
    simpl; try reflexivity;
    (destruct (Z.ltb_spec n 0); [reflexivity | lia]).
Qed.

(** C10, as the code has it.  For every input whose [ParentRef] parses as a
    negative integer, [Create] fails during input sanitization, calls no
    store and leaves the world as it was, so no space, path segment,
    membership or public-access record is created; the error wrapped in
    "failed to sanitize input" is [errNestedSpacesNotSupported] when nested
    spaces are disabled, else [errPublicSpaceCreationDisabled] when the
    input is public and public resource creation is disabled, and the
    BadRequest error [errParentIDNegative] otherwise. *)
Theorem Create_negative_parent_fails_in_sanitization
    (session : option Session) (in0 : CreateInput) (w : World) (n : Z) :
  ParseInt (ParentRef in0) = (n, None) -> n < 0 ->
  Create session in0 w =
    (Err (Errorf "failed to sanitize input: %w" [] (negative_parent_error in0)), w)
  /\ (nestedSpacesEnabled c = true ->
      (IsPublic in0 = true -> publicResourceCreationEnabled c = true) ->
      negative_parent_error in0 = errParentIDNegative).
Proof.
  intros Hparse Hneg. split.
  - pose proof (sanitizeCreateInput_negative_parent _ _ Hparse Hneg) as Hsan.
    unfold Create. destruct (sanitizeCreateInput in0) as [in1 err].
    simpl in Hsan. now rewrite Hsan.
  - intros Hnested Hpublic. unfold negative_parent_error.
    rewrite Hnested. simpl.
    destruct (IsPublic in0); simpl; [|reflexivity].
    now rewrite Hpublic.
Qed.

(** *** What a call needs before it reaches a store *)

(** The root test of [sanitizeCreateInput]: the parent reference parses as
    zero, or is blank. *)
Definition root_ref (parentRef : string) : bool :=
  let '(parentRefAsID, err) := ParseInt parentRef in
  (is_nil err && (parentRefAsID =? 0)) ||
  (len (strings_TrimSpace parentRef) =? 0).

(** The identifier a call creates its space with: the deprecated [uid] of
    the input stands in for an empty [identifier]. *)
Definition effective_identifier (in0 : CreateInput) : string :=
  if String.eqb (Identifier in0) "" then UID in0 else Identifier in0.

Lemma sanitizeCreateInput_ok (in0 in1 : CreateInput) :
  sanitizeCreateInput in0 = (in1, None) ->
  in1 = {| ParentRef := ParentRef in0; UID := UID in0;
           Identifier := effective_identifier in0;
           Description := strings_TrimSpace (Description in0);
           IsPublic := IsPublic in0 |} /\
  (ParentRef in0 = "" \/ nestedSpacesEnabled c = true) /\
  (IsPublic in0 = true -> publicResourceCreationEnabled c = true) /\
  (forall n, ParseInt (ParentRef in0) = (n, None) -> 0 <= n) /\
  identifierCheck c (effective_identifier in0) (root_ref (ParentRef in0)) = None /\
  check_Description (strings_TrimSpace (Description in0)) = None.
Proof.
  unfold sanitizeCreateInput, effective_identifier, root_ref.
  set (in' := if String.eqb (Identifier in0) "" then _ else in0).
  assert (Hin' : ParentRef in' = ParentRef in0 /\ UID in' = UID in0 /\
                 Description in' = Description in0 /\
                 IsPublic in' = IsPublic in0 /\
                 Identifier in' =
                   if String.eqb (Identifier in0) "" then UID in0
                   else Identifier in0).
  { subst in'. destruct (String.eqb (Identifier in0) ""); now repeat split. }
  destruct Hin' as (-> & -> & -> & -> & ->).
  destruct ((0 <? len (ParentRef in0)) && negb (nestedSpacesEnabled c))
    eqn:Hnested; [discriminate|].
  destruct (IsPublic in0 && negb (publicResourceCreationEnabled c))
    eqn:Hpublic; [discriminate|].
  destruct (ParseInt (ParentRef in0)) as [parentRefAsID err].
  destruct (is_nil err && (parentRefAsID <? 0)) eqn:Hneg; [discriminate|].
  destruct (identifierCheck c _ _) eqn:Hid; [discriminate|].
  simpl.
  destruct (check_Description _) eqn:Hdesc; [discriminate|].
  intros [= <-]. repeat split; auto.
  - apply andb_false_iff in Hnested as [Hlen|Hen].
    + left. apply Z.ltb_ge in Hlen. unfold len in Hlen.
      destruct (ParentRef in0); [reflexivity|simpl in Hlen; lia].
    + right. now apply negb_false_iff in Hen.
  - intros Hp. rewrite Hp in Hpublic. simpl in Hpublic.
    now apply negb_false_iff in Hpublic.
  - intros n [= -> ->]. simpl in Hneg. now apply Z.ltb_ge in Hneg.
Qed.

(** X8. A call that reaches any collaborator has passed every check of the
    sanitization: the parent reference is empty or nested spaces are
    enabled, a public space is only asked for when public resource creation
    is enabled, the parent reference does not parse as a negative number,
    and the identifier (the [uid] when the identifier is empty) and the
    trimmed description pass their checks.  Otherwise [Create] calls nothing
    and changes nothing. *)
Theorem Create_calls_after_sanitization
    (session : option Session) (in0 : CreateInput) (w : World) :
  snd (Create session in0 w) <> w ->
  (ParentRef in0 = "" \/ nestedSpacesEnabled c = true) /\
  (IsPublic in0 = true -> publicResourceCreationEnabled c = true) /\
  (forall n, ParseInt (ParentRef in0) = (n, None) -> 0 <= n) /\
  identifierCheck c (effective_identifier in0) (root_ref (ParentRef in0)) = None /\
  check_Description (strings_TrimSpace (Description in0)) = None.
Proof.
  intros Hchanged.
  destruct (sanitizeCreateInput in0) as [in1 [err|]] eqn:Hsan.
  - exfalso. apply Hchanged. unfold Create. now rewrite Hsan.
  - now destruct (sanitizeCreateInput_ok _ _ Hsan) as (_ & H).
Qed.

(** X9. The two root tests agree.  When the sanitization passes, the
    identifier has been checked as a root identifier exactly when the
    authorization step takes the parent for the root: then a signed-in
    caller gets the zero space as parent without any lookup, and otherwise
    the parent is looked up by [FindByRef] first. *)
Theorem root_tests_agree (in0 in1 : CreateInput) :
  sanitizeCreateInput in0 = (in1, None) ->
  identifierCheck c (Identifier in1) (root_ref (ParentRef in1)) = None /\
  (root_ref (ParentRef in1) = true ->
   forall ctx session w,
     getSpaceCheckAuthSpaceCreation ctx (Some session) (ParentRef in1) w
       = (Ok zero_Space, w)) /\
  (root_ref (ParentRef in1) = false ->
   forall ctx session w, exists rest,
     trace (snd (getSpaceCheckAuthSpaceCreation ctx session (ParentRef in1) w))
       = trace w ++ Call OpSpaceFindByRef ctx :: rest).
Proof.
  intros Hsan.
  destruct (sanitizeCreateInput_ok _ _ Hsan) as (-> & _ & _ & Hneg & Hid & _).
  simpl. split; [exact Hid|].
  unfold root_ref, getSpaceCheckAuthSpaceCreation.
  destruct (ParseInt (ParentRef in0)) as [parentRefAsID err] eqn:Hparse.
  assert (Hsame : (parentRefAsID <=? 0) && is_nil err
                  = is_nil err && (parentRefAsID =? 0)).
  { destruct err as [e|]; simpl; [apply andb_false_r|].
    specialize (Hneg _ eq_refl). rewrite andb_true_r.
    destruct (Z.leb_spec parentRefAsID 0), (Z.eqb_spec parentRefAsID 0);
      try reflexivity; lia. }
  rewrite Hsame. split.
  - intros ->. reflexivity.
  - intros ->. intros ctx session w.
    unfold bind, wrap, read. simpl.
    destruct (spaceStore_FindByRef c (ParentRef in0) _) as [e|parentSpace];
      [now exists []|].
    destruct (authorizer_CheckSpaceScope c session parentSpace _ _ _);
      simpl; rewrite <- app_assoc; simpl; eexists; reflexivity.
Qed.

(** *** Calls without a session *)

Lemma base_reads_no_writes evs :
  forallb is_base_read evs = true -> writes_of evs = [].
Proof.
  induction evs as [|ev evs IH]; simpl; [reflexivity|].
  intros H. apply andb_true_iff in H as [Hev H].
  destruct ev as [op [|]| | |]; simpl in Hev; try discriminate.
  apply negb_true_iff in Hev. rewrite Hev. now apply IH.
Qed.

Lemma createSpaceInnerInTX_anonymous ctx parentID in1 w :
  (forall space, fst (createSpaceInnerInTX ctx None parentID in1 w) <> Ok space) /\
  exists body,
    trace (snd (createSpaceInnerInTX ctx None parentID in1 w)) = trace w ++ body /\
    writes_of body = [].
Proof.
  unfold createSpaceInnerInTX, bind, wrap, read, ret, fail, panic.
  destruct (0 <? parentID); simpl.
  - destruct (spacePathStore_FindPrimaryBySpaceID c parentID _) as [e|parentPath];
      simpl.
    + split; [discriminate|]. now exists [Call OpFindPrimaryBySpaceID ctx].
    + destruct (check_PathDepth _ _); simpl;
        (split; [discriminate|]); now exists [Call OpFindPrimaryBySpaceID ctx].
  - split; [discriminate|]. exists []. now rewrite app_nil_r.
Qed.

(** X10. A call without a session never creates anything: [Create] returns
    no space, the committed state is the one the call started from, and no
    write is among the calls it makes, whatever the stores and the
    authorizer answer. *)
Theorem Create_anonymous_creates_nothing (in0 : CreateInput) (w : World) :
  (forall out, fst (Create None in0 w) <> Ok out) /\
  committed (snd (Create None in0 w)) = committed w /\
  exists new,
    trace (snd (Create None in0 w)) = trace w ++ new /\ writes_of new = [].
Proof.
  destruct (sanitizeCreateInput in0) as [in1 [err|]] eqn:Hsan.
  { unfold Create. rewrite Hsan. simpl.
    repeat split; [discriminate|]. exists []. now rewrite app_nil_r. }
  destruct (getSpaceCheckAuthSpaceCreation CtxBase None (ParentRef in1) w)
    as [rp w1] eqn:Hparent.
  destruct (getSpaceCheckAuthSpaceCreation_read_only _ _ _ _ _ Hparent)
    as (Hc1 & _ & pre & Hpre & Hreads).
  apply base_reads_no_writes in Hreads.
  destruct rp as [parentSpace|e|].
  2,3: unfold Create, bind; rewrite Hsan, Hparent; simpl;
       (repeat split; [discriminate|assumption|]); now exists pre.
  destruct (createSpaceInnerInTX CtxTx None (Space_ID parentSpace) in1
              (begin_tx w1)) as [r w2] eqn:Hinner.
  destruct (createSpaceInnerInTX_confined _ _ _ _ _ _
              (ltac:(now eexists) : is_Some (pending (begin_tx w1))) Hinner)
    as (Hc2 & _ & _).
  destruct (createSpaceInnerInTX_anonymous CtxTx (Space_ID parentSpace) in1
              (begin_tx w1)) as (Hnot & body & Hbody & Hwrites).
  rewrite Hinner in Hnot, Hbody. simpl in Hnot, Hbody.
  rewrite (Create_reaches_transaction _ _ _ _ _ _ _ _ Hsan Hparent Hinner).
  assert (Htrace : trace (rollback_tx w2) =
                   trace w ++ (pre ++ TxBegin :: body ++ [TxRollback])).
  { unfold rollback_tx, log. simpl. rewrite Hbody.
    unfold begin_tx, log. simpl. rewrite Hpre.
    rewrite <- ?app_assoc. simpl. now rewrite <- ?app_assoc. }
  assert (Hnone : writes_of (pre ++ TxBegin :: body ++ [TxRollback]) = []).
  { rewrite writes_of_app. simpl. rewrite writes_of_app, Hreads, Hwrites.
    reflexivity. }
  destruct r as [space|e|]; simpl.
  - now contradiction (Hnot space).
  - repeat split; [discriminate|rewrite Hc2; exact Hc1|].
    eexists. split; eassumption.
  - repeat split; [discriminate|rewrite Hc2; exact Hc1|].
    eexists. split; eassumption.
Qed.

(** *** The writes of [Create] and its transaction *)

(** The records [createSpaceInnerInTX] hands to the stores: the space, its
    primary path segment and the membership of its owner. *)
Definition new_space (session : Session) (parentID : Z) (in1 : CreateInput)
    (spacePath : string) : Space :=
  {| Space_ID := 0; Space_Version := 0; Space_ParentID := parentID;
     Space_Identifier := Identifier in1;
     Space_Description := Description in1;
     Space_Path := spacePath;
     Space_CreatedBy := Principal_ID (Session_Principal session);
     Space_Created := time_Now_UnixMilli;
     Space_Updated := time_Now_UnixMilli |}.

Definition primary_segment (parentID : Z) (space : Space) : SpacePathSegment :=
  {| Segment_Identifier := Space_Identifier space;
     Segment_IsPrimary := true;
     Segment_SpaceID := Space_ID space;
     Segment_ParentID := parentID;
     Segment_CreatedBy := Space_CreatedBy space;
     Segment_Created := time_Now_UnixMilli;
     Segment_Updated := time_Now_UnixMilli |}.

Definition owner_membership (session : Session) (space : Space) : Membership :=
  {| Membership_SpaceID := Space_ID space;
     Membership_PrincipalID := Principal_ID (Session_Principal session);
     Membership_Role := MembershipRoleSpaceOwner;
     Membership_CreatedBy := systemServicePrincipalID;
     Membership_Created := time_Now_UnixMilli;
     Membership_Updated := time_Now_UnixMilli |}.

(** The call that started in [w] has returned the error [e] and nothing it
    wrote persists: the state every reader sees is the one of [w], and no
    transaction is left open. *)
Definition rolled_back (w : World) (result : outcome SpaceOutput * World)
    (e : error) : Prop :=
  fst result = Err e /\
  committed (snd result) = committed w /\
  pending (snd result) = None.

(** The call that started in [w] has committed the state [d] with the new
    [space]: [d] is the state every reader sees, the writes among its calls
    are those of the transaction, and what it returns is what
    [GetSpaceOutput] makes of the space in the committed state. *)
Definition committed_with (w : World) (result : outcome SpaceOutput * World)
    (parentID : Z) (space : Space) (d : DB) : Prop :=
  committed (snd result) = d /\
  pending (snd result) = None /\
  fst result =
    match GetSpaceOutput_body space d with
    | inr out => Ok out
    | inl e => Err e
    end /\
  writes_of (trace (snd result)) = writes_of (trace w) ++ expected_writes parentID.

(** C7. All writes of space [Create] happen inside a single transaction.
    The events of any call open at most one transaction and every write is
    made inside it, with its context.  For a call with a session whose
    input is sanitized and whose parent is found, the steps of the
    transaction run on the state the call started from, each on the state
    the step before has left: the parent path is read and its depth
    checked when the parent is not the root; then the space record is
    written, its primary path segment, the owner membership exactly when
    the parent is the root, and the public-access setting.  When any of
    these steps fails, [Create] returns that step's error, wrapped, and the
    committed state is the one the call started from; when all succeed, the
    committed state is the one the last write has left, and the writes of
    the call are these and no others. *)
Theorem Create_writes_in_single_transaction :
  (forall (session : option Session) (in0 : CreateInput) (w : World),
   exists new,
     trace (snd (Create session in0 w)) = trace w ++ new /\
     single_tx BeforeTx new = true) /\
  (forall (session : Session) (in0 in1 : CreateInput) (w w1 : World)
          (parentSpace : Space),
     sanitizeCreateInput in0 = (in1, None) ->
     getSpaceCheckAuthSpaceCreation CtxBase (Some session) (ParentRef in1) w
       = (Ok parentSpace, w1) ->
     let parentID := Space_ID parentSpace in
     let result := Create (Some session) in0 w in
     let writes (spacePath : string) : Prop :=
       match spaceStore_Create c
               (new_space session parentID in1 spacePath) (committed w) with
       | inl e => rolled_back w result (Errorf "space creation failed: %w" [] e)
       | inr (space, d1) =>
       match spacePathStore_InsertSegment c
               (primary_segment parentID space) d1 with
       | inl e =>
           rolled_back w result
             (Errorf "failed to insert primary path segment: %w" [] e)
       | inr (_, d2) =>
       match (if parentID =? 0
              then membershipStore_Create c (owner_membership session space) d2
              else inr (tt, d2)) with
       | inl e =>
           rolled_back w result
             (Errorf "failed to make user owner of the space: %w" [] e)
       | inr (_, d3) =>
       match publicAccess_Set c PublicResourceTypeSpace (Space_Path space)
               (IsPublic in1) d3 with
       | inl e =>
           rolled_back w result
             (Errorf "failed to set a space public: %w" [] e)
       | inr (_, d4) => committed_with w result parentID space d4
       end end end end in
     if 0 <? parentID then
       match spacePathStore_FindPrimaryBySpaceID c parentID (committed w) with
       | inl e =>
           rolled_back w result
             (Errorf "failed to find primary path for parent '%d': %w"
                [parentID] e)
       | inr parentPath =>
           let spacePath :=
             paths_Concatenate (SpacePath_Value parentPath) (Identifier in1) in
           match check_PathDepth spacePath true with
           | Some e => rolled_back w result (Errorf "path is invalid: %w" [] e)
           | None => writes spacePath
           end
       end
     else writes (Identifier in1)).
Proof.
  split; [intros session in0 w; apply Create_trace|].
  intros session in0 in1 w w1 parentSpace Hsan Hparent parentID result writes.
  destruct (getSpaceCheckAuthSpaceCreation_read_only _ _ _ _ _ Hparent)
    as (Hc1 & _ & pre & Hpre & Hreads).
  apply base_reads_no_writes in Hreads.
  assert (Hwrites : forall spacePath body,
            writes_of body = [] ->
            (forall r w2,
               bind
                 (wrap "space creation failed: %w" []
                    (write OpSpaceCreate
                       (spaceStore_Create c
                          (new_space session parentID in1 spacePath)) CtxTx))
                 (fun space =>
                    bind
                      (wrap "failed to insert primary path segment: %w" []
                         (write OpInsertSegment
                            (spacePathStore_InsertSegment c
                               (primary_segment parentID space)) CtxTx))
                      (fun _ =>
                         bind
                           (if parentID =? 0 then
                              wrap "failed to make user owner of the space: %w" []
                                (write OpMembershipCreate
                                   (membershipStore_Create c
                                      (owner_membership session space)) CtxTx)
                            else ret tt)
                           (fun _ =>
                              bind
                                (wrap "failed to set a space public: %w" []
                                   (setSpacePublicAccess CtxTx space (IsPublic in1)))
                                (fun _ => ret space))))
                 {| committed := committed w; pending := Some (committed w);
                    trace := trace w ++ pre ++ TxBegin :: body |} = (r, w2) ->
               result =
                 match r with
                 | Ok space => GetSpaceOutput CtxBase space (commit_tx w2)
                 | Err e => (Err e, rollback_tx w2)
                 | Panic => (Panic, rollback_tx w2)
                 end) ->
            writes spacePath).
  { intros spacePath body Hbody Hresult. unfold writes.
    unfold setSpacePublicAccess in Hresult.
    unfold bind, wrap, write, ret in Hresult.
    simpl in Hresult.
    destruct (spaceStore_Create c _ (committed w)) as [e|[space d1]].
    { rewrite (Hresult _ _ eq_refl). now repeat split. }
    simpl in Hresult.
    destruct (spacePathStore_InsertSegment c _ d1) as [e|[[] d2]].
    { rewrite (Hresult _ _ eq_refl). now repeat split. }
    simpl in Hresult.
    assert (Hmember : forall d3 evs,
              writes_of evs =
                (if parentID =? 0 then [OpMembershipCreate] else []) ->
              (forall r w2,
                 match publicAccess_Set c PublicResourceTypeSpace
                         (Space_Path space) (IsPublic in1) d3 with
                 | inr (_, d4) =>
                     (Ok space,
                      {| committed := committed w; pending := Some d4;
                         trace := ((trace w ++ pre ++ TxBegin :: body) ++
                                   [Call OpSpaceCreate CtxTx;
                                    Call OpInsertSegment CtxTx] ++ evs) ++
                                  [Call OpPublicAccessSet CtxTx] |})
                 | inl e =>
                     (Err (Errorf "failed to set a space public: %w" [] e),
                      {| committed := committed w; pending := Some d3;
                         trace := ((trace w ++ pre ++ TxBegin :: body) ++
                                   [Call OpSpaceCreate CtxTx;
                                    Call OpInsertSegment CtxTx] ++ evs) ++
                                  [Call OpPublicAccessSet CtxTx] |})
                 end = (r, w2) ->
                 result =
                   match r with
                   | Ok space => GetSpaceOutput CtxBase space (commit_tx w2)
                   | Err e => (Err e, rollback_tx w2)
                   | Panic => (Panic, rollback_tx w2)
                   end) ->
              match publicAccess_Set c PublicResourceTypeSpace
                      (Space_Path space) (IsPublic in1) d3 with
              | inl e =>
                  rolled_back w result
                    (Errorf "failed to set a space public: %w" [] e)
              | inr (_, d4) => committed_with w result parentID space d4
              end).
    { intros d3 evs Hevs Hres.
      destruct (publicAccess_Set c _ _ _ d3) as [e|[[] d4]].
      { rewrite (Hres _ _ eq_refl). now repeat split. }
      rewrite (Hres _ _ eq_refl).
      unfold committed_with, GetSpaceOutput, read, commit_tx. simpl.
      destruct (GetSpaceOutput_body space d4); simpl;
        (split; [reflexivity|]); (split; [reflexivity|]);
        (split; [reflexivity|]);
        rewrite !writes_of_app, Hreads; simpl;
        rewrite Hbody, Hevs; unfold expected_writes; simpl;
        rewrite !app_nil_r, <- !app_assoc; reflexivity. }
    destruct (parentID =? 0) eqn:Hroot.
    - simpl in Hresult.
      destruct (membershipStore_Create c _ d2) as [e|[[] d3]].
      { rewrite (Hresult _ _ eq_refl). now repeat split. }
      simpl in Hresult.
      apply (Hmember d3 [Call OpMembershipCreate CtxTx] eq_refl).
      intros r w2 Heq. apply Hresult. rewrite <- Heq.
      destruct (publicAccess_Set c _ _ _ d3) as [e|[[] d4]];
        unfold log; simpl; rewrite <- ?app_assoc; reflexivity.
    - simpl in Hresult.
      apply (Hmember d2 [] eq_refl).
      intros r w2 Heq. apply Hresult. rewrite <- Heq.
      destruct (publicAccess_Set c _ _ _ d2) as [e|[[] d4]];
        unfold log; simpl; rewrite <- ?app_assoc; reflexivity. }
  assert (Hresult : forall r w2,
            createSpaceInnerInTX CtxTx (Some session) parentID in1 (begin_tx w1)
              = (r, w2) ->
            result =
              match r with
              | Ok space => GetSpaceOutput CtxBase space (commit_tx w2)
              | Err e => (Err e, rollback_tx w2)
              | Panic => (Panic, rollback_tx w2)
              end).
  { intros r w2 Hinner.
    apply (Create_reaches_transaction _ _ _ _ _ _ _ _ Hsan Hparent Hinner). }
  unfold createSpaceInnerInTX, begin_tx in Hresult.
  rewrite Hc1, Hpre in Hresult.
  destruct (0 <? parentID).
  - unfold bind at 1 2, wrap at 1, read, log in Hresult. simpl in Hresult.
    destruct (spacePathStore_FindPrimaryBySpaceID c parentID (committed w))
      as [e|parentPath].
    { rewrite (Hresult _ _ eq_refl). now repeat split. }
    simpl in Hresult. cbv zeta.
    destruct (check_PathDepth _ true) as [e|].
    { unfold fail in Hresult. simpl in Hresult.
      rewrite (Hresult _ _ eq_refl). now repeat split. }
    apply (Hwrites _ [Call OpFindPrimaryBySpaceID CtxTx] eq_refl).
    intros r w2 Heq. apply Hresult. rewrite <- Heq. unfold ret at 1.
    now rewrite <- ?app_assoc.
  - unfold bind at 1, ret at 1, log in Hresult. simpl in Hresult.
    apply (Hwrites _ [] eq_refl).
    intros r w2 Heq. apply Hresult. rewrite <- Heq.
    now rewrite <- ?app_assoc.
Qed.

End Controller.

Arguments committed {DB} w.
Arguments pending {DB} w.
Arguments trace {DB} w.

End Space.

(* ===================================================================== *)
(** ** A concrete controller: runs of [Create] *)
(* ===================================================================== *)

Module SpaceDemo.
Import Space.

Local Open Scope Z_scope.
Local Open Scope list_scope.

(** A database of four tables, with stores that append to them. *)
Record Tables : Type := {
  spaces : list Space;
  segments : list SpacePathSegment;
  memberships : list Membership;
  public_access : list (string * bool)
}.

Definition no_tables : Tables :=
  {| spaces := []; segments := []; memberships := []; public_access := [] |}.

Definition with_ID (id : Z) (s : Space) : Space :=
  {| Space_ID := id; Space_Version := Space_Version s;
     Space_ParentID := Space_ParentID s;
     Space_Identifier := Space_Identifier s;
     Space_Description := Space_Description s; Space_Path := Space_Path s;
     Space_CreatedBy := Space_CreatedBy s; Space_Created := Space_Created s;
     Space_Updated := Space_Updated s |}.

Definition store_space (s : Space) (d : Tables) : error + Space * Tables :=
  let s' := with_ID (Z.of_nat (length (spaces d)) + 1) s in
  inr (s', {| spaces := spaces d ++ [s']; segments := segments d;
              memberships := memberships d; public_access := public_access d |}).

Definition store_segment (g : SpacePathSegment) (d : Tables) : error + unit * Tables :=
  inr (tt, {| spaces := spaces d; segments := segments d ++ [g];
              memberships := memberships d; public_access := public_access d |}).

Definition store_membership (m : Membership) (d : Tables) : error + unit * Tables :=
  inr (tt, {| spaces := spaces d; segments := segments d;
              memberships := memberships d ++ [m];
              public_access := public_access d |}).

(** The public-access service of the demonstration works or is down. *)
Definition store_public_access (up : bool)
    (_ : PublicResourceType) (path : string) (isPublic : bool) (d : Tables)
  : error + unit * Tables :=
  if up then
    inr (tt, {| spaces := spaces d; segments := segments d;
                memberships := memberships d;
                public_access := public_access d ++ [(path, isPublic)] |})
  else inl (Failure "public access service is down").

Definition find_space_by_ref (ref : string) (d : Tables) : error + Space :=
  match List.find (fun s => String.eqb (Space_Path s) ref) (spaces d) with
  | Some s => inr s
  | None => inl (Failure "space not found")
  end.

Definition find_primary_path (id : Z) (d : Tables) : error + SpacePath :=
  match List.find (fun s => Space_ID s =? id) (spaces d) with
  | Some s => inr {| SpacePath_Value := Space_Path s |}
  | None => inl (Failure "path not found")
  end.

Definition controller (nested public up : bool) : Controller Tables :=
  {| nestedSpacesEnabled := nested;
     publicResourceCreationEnabled := public;
     identifierCheck := fun _ _ => None;
     spaceStore_FindByRef := find_space_by_ref;
     spaceStore_Create := store_space;
     spacePathStore_FindPrimaryBySpaceID := find_primary_path;
     spacePathStore_InsertSegment := store_segment;
     membershipStore_Create := store_membership;
     publicAccess_Set := store_public_access up;
     authorizer_CheckSpaceScope := fun _ _ _ _ _ => inr tt |}.

(** The two error variables of the package that are declared outside of
    src/, with values for the runs below; any value other than
    [errParentIDNegative] gives the same runs. *)
Definition errNestedSpacesNotSupported : error :=
  BadRequest "Nested spaces are not supported.".
Definition errPublicSpaceCreationDisabled : error :=
  BadRequest "Public space creation is disabled.".

Definition run (nested public up : bool)
    (session : option Session) (in0 : CreateInput) (w : World Tables)
  : outcome Space * World Tables :=
  Create Tables Space
    errNestedSpacesNotSupported errPublicSpaceCreationDisabled
    (fun _ => None) (fun _ _ => None)
    (fun parent identifier => (parent ++ "/" ++ identifier)%string)
    (fun s => s) 1700000000000 1
    (fun space _ => inr space)
    (controller nested public up) session in0 w.

Definition admin : Session := {| Session_Principal := {| Principal_ID := 7 |} |}.

Definition idle : World Tables :=
  {| committed := no_tables; pending := None; trace := [] |}.

Definition root_input : CreateInput :=
  {| ParentRef := ""; UID := ""; Identifier := "acme";
     Description := "tools"; IsPublic := false |}.

Definition negative_input : CreateInput :=
  {| ParentRef := "-1"; UID := ""; Identifier := "acme";
     Description := "tools"; IsPublic := false |}.

(** A root space: four writes in one transaction, all committed. *)
Example root_space_trace :
  trace (snd (run false false true (Some admin) root_input idle)) =
  [ TxBegin;
    Call OpSpaceCreate CtxTx; Call OpInsertSegment CtxTx;
    Call OpMembershipCreate CtxTx; Call OpPublicAccessSet CtxTx;
    TxCommit;
    Call OpGetSpaceOutput CtxBase ].
Proof. reflexivity. Qed.

Example root_space_committed :
  let d := committed (snd (run false false true (Some admin) root_input idle)) in
  length (spaces d) = 1%nat /\ length (segments d) = 1%nat /\
  length (memberships d) = 1%nat /\ public_access d = [("acme", false)].
Proof. repeat split. Qed.

(** The last write fails: the three writes before it are dropped. *)
Example root_space_rolled_back :
  run false false false (Some admin) root_input idle =
  (Err (Errorf "failed to set a space public: %w" []
          (Failure "public access service is down")),
   {| committed := no_tables; pending := None;
      trace := [ TxBegin;
                 Call OpSpaceCreate CtxTx; Call OpInsertSegment CtxTx;
                 Call OpMembershipCreate CtxTx; Call OpPublicAccessSet CtxTx;
                 TxRollback ] |}).
Proof. reflexivity. Qed.

(** An error after the commit: [GetSpaceOutput] runs outside of the
    transaction, so when it fails [Create] returns its error although the
    four records are committed. *)
Example root_space_output_fails_after_commit :
  let '(r, w) :=
    Create Tables Space
      errNestedSpacesNotSupported errPublicSpaceCreationDisabled
      (fun _ => None) (fun _ _ => None)
      (fun parent identifier => (parent ++ "/" ++ identifier)%string)
      (fun s => s) 1700000000000 1
      (fun _ _ => inl (Failure "public access service is down"))
      (controller false false true) (Some admin) root_input idle in
  r = Err (Failure "public access service is down") /\
  length (spaces (committed w)) = 1%nat /\
  trace w =
    [ TxBegin;
      Call OpSpaceCreate CtxTx; Call OpInsertSegment CtxTx;
      Call OpMembershipCreate CtxTx; Call OpPublicAccessSet CtxTx;
      TxCommit;
      Call OpGetSpaceOutput CtxBase ].
Proof. repeat split. Qed.

(** C10 as stated fails: with nested spaces disabled, the parent reference
    "-1" parses as the negative integer -1 and [Create] fails in input
    sanitization, yet the error is [errNestedSpacesNotSupported] and the
    BadRequest error "Parent ID has to be ..." is nowhere in its chain. *)
Lemma Create_negative_parent_other_error :
  Strconv.ParseInt (ParentRef negative_input) = (-1, None) /\
  run false false true (Some admin) negative_input idle =
    (Err (Errorf "failed to sanitize input: %w" [] errNestedSpacesNotSupported),
     idle) /\
  errors_Is
    (Errorf "failed to sanitize input: %w" [] errNestedSpacesNotSupported)
    errParentIDNegative = false.
Proof. repeat split. Qed.

(** With nested spaces enabled the same input is refused with
    [errParentIDNegative], and nothing is written. *)
Lemma Create_negative_parent_witness :
  run true false true (Some admin) negative_input idle =
    (Err (Errorf "failed to sanitize input: %w" [] errParentIDNegative), idle).
Proof.
  pose proof (Create_negative_parent_fails_in_sanitization Tables Space
    errNestedSpacesNotSupported errPublicSpaceCreationDisabled
    (fun _ => None) (fun _ _ => None)
    (fun parent identifier => (parent ++ "/" ++ identifier)%string)
    (fun s => s) 1700000000000 1
    (fun space _ => inr space)
    (controller true false true) (Some admin) negative_input idle (-1)
    eq_refl eq_refl) as [Hrun _].
  exact Hrun.
Defined.

(** The run of the root space reaches the stores, so its input has passed
    the sanitization. *)
Lemma Create_calls_after_sanitization_witness :
  snd (run false false true (Some admin) root_input idle) <> idle /\
  (ParentRef root_input = "" \/
   nestedSpacesEnabled Tables (controller false false true) = true).
Proof.
  assert (Hchanged : snd (run false false true (Some admin) root_input idle) <> idle).
  { intros H. apply (f_equal trace) in H. vm_compute in H. discriminate. }
  split; [exact Hchanged|].
  exact (proj1 (Create_calls_after_sanitization Tables Space
    errNestedSpacesNotSupported errPublicSpaceCreationDisabled
    (fun _ => None) (fun _ _ => None)
    (fun parent identifier => (parent ++ "/" ++ identifier)%string)
    (fun s => s) 1700000000000 1
    (fun space _ => inr space)
    (controller false false true) (Some admin) root_input idle Hchanged)).
Defined.

(** The empty parent reference of the root space is a root for both tests. *)
Lemma root_tests_agree_witness :
  getSpaceCheckAuthSpaceCreation Tables (fun s => s)
    (controller false false true) CtxBase (Some admin) "" idle
  = (Ok zero_Space, idle).
Proof.
  destruct (root_tests_agree Tables
    errNestedSpacesNotSupported errPublicSpaceCreationDisabled
    (fun _ => None) (fun s => s) (controller false false true)
    root_input root_input eq_refl) as (_ & Hroot & _).
  exact (Hroot eq_refl CtxBase admin idle).
Defined.

(** The records of the root space of the runs above. *)
Definition acme : Space :=
  {| Space_ID := 1; Space_Version := 0; Space_ParentID := 0;
     Space_Identifier := "acme"; Space_Description := "tools";
     Space_Path := "acme"; Space_CreatedBy := 7;
     Space_Created := 1700000000000; Space_Updated := 1700000000000 |}.

Definition acme_tables : Tables :=
  {| spaces := [acme];
     segments :=
       [ {| Segment_Identifier := "acme"; Segment_IsPrimary := true;
            Segment_SpaceID := 1; Segment_ParentID := 0;
            Segment_CreatedBy := 7;
            Segment_Created := 1700000000000;
            Segment_Updated := 1700000000000 |} ];
     memberships :=
       [ {| Membership_SpaceID := 1; Membership_PrincipalID := 7;
            Membership_Role := MembershipRoleSpaceOwner;
            Membership_CreatedBy := 1;
            Membership_Created := 1700000000000;
            Membership_Updated := 1700000000000 |} ];
     public_access := [("acme", false)] |}.

(** The transaction of the root space: with all stores working the four
    records are committed and are the only writes, and with the
    public-access service down its error comes back and the database is as
    it was. *)
Lemma Create_writes_in_single_transaction_witness :
  (committed (snd (run false false true (Some admin) root_input idle))
     = acme_tables /\
   fst (run false false true (Some admin) root_input idle) = Ok acme /\
   writes_of (trace (snd (run false false true (Some admin) root_input idle)))
     = [OpSpaceCreate; OpInsertSegment; OpMembershipCreate; OpPublicAccessSet]) /\
  (fst (run false false false (Some admin) root_input idle)
     = Err (Errorf "failed to set a space public: %w" []
              (Failure "public access service is down")) /\
   committed (snd (run false false false (Some admin) root_input idle))
     = no_tables).
Proof.
  split.
  - pose proof (proj2 (Create_writes_in_single_transaction Tables Space
      errNestedSpacesNotSupported errPublicSpaceCreationDisabled
      (fun _ => None) (fun _ _ => None)
      (fun parent identifier => (parent ++ "/" ++ identifier)%string)
      (fun s => s) 1700000000000 1
      (fun space _ => inr space)
      (controller false false true))
      admin root_input root_input idle idle zero_Space eq_refl eq_refl) as H.
    change (committed_with Tables Space (fun space _ => inr space) idle
              (run false false true (Some admin) root_input idle)
              0 acme acme_tables) in H.
    destruct H as (Hcommitted & _ & Hout & Hwrites).
    split; [exact Hcommitted|]. split; [exact Hout|exact Hwrites].
  - pose proof (proj2 (Create_writes_in_single_transaction Tables Space
      errNestedSpacesNotSupported errPublicSpaceCreationDisabled
      (fun _ => None) (fun _ _ => None)
      (fun parent identifier => (parent ++ "/" ++ identifier)%string)
      (fun s => s) 1700000000000 1
      (fun space _ => inr space)
      (controller false false false))
      admin root_input root_input idle idle zero_Space eq_refl eq_refl) as H.
    change (rolled_back Tables Space idle
              (run false false false (Some admin) root_input idle)
              (Errorf "failed to set a space public: %w" []
                 (Failure "public access service is down"))) in H.
    destruct H as (Herr & Hcommitted & _).
    split; [exact Herr|exact Hcommitted].
Defined.

End SpaceDemo.

(* ===================================================================== *)
(** ** cmd/gitness/wire_gen.go *)
(* ===================================================================== *)

Module Wire.

Local Open Scope list_scope.

(** [initSystem] is straight-line code: every statement binds a new
    variable to the result of one provider applied to variables bound
    before it (or to the parameters [ctx] and [config]), and returns at
    once when the provider reports an error.  A statement
    [x := p(a1, ..., an)] is [bound x p total [a1; ...; an]], and
    [x, err := p(...)] followed by the error check is [bound x p fallible ...]. *)
Inductive Fallibility : Type :=
| total
| fallible.

Record Binding : Type := bound {
  var : string;
  provider : string;
  may_fail : Fallibility;
  args : list string
}.

(** The imports of the file that are given a name of their own; any other
    package is named by the last element of its path. *)
Definition renamed_imports : list (string * string) :=
  [ ("check2", "github.com/harness/gitness/app/api/controller/check");
    ("connector2", "github.com/harness/gitness/app/api/controller/connector");
    ("gitspace2", "github.com/harness/gitness/app/api/controller/gitspace");
    ("infraprovider3", "github.com/harness/gitness/app/api/controller/infraprovider");
    ("keywordsearch2", "github.com/harness/gitness/app/api/controller/keywordsearch");
    ("logs2", "github.com/harness/gitness/app/api/controller/logs");
    ("migrate2", "github.com/harness/gitness/app/api/controller/migrate");
    ("pullreq2", "github.com/harness/gitness/app/api/controller/pullreq");
    ("secret2", "github.com/harness/gitness/app/api/controller/secret");
    ("usergroup2", "github.com/harness/gitness/app/api/controller/usergroup");
    ("webhook2", "github.com/harness/gitness/app/api/controller/webhook");
    ("events9", "github.com/harness/gitness/app/events/git");
    ("events3", "github.com/harness/gitness/app/events/gitspace");
    ("events6", "github.com/harness/gitness/app/events/gitspacedelete");
    ("events4", "github.com/harness/gitness/app/events/gitspaceinfra");
    ("events5", "github.com/harness/gitness/app/events/gitspaceoperations");
    ("events7", "github.com/harness/gitness/app/events/pipeline");
    ("events8", "github.com/harness/gitness/app/events/pullreq");
    ("events2", "github.com/harness/gitness/app/events/repo");
    ("router2", "github.com/harness/gitness/app/router");
    ("server2", "github.com/harness/gitness/app/server");
    ("infraprovider2", "github.com/harness/gitness/app/services/infraprovider");
    ("repo2", "github.com/harness/gitness/app/services/repo");
    ("secret3", "github.com/harness/gitness/app/services/secret");
    ("trigger2", "github.com/harness/gitness/app/services/trigger");
    ("api2", "github.com/harness/gitness/registry/app/api");
    ("events10", "github.com/harness/gitness/registry/app/events");
    ("database2", "github.com/harness/gitness/registry/app/store/database");
    ("webhook3", "github.com/harness/gitness/registry/services/webhook") ].

(** The statements of [initSystem], in order. *)
Definition initSystem : list Binding :=
  [ bound "databaseConfig" "server.ProvideDatabaseConfig" total ["config"];
    bound "db" "database.ProvideDatabase" fallible ["ctx"; "databaseConfig"];
    bound "accessorTx" "dbtx.ProvideAccessorTx" total ["db"];
    bound "transactor" "dbtx.ProvideTransactor" total ["accessorTx"];
    bound "principalUID" "check.ProvidePrincipalUIDCheck" total [];
    bound "spacePathTransformation" "store.ProvidePathTransformation" total [];
    bound "spacePathStore" "database.ProvideSpacePathStore" total
      ["db"; "spacePathTransformation"];
    bound "pubsubConfig" "server.ProvidePubsubConfig" total ["config"];
    bound "universalClient" "server.ProvideRedis" fallible ["config"];
    bound "pubSub" "pubsub.ProvidePubSub" total ["pubsubConfig"; "universalClient"];
    bound "evictor" "cache.ProvideEvictorSpaceCore" total ["pubSub"];
    bound "spacePathCache" "cache.ProvideSpacePathCache" total
      ["ctx"; "spacePathStore"; "evictor"; "spacePathTransformation"];
    bound "spaceStore" "database.ProvideSpaceStore" total
      ["db"; "spacePathCache"; "spacePathStore"];
    bound "spaceIDCache" "cache.ProvideSpaceIDCache" total ["ctx"; "spaceStore"; "evictor"];
    bound "spaceFinder" "refcache.ProvideSpaceFinder" total
      ["spaceIDCache"; "spacePathCache"; "evictor"];
    bound "principalInfoView" "database.ProvidePrincipalInfoView" total ["db"];
    bound "principalInfoCache" "cache.ProvidePrincipalInfoCache" total ["principalInfoView"];
    bound "membershipStore" "database.ProvideMembershipStore" total
      ["db"; "principalInfoCache"; "spacePathStore"; "spaceStore"];
    bound "permissionCache" "authz.ProvidePermissionCache" total
      ["spaceFinder"; "membershipStore"];
    bound "publicAccessStore" "database.ProvidePublicAccessStore" total ["db"];
    bound "repoStore" "database.ProvideRepoStore" total
      ["db"; "spacePathCache"; "spacePathStore"; "spaceStore"];
    bound "cacheEvictor" "cache.ProvideEvictorRepositoryCore" total ["pubSub"];
    bound "repoIDCache" "cache.ProvideRepoIDCache" total
      ["ctx"; "repoStore"; "evictor"; "cacheEvictor"];
    bound "repoRefCache" "cache.ProvideRepoRefCache" total
      ["ctx"; "repoStore"; "evictor"; "cacheEvictor"];
    bound "repoFinder" "refcache.ProvideRepoFinder" total
      ["repoStore"; "spacePathCache"; "repoIDCache"; "repoRefCache";
       "cacheEvictor"];
    bound "publicaccessService" "publicaccess.ProvidePublicAccess" total
      ["config"; "publicAccessStore"; "spaceFinder"; "repoFinder"];
    bound "authorizer" "authz.ProvideAuthorizer" total
      ["permissionCache"; "spaceFinder"; "publicaccessService"];
    bound "principalUIDTransformation" "store.ProvidePrincipalUIDTransformation" total [];
    bound "principalStore" "database.ProvidePrincipalStore" total
      ["db"; "principalUIDTransformation"];
    bound "tokenStore" "database.ProvideTokenStore" total ["db"];
    bound "publicKeyStore" "database.ProvidePublicKeyStore" total ["db"];
    bound "controller" "user.ProvideController" total
      ["transactor"; "principalUID"; "authorizer"; "principalStore"; "tokenStore";
       "membershipStore"; "publicKeyStore"];
    bound "serviceController" "service.NewController" total
      ["principalUID"; "authorizer"; "principalStore"];
    bound "bootstrapBootstrap" "bootstrap.ProvideBootstrap" total
      ["config"; "controller"; "serviceController"];
    bound "authenticator" "authn.ProvideAuthenticator" total
      ["config"; "principalStore"; "tokenStore"];
    bound "provider" "url.ProvideURLProvider" fallible ["config"];
    bound "pipelineStore" "database.ProvidePipelineStore" total ["db"];
    bound "executionStore" "database.ProvideExecutionStore" total ["db"];
    bound "ruleStore" "database.ProvideRuleStore" total ["db"; "principalInfoCache"];
    bound "checkStore" "database.ProvideCheckStore" total ["db"; "principalInfoCache"];
    bound "pullReqStore" "database.ProvidePullReqStore" total ["db"; "principalInfoCache"];
    bound "settingsStore" "database.ProvideSettingsStore" total ["db"];
    bound "settingsService" "settings.ProvideService" total ["settingsStore"];
    bound "protectionManager" "protection.ProvideManager" fallible ["ruleStore"];
    bound "typesConfig" "server.ProvideGitConfig" total ["config"];
    bound "cacheCache" "api.ProvideLastCommitCache" fallible
      ["typesConfig"; "universalClient"];
    bound "clientFactory" "githook.ProvideFactory" total [];
    bound "apiGit" "git.ProvideGITAdapter" fallible
      ["typesConfig"; "cacheCache"; "clientFactory"];
    bound "storageStore" "storage.ProvideLocalStore" total [];
    bound "gitInterface" "git.ProvideService" fallible
      ["typesConfig"; "apiGit"; "clientFactory"; "storageStore"];
    bound "triggerStore" "database.ProvideTriggerStore" total ["db"];
    bound "encrypter" "encrypt.ProvideEncrypter" fallible ["config"];
    bound "jobStore" "database.ProvideJobStore" total ["db"];
    bound "executor" "job.ProvideExecutor" total ["jobStore"; "pubSub"];
    bound "lockConfig" "server.ProvideLockConfig" total ["config"];
    bound "mutexManager" "lock.ProvideMutexManager" total ["lockConfig"; "universalClient"];
    bound "jobConfig" "server.ProvideJobsConfig" total ["config"];
    bound "jobScheduler" "job.ProvideScheduler" fallible
      ["jobStore"; "executor"; "mutexManager"; "pubSub"; "jobConfig"];
    bound "streamer" "sse.ProvideEventsStreaming" total ["pubSub"];
    bound "localIndexSearcher" "keywordsearch.ProvideLocalIndexSearcher" total [];
    bound "indexer" "keywordsearch.ProvideIndexer" total ["localIndexSearcher"];
    bound "eventsConfig" "server.ProvideEventsConfig" total ["config"];
    bound "eventsSystem" "events.ProvideSystem" fallible ["eventsConfig"; "universalClient"];
    bound "reporter" "events2.ProvideReporter" fallible ["eventsSystem"];
    bound "auditService" "audit.ProvideAuditService" total [];
    bound "repository" "importer.ProvideRepoImporter" fallible
      ["config"; "provider"; "gitInterface"; "transactor"; "repoStore";
       "pipelineStore"; "triggerStore"; "repoFinder"; "encrypter"; "jobScheduler";
       "executor"; "streamer"; "indexer"; "publicaccessService"; "reporter";
       "auditService"];
    bound "codeownersConfig" "server.ProvideCodeOwnerConfig" total ["config"];
    bound "usergroupResolver" "usergroup.ProvideUserGroupResolver" total [];
    bound "codeownersService" "codeowners.ProvideCodeOwners" total
      ["gitInterface"; "repoStore"; "codeownersConfig"; "principalStore";
       "usergroupResolver"];
    bound "resourceLimiter" "limiter.ProvideLimiter" fallible [];
    bound "lockerLocker" "locker.ProvideLocker" total ["mutexManager"];
    bound "repoIdentifier" "check.ProvideRepoIdentifierCheck" total [];
    bound "repoCheck" "repo.ProvideRepoCheck" total [];
    bound "labelStore" "database.ProvideLabelStore" total ["db"];
    bound "labelValueStore" "database.ProvideLabelValueStore" total ["db"];
    bound "pullReqLabelAssignmentStore" "database.ProvidePullReqLabelStore" total ["db"];
    bound "labelService" "label.ProvideLabel" total
      ["transactor"; "spaceStore"; "labelStore"; "labelValueStore";
       "pullReqLabelAssignmentStore"; "spaceFinder"];
    bound "instrumentService" "instrument.ProvideService" total [];
    bound "userGroupStore" "database.ProvideUserGroupStore" total ["db"];
    bound "searchService" "usergroup.ProvideSearchService" total [];
    bound "rulesService" "rules.ProvideService" total
      ["transactor"; "ruleStore"; "repoStore"; "spaceStore"; "protectionManager";
       "auditService"; "instrumentService"; "principalInfoCache";
       "userGroupStore"; "searchService"; "streamer"];
    bound "repoController" "repo.ProvideController" total
      ["config"; "transactor"; "provider"; "authorizer"; "repoStore";
       "spaceStore"; "pipelineStore"; "principalStore"; "executionStore";
       "ruleStore"; "checkStore"; "pullReqStore"; "settingsService";
       "principalInfoCache"; "protectionManager"; "gitInterface"; "spaceFinder";
       "repoFinder"; "repository"; "codeownersService"; "reporter"; "indexer";
       "resourceLimiter"; "lockerLocker"; "auditService"; "mutexManager";
       "repoIdentifier"; "repoCheck"; "publicaccessService"; "labelService";
       "instrumentService"; "userGroupStore"; "searchService"; "rulesService";
       "streamer"];
    bound "reposettingsController" "reposettings.ProvideController" total
      ["authorizer"; "repoFinder"; "settingsService"; "auditService"];
    bound "stageStore" "database.ProvideStageStore" total ["db"];
    bound "schedulerScheduler" "scheduler.ProvideScheduler" fallible
      ["stageStore"; "mutexManager"];
    bound "stepStore" "database.ProvideStepStore" total ["db"];
    bound "cancelerCanceler" "canceler.ProvideCanceler" total
      ["executionStore"; "streamer"; "repoStore"; "schedulerScheduler";
       "stageStore"; "stepStore"];
    bound "commitService" "commit.ProvideService" total ["gitInterface"];
    bound "fileService" "file.ProvideService" total ["gitInterface"];
    bound "converterService" "converter.ProvideService" total
      ["fileService"; "publicaccessService"];
    bound "templateStore" "database.ProvideTemplateStore" total ["db"];
    bound "pluginStore" "database.ProvidePluginStore" total ["db"];
    bound "triggererTriggerer" "triggerer.ProvideTriggerer" total
      ["executionStore"; "checkStore"; "stageStore"; "transactor";
       "pipelineStore"; "fileService"; "converterService"; "schedulerScheduler";
       "repoStore"; "provider"; "templateStore"; "pluginStore";
       "publicaccessService"];
    bound "executionController" "execution.ProvideController" total
      ["transactor"; "authorizer"; "executionStore"; "checkStore";
       "cancelerCanceler"; "commitService"; "triggererTriggerer"; "stageStore";
       "pipelineStore"; "repoFinder"];
    bound "logStore" "logs.ProvideLogStore" total ["db"; "config"];
    bound "logStream" "livelog.ProvideLogStream" total [];
    bound "logsController" "logs2.ProvideController" total
      ["authorizer"; "executionStore"; "pipelineStore"; "stageStore"; "stepStore";
       "logStore"; "logStream"; "repoFinder"];
    bound "spaceIdentifier" "check.ProvideSpaceIdentifierCheck" total [];
    bound "secretStore" "database.ProvideSecretStore" total ["db"];
    bound "connectorStore" "database.ProvideConnectorStore" total ["db"; "secretStore"];
    bound "listService" "pullreq.ProvideListService" total
      ["transactor"; "gitInterface"; "authorizer"; "spaceStore"; "pullReqStore";
       "checkStore"; "repoFinder"; "labelService"; "protectionManager"];
    bound "exporterRepository" "exporter.ProvideSpaceExporter" fallible
      ["provider"; "gitInterface"; "repoStore"; "jobScheduler"; "executor";
       "encrypter"; "streamer"];
    bound "infraProviderResourceView" "database.ProvideInfraProviderResourceView" total
      ["db"; "spaceStore"];
    bound "infraProviderResourceCache" "cache.ProvideInfraProviderResourceCache" total
      ["infraProviderResourceView"];
    bound "gitspaceConfigStore" "database.ProvideGitspaceConfigStore" total
      ["db"; "principalInfoCache"; "infraProviderResourceCache"];
    bound "gitspaceInstanceStore" "database.ProvideGitspaceInstanceStore" total ["db"];
    bound "eventsReporter" "events3.ProvideReporter" fallible ["eventsSystem"];
    bound "gitspaceEventStore" "database.ProvideGitspaceEventStore" total ["db"];
    bound "infraProviderResourceStore" "database.ProvideInfraProviderResourceStore" total
      ["db"];
    bound "infraProviderConfigStore" "database.ProvideInfraProviderConfigStore" total ["db"];
    bound "infraProviderTemplateStore" "database.ProvideInfraProviderTemplateStore" total
      ["db"];
    bound "dockerConfig" "server.ProvideDockerConfig" fallible ["config"];
    bound "dockerClientFactory" "infraprovider.ProvideDockerClientFactory" total
      ["dockerConfig"];
    bound "reporter2" "events4.ProvideReporter" fallible ["eventsSystem"];
    bound "dockerProvider" "infraprovider.ProvideDockerProvider" total
      ["dockerConfig"; "dockerClientFactory"; "reporter2"];
    bound "factory" "infraprovider.ProvideFactory" total ["dockerProvider"];
    bound "infraproviderService" "infraprovider2.ProvideInfraProvider" total
      ["transactor"; "gitspaceConfigStore"; "infraProviderResourceStore";
       "infraProviderConfigStore"; "infraProviderTemplateStore"; "factory";
       "spaceFinder"];
    bound "gitnessSCM" "scm.ProvideGitnessSCM" total
      ["repoStore"; "repoFinder"; "gitInterface"; "tokenStore"; "principalStore";
       "provider"];
    bound "genericSCM" "scm.ProvideGenericSCM" total [];
    bound "scmFactory" "scm.ProvideFactory" total ["gitnessSCM"; "genericSCM"];
    bound "scmSCM" "scm.ProvideSCM" total ["scmFactory"];
    bound "platformConnector" "platformconnector.ProvideGitnessPlatformConnector" total [];
    bound "infraProvisionedStore" "database.ProvideInfraProvisionedStore" total ["db"];
    bound "infrastructureConfig" "server.ProvideGitspaceInfraProvisionerConfig" total
      ["config"];
    bound "infraProvisioner" "infrastructure.ProvideInfraProvisionerService" total
      ["infraProviderConfigStore"; "infraProviderResourceStore"; "factory";
       "infraProviderTemplateStore"; "infraProvisionedStore";
       "infrastructureConfig"];
    bound "statefulLogger" "logutil.ProvideStatefulLogger" total ["logStream"];
    bound "runargResolver" "runarg.ProvideResolver" fallible [];
    bound "runargProvider" "runarg.ProvideStaticProvider" fallible ["runargResolver"];
    bound "reporter3" "events5.ProvideReporter" fallible ["eventsSystem"];
    bound "embeddedDockerOrchestrator" "container.ProvideEmbeddedDockerOrchestrator" total
      ["dockerClientFactory"; "statefulLogger"; "runargProvider"; "reporter3"];
    bound "containerFactory" "container.ProvideContainerOrchestratorFactory" total
      ["embeddedDockerOrchestrator"];
    bound "orchestratorConfig" "server.ProvideGitspaceOrchestratorConfig" total ["config"];
    bound "vsCodeConfig" "server.ProvideIDEVSCodeConfig" total ["config"];
    bound "vsCode" "ide.ProvideVSCodeService" total ["vsCodeConfig"];
    bound "vsCodeWebConfig" "server.ProvideIDEVSCodeWebConfig" total ["config"];
    bound "vsCodeWeb" "ide.ProvideVSCodeWebService" total ["vsCodeWebConfig"];
    bound "jetBrainsIDEConfig" "server.ProvideIDEJetBrainsConfig" total ["config"];
    bound "v" "ide.ProvideJetBrainsIDEsService" total ["jetBrainsIDEConfig"];
    bound "ideFactory" "ide.ProvideIDEFactory" total ["vsCode"; "vsCodeWeb"; "v"];
    bound "passwordResolver" "secret.ProvidePasswordResolver" total [];
    bound "resolverFactory" "secret.ProvideResolverFactory" total ["passwordResolver"];
    bound "orchestratorOrchestrator" "orchestrator.ProvideOrchestrator" total
      ["scmSCM"; "platformConnector"; "infraProvisioner"; "containerFactory";
       "eventsReporter"; "orchestratorConfig"; "ideFactory"; "resolverFactory";
       "gitspaceInstanceStore"];
    bound "reporter4" "events6.ProvideReporter" fallible ["eventsSystem"];
    bound "gitspaceService" "gitspace.ProvideGitspace" total
      ["transactor"; "gitspaceConfigStore"; "gitspaceInstanceStore";
       "eventsReporter"; "gitspaceEventStore"; "spaceFinder";
       "infraproviderService"; "orchestratorOrchestrator"; "scmSCM"; "config";
       "reporter4"];
    bound "usageMetricStore" "database.ProvideUsageMetricStore" total ["db"];
    bound "spaceController" "space.ProvideController" total
      ["config"; "transactor"; "provider"; "streamer"; "spaceIdentifier";
       "authorizer"; "spacePathStore"; "pipelineStore"; "secretStore";
       "connectorStore"; "templateStore"; "spaceStore"; "repoStore";
       "principalStore"; "repoController"; "membershipStore"; "listService";
       "spaceFinder"; "repository"; "exporterRepository"; "resourceLimiter";
       "publicaccessService"; "auditService"; "gitspaceService"; "labelService";
       "instrumentService"; "executionStore"; "rulesService"; "usageMetricStore";
       "repoIdentifier"; "infraproviderService"];
    bound "reporter5" "events7.ProvideReporter" fallible ["eventsSystem"];
    bound "pipelineController" "pipeline.ProvideController" total
      ["triggerStore"; "authorizer"; "pipelineStore"; "reporter5"; "repoFinder"];
    bound "secretController" "secret2.ProvideController" total
      ["encrypter"; "secretStore"; "authorizer"; "spaceFinder"];
    bound "triggerController" "trigger.ProvideController" total
      ["authorizer"; "triggerStore"; "pipelineStore"; "repoFinder"];
    bound "scmService" "connector.ProvideSCMConnectorHandler" total ["secretStore"];
    bound "connectorService" "connector.ProvideConnectorHandler" total
      ["secretStore"; "scmService"];
    bound "connectorController" "connector2.ProvideController" total
      ["connectorStore"; "connectorService"; "authorizer"; "spaceFinder"];
    bound "templateController" "template.ProvideController" total
      ["templateStore"; "authorizer"; "spaceFinder"];
    bound "pluginController" "plugin.ProvideController" total ["pluginStore"];
    bound "pullReqActivityStore" "database.ProvidePullReqActivityStore" total
      ["db"; "principalInfoCache"];
    bound "codeCommentView" "database.ProvideCodeCommentView" total ["db"];
    bound "pullReqReviewStore" "database.ProvidePullReqReviewStore" total ["db"];
    bound "pullReqReviewerStore" "database.ProvidePullReqReviewerStore" total
      ["db"; "principalInfoCache"];
    bound "userGroupReviewersStore" "database.ProvideUserGroupReviewerStore" total
      ["db"; "principalInfoCache"; "userGroupStore"];
    bound "pullReqFileViewStore" "database.ProvidePullReqFileViewStore" total ["db"];
    bound "reporter6" "events8.ProvideReporter" fallible ["eventsSystem"];
    bound "migrator" "codecomments.ProvideMigrator" total ["gitInterface"];
    bound "readerFactory" "events9.ProvideReaderFactory" fallible ["eventsSystem"];
    bound "eventsReaderFactory" "events8.ProvideReaderFactory" fallible ["eventsSystem"];
    bound "pullreqService" "pullreq.ProvideService" fallible
      ["ctx"; "config"; "readerFactory"; "eventsReaderFactory"; "reporter6";
       "gitInterface"; "repoFinder"; "repoStore"; "pullReqStore";
       "pullReqActivityStore"; "principalInfoCache"; "codeCommentView";
       "migrator"; "pullReqFileViewStore"; "pubSub"; "provider"; "streamer"];
    bound "pullReq" "migrate.ProvidePullReqImporter" total
      ["provider"; "gitInterface"; "principalStore"; "spaceStore"; "repoStore";
       "pullReqStore"; "pullReqActivityStore"; "labelStore"; "labelValueStore";
       "pullReqLabelAssignmentStore"; "repoFinder"; "transactor"; "mutexManager"];
    bound "pullreqController" "pullreq2.ProvideController" total
      ["transactor"; "provider"; "authorizer"; "auditService"; "pullReqStore";
       "pullReqActivityStore"; "codeCommentView"; "pullReqReviewStore";
       "pullReqReviewerStore"; "repoStore"; "principalStore"; "userGroupStore";
       "userGroupReviewersStore"; "principalInfoCache"; "pullReqFileViewStore";
       "membershipStore"; "checkStore"; "gitInterface"; "repoFinder"; "reporter6";
       "migrator"; "pullreqService"; "listService"; "protectionManager";
       "streamer"; "codeownersService"; "lockerLocker"; "pullReq"; "labelService";
       "instrumentService"; "searchService"];
    bound "webhookConfig" "server.ProvideWebhookConfig" total ["config"];
    bound "webhookStore" "database.ProvideWebhookStore" total ["db"];
    bound "webhookExecutionStore" "database.ProvideWebhookExecutionStore" total ["db"];
    bound "urlProvider" "webhook.ProvideURLProvider" total ["ctx"];
    bound "secretService" "secret3.ProvideSecretService" total
      ["secretStore"; "encrypter"; "spaceFinder"];
    bound "webhookService" "webhook.ProvideService" fallible
      ["ctx"; "webhookConfig"; "transactor"; "readerFactory";
       "eventsReaderFactory"; "webhookStore"; "webhookExecutionStore";
       "spaceStore"; "repoStore"; "pullReqStore"; "pullReqActivityStore";
       "provider"; "principalStore"; "gitInterface"; "encrypter"; "labelStore";
       "urlProvider"; "labelValueStore"; "streamer"; "secretService";
       "spacePathStore"];
    bound "preprocessor" "webhook2.ProvidePreprocessor" total [];
    bound "webhookController" "webhook2.ProvideController" total
      ["authorizer"; "spaceFinder"; "repoFinder"; "webhookService"; "encrypter";
       "preprocessor"];
    bound "reporter7" "events9.ProvideReporter" fallible ["eventsSystem"];
    bound "preReceiveExtender" "githook.ProvidePreReceiveExtender" fallible [];
    bound "updateExtender" "githook.ProvideUpdateExtender" fallible [];
    bound "postReceiveExtender" "githook.ProvidePostReceiveExtender" fallible [];
    bound "lfsObjectStore" "database.ProvideLFSObjectStore" total ["db"];
    bound "githookController" "githook.ProvideController" total
      ["authorizer"; "principalStore"; "repoStore"; "repoFinder"; "reporter7";
       "reporter"; "gitInterface"; "pullReqStore"; "provider";
       "protectionManager"; "clientFactory"; "resourceLimiter"; "settingsService";
       "preReceiveExtender"; "updateExtender"; "postReceiveExtender"; "streamer";
       "lfsObjectStore"];
    bound "serviceaccountController" "serviceaccount.NewController" total
      ["principalUID"; "authorizer"; "principalStore"; "spaceStore"; "repoStore";
       "tokenStore"];
    bound "principalController" "principal.ProvideController" total
      ["principalStore"; "authorizer"];
    bound "usergroupController" "usergroup2.ProvideController" total
      ["userGroupStore"; "spaceStore"; "authorizer"; "searchService"];
    bound "v2" "check2.ProvideCheckSanitizers" total [];
    bound "checkController" "check2.ProvideController" total
      ["transactor"; "authorizer"; "spaceStore"; "checkStore"; "spaceFinder";
       "repoFinder"; "gitInterface"; "v2"; "streamer"];
    bound "systemController" "system.NewController" total ["principalStore"; "config"];
    bound "blobConfig" "server.ProvideBlobStoreConfig" fallible ["config"];
    bound "blobStore" "blob.ProvideStore" fallible ["ctx"; "blobConfig"];
    bound "uploadController" "upload.ProvideController" total
      ["authorizer"; "repoFinder"; "blobStore"];
    bound "searcher" "keywordsearch.ProvideSearcher" total ["localIndexSearcher"];
    bound "keywordsearchController" "keywordsearch2.ProvideController" total
      ["authorizer"; "searcher"; "repoController"; "spaceController"];
    bound "infraproviderController" "infraprovider3.ProvideController" total
      ["authorizer"; "spaceFinder"; "infraproviderService"];
    bound "limiterGitspace" "limiter.ProvideGitspaceLimiter" total [];
    bound "gitspaceController" "gitspace2.ProvideController" total
      ["transactor"; "authorizer"; "infraproviderService"; "spaceStore";
       "spaceFinder"; "gitspaceEventStore"; "statefulLogger"; "scmSCM";
       "gitspaceService"; "limiterGitspace"; "repoFinder"];
    bound "rule" "migrate.ProvideRuleImporter" total
      ["ruleStore"; "transactor"; "principalStore"];
    bound "migrateWebhook" "migrate.ProvideWebhookImporter" total
      ["webhookConfig"; "transactor"; "webhookStore"];
    bound "migrateLabel" "migrate.ProvideLabelImporter" total
      ["transactor"; "labelStore"; "labelValueStore"; "spaceStore"];
    bound "migrateController" "migrate2.ProvideController" total
      ["authorizer"; "publicaccessService"; "gitInterface"; "provider"; "pullReq";
       "rule"; "migrateWebhook"; "migrateLabel"; "resourceLimiter";
       "auditService"; "repoIdentifier"; "transactor"; "spaceStore"; "repoStore";
       "spaceFinder"; "repoFinder"; "reporter"];
    bound "openapiService" "openapi.ProvideOpenAPIService" total [];
    bound "storageDriver" "api2.BlobStorageProvider" fallible ["config"];
    bound "storageDeleter" "gc.StorageDeleterProvider" total ["storageDriver"];
    bound "mediaTypesRepository" "database2.ProvideMediaTypeDao" total ["db"];
    bound "blobRepository" "database2.ProvideBlobDao" total ["db"; "mediaTypesRepository"];
    bound "storageService" "docker.StorageServiceProvider" total ["config"; "storageDriver"];
    bound "gcService" "gc.ServiceProvider" total [];
    bound "app" "docker.NewApp" total
      ["ctx"; "storageDeleter"; "blobRepository"; "spaceStore"; "config";
       "storageService"; "gcService"];
    bound "registryRepository" "database2.ProvideRepoDao" total
      ["db"; "mediaTypesRepository"];
    bound "manifestRepository" "database2.ProvideManifestDao" total
      ["db"; "mediaTypesRepository"];
    bound "manifestReferenceRepository" "database2.ProvideManifestRefDao" total ["db"];
    bound "tagRepository" "database2.ProvideTagDao" total ["db"];
    bound "imageRepository" "database2.ProvideImageDao" total ["db"];
    bound "artifactRepository" "database2.ProvideArtifactDao" total ["db"];
    bound "layerRepository" "database2.ProvideLayerDao" total ["db"; "mediaTypesRepository"];
    bound "eventReporter" "docker.ProvideReporter" total [];
    bound "ociImageIndexMappingRepository" "database2.ProvideOCIImageIndexMappingDao" total
      ["db"];
    bound "reporter8" "events10.ProvideArtifactReporter" fallible ["eventsSystem"];
    bound "manifestService" "docker.ManifestServiceProvider" total
      ["registryRepository"; "manifestRepository"; "blobRepository";
       "mediaTypesRepository"; "manifestReferenceRepository"; "tagRepository";
       "imageRepository"; "artifactRepository"; "layerRepository"; "gcService";
       "transactor"; "eventReporter"; "spaceFinder";
       "ociImageIndexMappingRepository"; "reporter8"; "provider"];
    bound "registryBlobRepository" "database2.ProvideRegistryBlobDao" total ["db"];
    bound "bandwidthStatRepository" "database2.ProvideBandwidthStatDao" total ["db"];
    bound "downloadStatRepository" "database2.ProvideDownloadStatDao" total ["db"];
    bound "localRegistry" "docker.LocalRegistryProvider" total
      ["app"; "manifestService"; "blobRepository"; "registryRepository";
       "manifestRepository"; "registryBlobRepository"; "mediaTypesRepository";
       "tagRepository"; "imageRepository"; "artifactRepository";
       "bandwidthStatRepository"; "downloadStatRepository"; "gcService";
       "transactor"];
    bound "upstreamProxyConfigRepository" "database2.ProvideUpstreamDao" total
      ["db"; "registryRepository"; "spaceFinder"];
    bound "proxyController" "docker.ProvideProxyController" total
      ["localRegistry"; "manifestService"; "secretService"; "spaceFinder"];
    bound "remoteRegistry" "docker.RemoteRegistryProvider" total
      ["localRegistry"; "app"; "upstreamProxyConfigRepository"; "spaceFinder";
       "secretService"; "proxyController"];
    bound "coreController" "pkg.CoreControllerProvider" total ["registryRepository"];
    bound "dbStore" "docker.DBStoreProvider" total
      ["blobRepository"; "imageRepository"; "artifactRepository";
       "bandwidthStatRepository"; "downloadStatRepository"];
    bound "dockerController" "docker.ControllerProvider" total
      ["localRegistry"; "remoteRegistry"; "coreController"; "spaceStore";
       "authorizer"; "dbStore"];
    bound "handler" "api2.NewHandlerProvider" total
      ["dockerController"; "spaceFinder"; "spaceStore"; "tokenStore";
       "controller"; "authenticator"; "provider"; "authorizer"; "config"];
    bound "registryOCIHandler" "router.OCIHandlerProvider" total ["handler"];
    bound "filemanagerApp" "filemanager.NewApp" total ["ctx"; "config"; "storageService"];
    bound "genericBlobRepository" "database2.ProvideGenericBlobDao" total ["db"];
    bound "nodesRepository" "database2.ProvideNodeDao" total ["db"];
    bound "fileManager" "filemanager.Provider" total
      ["filemanagerApp"; "registryRepository"; "genericBlobRepository";
       "nodesRepository"; "transactor"];
    bound "cleanupPolicyRepository" "database2.ProvideCleanupPolicyDao" total
      ["db"; "transactor"];
    bound "webhooksRepository" "database2.ProvideWebhookDao" total ["db"];
    bound "webhooksExecutionRepository" "database2.ProvideWebhookExecutionDao" total ["db"];
    bound "readerFactory2" "events10.ProvideReaderFactory" fallible ["eventsSystem"];
    bound "service2" "webhook3.ProvideService" fallible
      ["ctx"; "webhookConfig"; "transactor"; "readerFactory2";
       "webhooksRepository"; "webhooksExecutionRepository"; "spaceStore";
       "provider"; "principalStore"; "urlProvider"; "spacePathStore";
       "secretService"; "registryRepository"; "encrypter"];
    bound "apiHandler" "router.APIHandlerProvider" total
      ["registryRepository"; "upstreamProxyConfigRepository"; "fileManager";
       "tagRepository"; "manifestRepository"; "cleanupPolicyRepository";
       "imageRepository"; "storageDriver"; "spaceFinder"; "transactor";
       "authenticator"; "provider"; "authorizer"; "auditService";
       "artifactRepository"; "webhooksRepository"; "webhooksExecutionRepository";
       "service2"; "spacePathStore"];
    bound "mavenDBStore" "maven.DBStoreProvider" total
      ["registryRepository"; "imageRepository"; "artifactRepository";
       "spaceStore"; "bandwidthStatRepository"; "downloadStatRepository";
       "nodesRepository"; "upstreamProxyConfigRepository"];
    bound "mavenLocalRegistry" "maven.LocalRegistryProvider" total
      ["mavenDBStore"; "transactor"; "fileManager"];
    bound "mavenController" "maven.ProvideProxyController" total
      ["mavenLocalRegistry"; "secretService"; "spaceFinder"];
    bound "mavenRemoteRegistry" "maven.RemoteRegistryProvider" total
      ["mavenDBStore"; "transactor"; "mavenLocalRegistry"; "mavenController"];
    bound "controller2" "maven.ControllerProvider" total
      ["mavenLocalRegistry"; "mavenRemoteRegistry"; "authorizer"; "mavenDBStore"];
    bound "mavenHandler" "api2.NewMavenHandlerProvider" total
      ["controller2"; "spaceStore"; "tokenStore"; "controller"; "authenticator";
       "authorizer"];
    bound "handler2" "router.MavenHandlerProvider" total ["mavenHandler"];
    bound "genericDBStore" "generic.DBStoreProvider" total
      ["imageRepository"; "artifactRepository"; "bandwidthStatRepository";
       "downloadStatRepository"; "registryRepository"];
    bound "genericController" "generic.ControllerProvider" total
      ["spaceStore"; "authorizer"; "fileManager"; "genericDBStore"; "transactor"];
    bound "genericHandler" "api2.NewGenericHandlerProvider" total
      ["spaceStore"; "genericController"; "tokenStore"; "controller";
       "authenticator"; "provider"; "authorizer"];
    bound "handler3" "router.GenericHandlerProvider" total ["genericHandler"];
    bound "packagesHandler" "api2.NewPackageHandlerProvider" total
      ["registryRepository"; "spaceStore"; "tokenStore"; "controller";
       "authenticator"; "provider"; "authorizer"];
    bound "pypiController" "pypi.ControllerProvider" total
      ["upstreamProxyConfigRepository"; "registryRepository"; "imageRepository";
       "artifactRepository"; "fileManager"; "transactor"; "provider"];
    bound "pypiHandler" "api2.NewPypiHandlerProvider" total
      ["pypiController"; "packagesHandler"];
    bound "handler4" "router.PackageHandlerProvider" total
      ["packagesHandler"; "mavenHandler"; "genericHandler"; "pypiHandler"];
    bound "appRouter" "router.AppRouterProvider" total
      ["registryOCIHandler"; "apiHandler"; "handler2"; "handler3"; "handler4"];
    bound "sender" "usage.ProvideMediator" total
      ["ctx"; "config"; "spaceFinder"; "usageMetricStore"];
    bound "remoteauthService" "remoteauth.ProvideRemoteAuth" total
      ["tokenStore"; "principalStore"];
    bound "lfsController" "lfs.ProvideController" total
      ["authorizer"; "repoFinder"; "principalStore"; "lfsObjectStore";
       "blobStore"; "remoteauthService"; "provider"];
    bound "routerRouter" "router2.ProvideRouter" total
      ["ctx"; "config"; "authenticator"; "repoController";
       "reposettingsController"; "executionController"; "logsController";
       "spaceController"; "pipelineController"; "secretController";
       "triggerController"; "connectorController"; "templateController";
       "pluginController"; "pullreqController"; "webhookController";
       "githookController"; "gitInterface"; "serviceaccountController";
       "controller"; "principalController"; "usergroupController";
       "checkController"; "systemController"; "uploadController";
       "keywordsearchController"; "infraproviderController"; "gitspaceController";
       "migrateController"; "provider"; "openapiService"; "appRouter"; "sender";
       "lfsController"];
    bound "serverServer" "server2.ProvideServer" total ["config"; "routerRouter"];
    bound "publickeyService" "publickey.ProvidePublicKey" total
      ["publicKeyStore"; "principalInfoCache"];
    bound "sshServer" "ssh.ProvideServer" total
      ["config"; "publickeyService"; "repoController"; "lfsController"];
    bound "executionManager" "manager.ProvideExecutionManager" total
      ["config"; "executionStore"; "pipelineStore"; "provider"; "streamer";
       "fileService"; "converterService"; "logStore"; "logStream"; "checkStore";
       "repoStore"; "schedulerScheduler"; "secretStore"; "stageStore";
       "stepStore"; "principalStore"; "publicaccessService"; "reporter5"];
    bound "client" "manager.ProvideExecutionClient" total
      ["executionManager"; "provider"; "config"];
    bound "resolverManager" "resolver.ProvideResolver" total
      ["config"; "pluginStore"; "templateStore"; "executionStore"; "repoStore"];
    bound "runtimeRunner" "runner.ProvideExecutionRunner" fallible
      ["config"; "client"; "resolverManager"];
    bound "poller" "runner.ProvideExecutionPoller" total ["runtimeRunner"; "client"];
    bound "triggerConfig" "server.ProvideTriggerConfig" total ["config"];
    bound "triggerService" "trigger2.ProvideService" fallible
      ["ctx"; "triggerConfig"; "triggerStore"; "commitService"; "pullReqStore";
       "repoFinder"; "pipelineStore"; "triggererTriggerer"; "readerFactory";
       "eventsReaderFactory"];
    bound "values" "metric.ProvideValues" fallible ["ctx"; "config"; "settingsService"];
    bound "readerFactory3" "events2.ProvideReaderFactory" fallible ["eventsSystem"];
    bound "submitter" "metric.ProvideSubmitter" fallible
      ["ctx"; "config"; "values"; "principalStore"; "principalInfoCache";
       "pullReqStore"; "readerFactory3"; "eventsReaderFactory"; "repoFinder"];
    bound "collectorJob" "metric.ProvideCollectorJob" fallible
      ["config"; "values"; "principalStore"; "repoStore"; "pipelineStore";
       "executionStore"; "jobScheduler"; "executor"; "gitspaceConfigStore";
       "registryRepository"; "artifactRepository"; "submitter"];
    bound "sizeCalculator" "repo2.ProvideCalculator" fallible
      ["config"; "gitInterface"; "repoStore"; "jobScheduler"; "executor"];
    bound "repoService" "repo2.ProvideService" fallible
      ["ctx"; "config"; "reporter"; "readerFactory3"; "repoStore"; "provider";
       "gitInterface"; "lockerLocker"];
    bound "cleanupConfig" "server.ProvideCleanupConfig" total ["config"];
    bound "cleanupService" "cleanup.ProvideService" fallible
      ["cleanupConfig"; "jobScheduler"; "executor"; "webhookExecutionStore";
       "tokenStore"; "repoStore"; "repoController"];
    bound "mailerMailer" "mailer.ProvideMailClient" total ["config"];
    bound "notificationClient" "notification.ProvideMailClient" total ["mailerMailer"];
    bound "notificationConfig" "server.ProvideNotificationConfig" total ["config"];
    bound "notificationService" "notification.ProvideNotificationService" fallible
      ["ctx"; "notificationClient"; "notificationConfig"; "eventsReaderFactory";
       "pullReqStore"; "repoStore"; "principalInfoView"; "principalInfoCache";
       "pullReqReviewerStore"; "pullReqActivityStore"; "spacePathStore";
       "provider"];
    bound "keywordsearchConfig" "server.ProvideKeywordSearchConfig" total ["config"];
    bound "keywordsearchService" "keywordsearch.ProvideService" fallible
      ["ctx"; "keywordsearchConfig"; "readerFactory"; "readerFactory3";
       "repoStore"; "indexer"];
    bound "gitspaceeventConfig" "server.ProvideGitspaceEventConfig" total ["config"];
    bound "readerFactory4" "events3.ProvideReaderFactory" fallible ["eventsSystem"];
    bound "gitspaceeventService" "gitspaceevent.ProvideService" fallible
      ["ctx"; "gitspaceeventConfig"; "readerFactory4"; "gitspaceEventStore"];
    bound "gitspacedeleteeventConfig" "server.ProvideGitspaceDeleteEventConfig" total
      ["config"];
    bound "readerFactory5" "events6.ProvideReaderFactory" fallible ["eventsSystem"];
    bound "gitspacedeleteeventService" "gitspacedeleteevent.ProvideService" fallible
      ["ctx"; "gitspacedeleteeventConfig"; "readerFactory5"; "gitspaceService"];
    bound "readerFactory6" "events4.ProvideReaderFactory" fallible ["eventsSystem"];
    bound "gitspaceinfraeventService" "gitspaceinfraevent.ProvideService" fallible
      ["ctx"; "gitspaceeventConfig"; "readerFactory6"; "orchestratorOrchestrator";
       "gitspaceService"; "eventsReporter"];
    bound "readerFactory7" "events5.ProvideReaderFactory" fallible ["eventsSystem"];
    bound "gitspaceoperationseventService" "gitspaceoperationsevent.ProvideService" fallible
      ["ctx"; "gitspaceeventConfig"; "readerFactory7"; "orchestratorOrchestrator";
       "gitspaceService"; "eventsReporter"];
    bound "gitspaceServices" "services.ProvideGitspaceServices" total
      ["gitspaceeventService"; "gitspacedeleteeventService";
       "infraproviderService"; "gitspaceService"; "gitspaceinfraeventService";
       "gitspaceoperationseventService"];
    bound "consumer" "instrument.ProvideGitConsumer" fallible
      ["ctx"; "config"; "readerFactory"; "repoStore"; "principalInfoCache";
       "instrumentService"];
    bound "repositoryCount" "instrument.ProvideRepositoryCount" fallible
      ["ctx"; "config"; "instrumentService"; "repoStore"; "jobScheduler";
       "executor"];
    bound "servicesServices" "services.ProvideServices" total
      ["webhookService"; "pullreqService"; "triggerService"; "jobScheduler";
       "collectorJob"; "sizeCalculator"; "repoService"; "cleanupService";
       "notificationService"; "keywordsearchService"; "gitspaceServices";
       "instrumentService"; "consumer"; "repositoryCount"; "service2"];
    bound "serverSystem" "server.NewSystem" total
      ["bootstrapBootstrap"; "serverServer"; "sshServer"; "poller";
       "resolverManager"; "servicesServices"] ].

(** *** Reading the wiring *)

Definition binding_of (v : string) : option Binding :=
  List.find (fun b => String.eqb (var b) v) initSystem.

Definition args_of (v : string) : list string :=
  match binding_of v with
  | Some b => args b
  | None => []
  end.

(** The bindings that call provider [p], and those that are passed [v]. *)
Definition calls (p : string) : list Binding :=
  List.filter (fun b => String.eqb (provider b) p) initSystem.

Definition mem (v : string) (vs : list string) : bool :=
  existsb (String.eqb v) vs.

Definition users (v : string) : list string :=
  map var (List.filter (fun b => mem v (args b)) initSystem).

(** A provider [pkg.Fn] split at its dot. *)
Fixpoint split_dot (s : string) : string * string :=
  match s with
  | EmptyString => (EmptyString, EmptyString)
  | String ch rest =>
      if Ascii.eqb ch "."%char then (EmptyString, rest)
      else let '(pkg, fn) := split_dot rest in (String ch pkg, fn)
  end.

Definition package_of (p : string) : string := fst (split_dot p).
Definition function_of (p : string) : string := snd (split_dot p).

Definition import_path (pkg : string) : option string :=
  option_map snd (List.find (fun i => String.eqb (fst i) pkg) renamed_imports).

(** [v] is passed to the provider of [x]. *)
Definition direct (x v : string) : Prop := In v (args_of x).

(** [x] depends on [v]: [v] is passed to the provider of [x] or to the
    provider of something [x] depends on. *)
Inductive depends : string -> string -> Prop :=
| depends_direct x v : direct x v -> depends x v
| depends_via x y v : direct x y -> depends y v -> depends x v.

(** Everything [x] depends on, collected in one pass from the last
    statement to the first. *)
Definition dependencies (x : string) : list string :=
  fold_right
    (fun b k needed =>
       if mem (var b) needed then k (args b ++ needed) else k needed)
    (fun needed => needed)
    (rev initSystem) [x].

Definition closed (vs : list string) : bool :=
  forallb (fun x => forallb (fun v => mem v vs) (args_of x)) vs.

(** *** The gitspace event consumers *)

(** A reader factory is the result of some package's [ProvideReaderFactory];
    a consumer is a service whose provider is passed a reader factory. *)
Definition is_reader_factory (v : string) : bool :=
  match binding_of v with
  | Some b => String.eqb (function_of (provider b)) "ProvideReaderFactory"
  | None => false
  end.

Definition readers_of (x : string) : list string :=
  List.filter is_reader_factory (args_of x).

Definition is_consumer (x : string) : bool :=
  match readers_of x with
  | [] => false
  | _ => true
  end.

(** The consumers among the services handed to [ProvideGitspaceServices]. *)
Definition gitspace_event_consumers : list string :=
  List.filter is_consumer (args_of "gitspaceServices").

(** The events package whose reader factory a consumer reads from. *)
Definition events_package (x : string) : list (option string) :=
  map (fun r =>
         match binding_of r with
         | Some b => import_path (package_of (provider b))
         | None => None
         end)
      (readers_of x).

Definition orchestrator : string := "orchestratorOrchestrator".

End Wire.

(* ===================================================================== *)
(** ** Properties of the wiring *)
(* ===================================================================== *)

Module WireFacts.
Import Wire.

Local Open Scope list_scope.

Lemma mem_In v vs : mem v vs = true <-> In v vs.
Proof.
  unfold mem. rewrite existsb_exists. split.
  - intros (x & Hin & Heq). apply String.eqb_eq in Heq. now subst.
  - intros Hin. exists v. split; [assumption|apply String.eqb_refl].
Qed.

(** A set of variables that holds the arguments of each of its members
    holds everything its members depend on. *)
Lemma closed_bounds_depends vs :
  closed vs = true ->
  forall x v, depends x v -> In x vs -> In v vs.
Proof.
  intros Hclosed x v Hdep.
  unfold closed in Hclosed. rewrite forallb_forall in Hclosed.
  induction Hdep as [x v Hdirect|x y v Hdirect _ IH]; intros Hx.
  - specialize (Hclosed x Hx). rewrite forallb_forall in Hclosed.
    apply mem_In. now apply Hclosed.
  - apply IH. specialize (Hclosed x Hx). rewrite forallb_forall in Hclosed.
    apply mem_In. now apply Hclosed.
Qed.

Lemma not_depends x v :
  closed (dependencies x) = true ->
  mem x (dependencies x) = true ->
  mem v (dependencies x) = false ->
  ~ depends x v.
Proof.
  intros Hclosed Hx Hv Hdep.
  apply mem_In in Hx.
  pose proof (closed_bounds_depends _ Hclosed _ _ Hdep Hx) as Hin.
  apply mem_In in Hin. congruence.
Qed.

(** The consumer of gitspace events is wired without the orchestrator:
    its provider is passed the context, a configuration, a reader factory
    and the gitspace event store, and none of these is built from it. *)
Lemma gitspaceeventService_args :
  args_of "gitspaceeventService" =
  ["ctx"; "gitspaceeventConfig"; "readerFactory4"; "gitspaceEventStore"].
Proof. reflexivity. Qed.

Lemma gitspaceeventService_independent :
  ~ depends "gitspaceeventService" orchestrator.
Proof. apply not_depends; vm_compute; reflexivity. Qed.

Lemma gitspacedeleteeventService_through_service :
  ~ direct "gitspacedeleteeventService" orchestrator /\
  direct "gitspacedeleteeventService" "gitspaceService" /\
  direct "gitspaceService" orchestrator.
Proof.
  split; [|split]; unfold direct, orchestrator.
  - intros H. apply mem_In in H. vm_compute in H. discriminate.
  - apply mem_In. reflexivity.
  - apply mem_In. reflexivity.
Qed.

(** C2 as stated fails: the consumer of the gitspace (action) events is one
    of the four consumers, and the orchestrator is not among the things its
    provider is passed, nor among the things these are built from. *)
Lemma gitspace_event_consumer_without_orchestrator :
  In "gitspaceeventService" gitspace_event_consumers /\
  mem orchestrator (args_of "gitspaceeventService") = false /\
  ~ depends "gitspaceeventService" orchestrator.
Proof.
  split; [|split].
  - apply mem_In. reflexivity.
  - reflexivity.
  - exact gitspaceeventService_independent.
Qed.

(** Apart from the gitspace service, nothing the provider of the delete
    consumer is passed is the orchestrator or is built from it. *)
Lemma gitspacedeleteeventService_only_through_service (y : string) :
  direct "gitspacedeleteeventService" y -> y <> "gitspaceService" ->
  y <> orchestrator /\ ~ depends y orchestrator.
Proof.
  unfold direct. intros Hin Hne. vm_compute in Hin.
  destruct Hin as [<-|[<-|[<-|[<-|[]]]]]; try congruence;
    (split; [discriminate|apply not_depends; vm_compute; reflexivity]).
Qed.

(** C2, as the code has it.  [ProvideGitspaceServices] is handed exactly
    four event consumers, one for each of the events packages gitspace,
    gitspacedelete, gitspaceinfra and gitspaceoperations; each is built with
    a reader factory of its own that nothing else is passed.  The
    orchestrator is passed to the providers of the infra and of the
    operations consumer only.  The provider of the delete consumer is passed
    the gitspace service, which is built from the orchestrator, and nothing
    else it is passed is the orchestrator or is built from it: the delete
    consumer reaches the orchestrator through the gitspace service only.
    The provider of the consumer of gitspace events is passed the context,
    a configuration, its reader factory and the gitspace event store, and
    this consumer does not depend on the orchestrator. *)
Theorem gitspace_consumers_wiring :
  gitspace_event_consumers =
    [ "gitspaceeventService"; "gitspacedeleteeventService";
      "gitspaceinfraeventService"; "gitspaceoperationseventService" ] /\
  map events_package gitspace_event_consumers =
    [ [Some "github.com/harness/gitness/app/events/gitspace"];
      [Some "github.com/harness/gitness/app/events/gitspacedelete"];
      [Some "github.com/harness/gitness/app/events/gitspaceinfra"];
      [Some "github.com/harness/gitness/app/events/gitspaceoperations"] ] /\
  map readers_of gitspace_event_consumers =
    [ ["readerFactory4"]; ["readerFactory5"];
      ["readerFactory6"]; ["readerFactory7"] ] /\
  map users ["readerFactory4"; "readerFactory5"; "readerFactory6"; "readerFactory7"] =
    map (fun x => [x]) gitspace_event_consumers /\
  map args_of gitspace_event_consumers =
    [ ["ctx"; "gitspaceeventConfig"; "readerFactory4"; "gitspaceEventStore"];
      ["ctx"; "gitspacedeleteeventConfig"; "readerFactory5"; "gitspaceService"];
      ["ctx"; "gitspaceeventConfig"; "readerFactory6"; "orchestratorOrchestrator";
       "gitspaceService"; "eventsReporter"];
      ["ctx"; "gitspaceeventConfig"; "readerFactory7"; "orchestratorOrchestrator";
       "gitspaceService"; "eventsReporter"] ] /\
  List.filter (fun x => mem orchestrator (args_of x)) gitspace_event_consumers =
    [ "gitspaceinfraeventService"; "gitspaceoperationseventService" ] /\
  (direct "gitspacedeleteeventService" "gitspaceService" /\
   direct "gitspaceService" orchestrator /\
   forall y,
     direct "gitspacedeleteeventService" y -> y <> "gitspaceService" ->
     y <> orchestrator /\ ~ depends y orchestrator) /\
  ~ depends "gitspaceeventService" orchestrator.
Proof.
  repeat (split; [vm_compute; reflexivity|]).
  split; [|exact gitspaceeventService_independent].
  destruct gitspacedeleteeventService_through_service as (_ & Hservice & Horch).
  split; [exact Hservice|]. split; [exact Horch|].
  exact gitspacedeleteeventService_only_through_service.
Qed.

End WireFacts.

(* ===================================================================== *)
(** ** web/src/cde-gitness/constants/index.ts *)
(* ===================================================================== *)

Module Constants.

Inductive IDEType : Type :=
| VSCODE
| VSCODEWEB.

Definition IDEType_value (t : IDEType) : string :=
  match t with
  | VSCODE => "vs_code"
  | VSCODEWEB => "vs_code_web"
  end.

Definition IDEType_members : list IDEType := [VSCODE; VSCODEWEB].

Inductive GitspaceStatus : Type :=
| RUNNING
| STOPPED
| UNKNOWN
| ERROR
| STARTING
| STOPPING
| UNINITIALIZED.

Definition GitspaceStatus_value (s : GitspaceStatus) : string :=
  match s with
  | RUNNING => "running"
  | STOPPED => "stopped"
  | UNKNOWN => "unknown"
  | ERROR => "error"
  | STARTING => "starting"
  | STOPPING => "stopping"
  | UNINITIALIZED => "uninitialized"
  end.

Definition GitspaceStatus_members : list GitspaceStatus :=
  [RUNNING; STOPPED; UNKNOWN; ERROR; STARTING; STOPPING; UNINITIALIZED].

Inductive GitspaceActionType : Type :=
| START
| STOP.

Definition GitspaceActionType_value (a : GitspaceActionType) : string :=
  match a with
  | START => "start"
  | STOP => "stop"
  end.

(** The lifecycle states as the specification names them (section 4.2),
    to be compared with the enumeration above. *)
Definition spec_lifecycle_states : list string :=
  [ "Uninitialized"; "Provisioning"; "Starting"; "Running"; "Stopping";
    "Stopped"; "Deleting"; "Deleted"; "Error" ].

(** Names are compared without regard to case. *)
Definition lower_ascii (ch : ascii) : ascii :=
  let n := nat_of_ascii ch in
  if (65 <=? n)%nat && (n <=? 90)%nat then ascii_of_nat (n + 32) else ch.

Fixpoint lower (s : string) : string :=
  match s with
  | EmptyString => EmptyString
  | String ch rest => String (lower_ascii ch) (lower rest)
  end.

Definition is_spec_state (value : string) : bool :=
  existsb (fun name => String.eqb (lower name) value) spec_lifecycle_states.

Definition is_status_value (name : string) : bool :=
  existsb (fun s => String.eqb (GitspaceStatus_value s) (lower name))
          GitspaceStatus_members.

End Constants.

Module ConstantsFacts.
Import Constants.

Local Open Scope list_scope.

Lemma GitspaceStatus_members_all (s : GitspaceStatus) :
  In s GitspaceStatus_members.
Proof. destruct s; simpl; tauto. Qed.

(** C1 as stated fails in both directions: the enumeration has the value
    [unknown], which is none of the nine states, and it has no value for
    Provisioning, Deleting or Deleted. *)
Lemma GitspaceStatus_differs_from_spec_states :
  is_spec_state (GitspaceStatus_value UNKNOWN) = false /\
  In "Provisioning" spec_lifecycle_states /\
  is_status_value "Provisioning" = false /\
  is_status_value "Deleting" = false /\
  is_status_value "Deleted" = false.
Proof. repeat split. simpl. tauto. Qed.

(** C1, as the code has it.  The [GitspaceStatus] enumeration has exactly
    the seven values running, stopped, unknown, error, starting, stopping
    and uninitialized.  All of them but [unknown] are states of the
    specification; of the nine states of the specification, Provisioning,
    Deleting and Deleted are no value of the enumeration and the six others
    are. *)
Theorem GitspaceStatus_values :
  (forall s : GitspaceStatus, In s GitspaceStatus_members) /\
  map GitspaceStatus_value GitspaceStatus_members =
    [ "running"; "stopped"; "unknown"; "error"; "starting"; "stopping";
      "uninitialized" ] /\
  (forall s : GitspaceStatus,
     is_spec_state (GitspaceStatus_value s) = true <-> s <> UNKNOWN) /\
  List.filter is_status_value spec_lifecycle_states =
    [ "Uninitialized"; "Starting"; "Running"; "Stopping"; "Stopped"; "Error" ] /\
  List.filter (fun name => negb (is_status_value name)) spec_lifecycle_states =
    [ "Provisioning"; "Deleting"; "Deleted" ].
Proof.
  split; [exact GitspaceStatus_members_all|].
  split; [reflexivity|].
  split; [|split; reflexivity].
  intros s. destruct s; vm_compute; split; congruence.
Qed.

End ConstantsFacts.

(* ===================================================================== *)
(** ** The gitspace orchestration engine *)
(* ===================================================================== *)

Module Gitspace.

Local Open Scope list_scope.

(** Modelled from the spec: the gitspace service, the orchestrator, the
    container orchestrator, the IDE factory and the lock manager are wired
    in cmd/gitness/wire_gen.go ([gitspace.ProvideGitspace],
    [orchestrator.ProvideOrchestrator],
    [container.ProvideEmbeddedDockerOrchestrator], [ide.ProvideIDEFactory],
    [lock.ProvideMutexManager]) but their bodies are not under src/.  The
    lifecycle states and the actions are those of section 4.2 of the
    specification. *)
Inductive State : Type :=
| Uninitialized
| Provisioning
| Starting
| Running
| Stopping
| Stopped
| Deleting
| Deleted
| Error.

Inductive Action : Type :=
| Start
| Stop
| Delete.

#[global] Instance State_eq_dec : EqDecision State.
Proof. solve_decision. Defined.

#[global] Instance Action_eq_dec : EqDecision Action.
Proof. solve_decision. Defined.

(** Modelled from the spec: the states an instance is in while a lifecycle
    operation is under way (section 4.1, "mid-transition"). *)
Definition mid_transition (st : State) : bool :=
  match st with
  | Provisioning | Starting | Stopping | Deleting => true
  | _ => false
  end.

(** Modelled from the spec: the state an action aims at (column "To
    (success)" of the table of section 4.2). *)
Definition target (a : Action) : State :=
  match a with
  | Start => Running
  | Stop => Stopped
  | Delete => Deleted
  end.

(** Modelled from the spec: the states an action may start from (column
    "From" of the table of section 4.2; the row of Error allows start and
    delete). *)
Definition legal (a : Action) (st : State) : bool :=
  match a, st with
  | Start, (Uninitialized | Stopped | Error) => true
  | Stop, Running => true
  | Delete, Deleted => false
  | Delete, _ => true
  | _, _ => false
  end.

(** The stages of a start that can fail (section 4.2, stages 2, 4 and 5),
    and the way an operation ends. *)
Inductive Stage : Type :=
| StageProvision
| StageContainer
| StageIDE.

Inductive Outcome : Type :=
| Succeeded
| Failed (stage : Stage).

(** The answers of the gitspace service (sections 4.1 and 7). *)
Inductive Response : Type :=
| Accepted
| Conflict
| NotFound
| UnsupportedIDE
| Rejected.

Record Config : Type := { ide_type : string }.

(** Modelled from the spec: the instance record of section 3, with its
    config reference, lifecycle state, connection URI and the stage a
    failure was recorded at. *)
Record Instance : Type := {
  inst_config : nat;
  inst_state : State;
  inst_uri : string;
  inst_failed : option Stage
}.

Inductive ContainerStatus : Type :=
| ContainerRunning
| ContainerStopped.

(** Modelled from the spec: the shared state of section 5.  [inflight] is
    the table of identifier-scoped locks, each with the action of the event
    whose handling holds it; [queue] holds the lifecycle events that wait
    for a delivery or for their acknowledgement, oldest first; [published]
    is the log of the durable event bus: every event ever published, which
    the bus may deliver again (sections 3 and 4.6, at-least-once delivery);
    [ide_factory] maps an IDE type to its adapter. *)
Record System : Type := {
  configs : gmap nat Config;
  instances : list Instance;
  provisioned : gset nat;
  containers : gmap nat ContainerStatus;
  inflight : gmap nat Action;
  queue : list (Action * nat);
  published : list (Action * nat);
  ide_factory : gmap string string
}.

(** *** Instance records *)

Definition is_active (cfg : nat) (i : Instance) : bool :=
  Nat.eqb (inst_config i) cfg && negb (bool_decide (inst_state i = Deleted)).

Definition active_instance (cfg : nat) (insts : list Instance) : option Instance :=
  List.find (is_active cfg) insts.

Definition active_state (cfg : nat) (insts : list Instance) : option State :=
  option_map inst_state (active_instance cfg insts).

(** The first active instance of [cfg] is replaced by [f] of it. *)
Fixpoint update_active (cfg : nat) (f : Instance -> Instance)
    (insts : list Instance) : list Instance :=
  match insts with
  | [] => []
  | i :: rest =>
      if is_active cfg i then f i :: rest
      else i :: update_active cfg f rest
  end.

Definition with_state (st : State) (i : Instance) : Instance :=
  {| inst_config := inst_config i; inst_state := st;
     inst_uri := inst_uri i; inst_failed := inst_failed i |}.

Definition with_running (uri : string) (i : Instance) : Instance :=
  {| inst_config := inst_config i; inst_state := Running;
     inst_uri := uri; inst_failed := None |}.

Definition with_error (stage : Stage) (i : Instance) : Instance :=
  {| inst_config := inst_config i; inst_state := Error;
     inst_uri := inst_uri i; inst_failed := Some stage |}.

Definition new_instance (cfg : nat) (st : State) : Instance :=
  {| inst_config := cfg; inst_state := st; inst_uri := ""; inst_failed := None |}.



(** *** The container orchestrator (section 4.4) *)

(** Modelled from the spec: [CreateAndStart] detects a container that is
    already running and short-circuits; [Stop] on a container that is
    already stopped, or that is not found, succeeds and changes nothing. *)
Definition container_CreateAndStart (h : nat)
    (cs : gmap nat ContainerStatus) : gmap nat ContainerStatus :=
  match cs !! h with
  | Some ContainerRunning => cs
  | _ => <[h := ContainerRunning]> cs
  end.

Definition container_Stop (h : nat)
    (cs : gmap nat ContainerStatus) : option string * gmap nat ContainerStatus :=
  match cs !! h with
  | Some ContainerRunning => (None, <[h := ContainerStopped]> cs)
  | Some ContainerStopped => (None, cs)
  | None => (None, cs)
  end.

Definition container_Remove (h : nat)
    (cs : gmap nat ContainerStatus) : gmap nat ContainerStatus :=
  delete h cs.

(** *** The IDE adapter (section 4.5) *)

(** Modelled from the spec: the adapter is selected by a lookup of the IDE
    type; an IDE type without adapter is an unsupported IDE. *)
Definition ide_adapter (s : System) (ideType : string) : option string :=
  ide_factory s !! ideType.

Definition ide_Configure (s : System) (h : nat) (ideType : string) : option string :=
  match ide_adapter s ideType with
  | Some adapter => Some (adapter ++ "://gitspace")%string
  | None => None
  end.

(** *** The gitspace service (section 4.1) *)

Definition set_instances (insts : list Instance) (s : System) : System :=
  {| configs := configs s; instances := insts; provisioned := provisioned s;
     containers := containers s; inflight := inflight s; queue := queue s;
     published := published s; ide_factory := ide_factory s |}.

(** [Publish]: the event goes into the log of the bus and waits for its
    delivery. *)
Definition enqueue (a : Action) (cfg : nat) (s : System) : System :=
  {| configs := configs s; instances := instances s;
     provisioned := provisioned s; containers := containers s;
     inflight := inflight s; queue := queue s ++ [(a, cfg)];
     published := published s ++ [(a, cfg)];
     ide_factory := ide_factory s |}.

(** The pending state a request writes: a start goes through Provisioning
    when no infra is provisioned for the config yet. *)
Definition pending_state (a : Action) (cfg : nat) (s : System) : State :=
  match a with
  | Start =>
      if bool_decide (cfg ∈ provisioned s) then Starting else Provisioning
  | Stop => Stopping
  | Delete => Deleting
  end.

(** Modelled from the spec: [RequestStart], [RequestStop] and
    [RequestDelete] (section 4.1).  The config must exist, the identifier's
    lock must be free (section 5) and the instance must not be
    mid-transition, or the answer is Conflict; an instance that is in the
    target state already is left as it is, with success (sections 3 and 8);
    otherwise the pending state is written and the event is enqueued.  A
    start creates the instance record when the config has no active one,
    and is refused when no adapter serves the IDE type (section 4.5).  Where
    the specification is silent (a stop or delete for a config without
    instance, an action the table of section 4.2 has no row for) the
    request is refused and changes nothing. *)
Definition request (a : Action) (cfg : nat) (s : System) : Response * System :=
  match configs s !! cfg with
  | None => (Conflict, s)
  | Some c =>
      match inflight s !! cfg with
      | Some _ => (Conflict, s)
      | None =>
          match active_state cfg (instances s) with
          | Some st =>
              if mid_transition st then (Conflict, s)
              else if bool_decide (st = target a) then (Accepted, s)
              else if negb (legal a st) then (Rejected, s)
              else if bool_decide (a = Start) &&
                      bool_decide (ide_adapter s (ide_type c) = None) then
                (UnsupportedIDE, s)
              else
                let st' := pending_state a cfg s in
                (Accepted,
                 enqueue a cfg
                   (set_instances
                      (update_active cfg (with_state st') (instances s)) s))
          | None =>
              match a with
              | Start =>
                  if bool_decide (ide_adapter s (ide_type c) = None) then
                    (UnsupportedIDE, s)
                  else
                    let st' := pending_state a cfg s in
                    (Accepted,
                     enqueue a cfg
                       (set_instances (instances s ++ [new_instance cfg st']) s))
              | _ => (NotFound, s)
              end
          end
      end
  end.

(** *** The consumers and the orchestrator (sections 4.2, 4.6 and 5) *)

Definition event_of (cfg : nat) (e : Action * nat) : bool := Nat.eqb (snd e) cfg.

(** The queue without its first event for [cfg]. *)
Fixpoint remove_first (cfg : nat) (q : list (Action * nat)) : list (Action * nat) :=
  match q with
  | [] => []
  | e :: rest => if event_of cfg e then rest else e :: remove_first cfg rest
  end.

(** Modelled from the spec: delivery is at-least-once (sections 3 and
    4.6): the bus may deliver an event again that it has delivered before,
    also one that has been processed and acknowledged.  The event is taken
    from the log of the bus and waits for a delivery once more. *)
Definition redeliver (a : Action) (cfg : nat) (s : System) : System :=
  if bool_decide ((a, cfg) ∈ published s) then
    {| configs := configs s; instances := instances s;
       provisioned := provisioned s; containers := containers s;
       inflight := inflight s; queue := queue s ++ [(a, cfg)];
       published := published s; ide_factory := ide_factory s |}
  else s.

(** Modelled from the spec: the state the instance is in while the event of
    an action waits to be handled, which is the pending state the request
    has written (section 4.1).  Handlers are idempotent, keyed on the
    identifier and the state (section 3), and the state is updated only
    from its expected set (section 6): an event that finds the instance in
    any other state has been processed before. *)
Definition awaited (a : Action) (st : option State) : bool :=
  match a, st with
  | Start, Some (Provisioning | Starting) => true
  | Stop, Some Stopping => true
  | Delete, Some Deleting => true
  | _, _ => false
  end.

(** Modelled from the spec: a consumer is delivered the oldest waiting
    event of [cfg] and invokes the orchestrator, which acquires the lock of
    [cfg] (sections 4.6 and 5).  While the lock is held a delivery has no
    effect and the event waits on.  The event is acknowledged only when the
    orchestrator call returns, and stays in the queue until then. *)
Definition begin (cfg : nat) (s : System) : System :=
  match inflight s !! cfg, List.find (event_of cfg) (queue s) with
  | None, Some (a, _) =>
      {| configs := configs s; instances := instances s;
         provisioned := provisioned s; containers := containers s;
         inflight := <[cfg := a]> (inflight s);
         queue := queue s;
         published := published s;
         ide_factory := ide_factory s |}
  | _, _ => s
  end.

(** Modelled from the spec: the checkpoint of stage 2 of a start (section
    4.2): the start in flight has provisioned the infra of [cfg], and the
    instance moves from Provisioning to Starting. *)
Definition checkpoint (cfg : nat) (s : System) : System :=
  match inflight s !! cfg, active_state cfg (instances s) with
  | Some Start, Some Provisioning =>
      {| configs := configs s;
         instances := update_active cfg (with_state Starting) (instances s);
         provisioned := provisioned s ∪ {[cfg]};
         containers := containers s;
         inflight := inflight s;
         queue := queue s;
         published := published s;
         ide_factory := ide_factory s |}
  | _, _ => s
  end.

(** The stage effects of an operation that ends with [o]: what it leaves
    provisioned and which containers it leaves. *)
Definition stage_effects (a : Action) (cfg : nat) (o : Outcome) (s : System)
  : gset nat * gmap nat ContainerStatus :=
  match a, o with
  | Start, Succeeded | Start, Failed StageIDE =>
      (provisioned s ∪ {[cfg]}, container_CreateAndStart cfg (containers s))
  | Start, Failed StageContainer => (provisioned s ∪ {[cfg]}, containers s)
  | Start, Failed StageProvision => (provisioned s, containers s)
  | Stop, Succeeded => (provisioned s, snd (container_Stop cfg (containers s)))
  | Stop, Failed _ => (provisioned s, containers s)
  | Delete, Succeeded =>
      (provisioned s ∖ {[cfg]},
       container_Remove cfg (snd (container_Stop cfg (containers s))))
  | Delete, Failed _ => (provisioned s, containers s)
  end.

(** The instance record an operation that ends with [o] persists. *)
Definition persisted (a : Action) (cfg : nat) (o : Outcome) (s : System)
  : Instance -> Instance :=
  match o with
  | Failed stage => with_error stage
  | Succeeded =>
      match a with
      | Start =>
          let ideType := default "" (ide_type <$> configs s !! cfg) in
          match ide_Configure s cfg ideType with
          | Some uri => with_running uri
          | None => with_error StageIDE
          end
      | Stop => with_state Stopped
      | Delete => with_state Deleted
      end
  end.

(** Modelled from the spec: the orchestrator call for [cfg] returns, with
    outcome [o].  When the instance awaits the event, the operation has
    run: the orchestrator persists the resulting state and the effects of
    its stages.  When it does not, the event has been processed before and
    nothing is written (handlers are idempotent, section 3).  Either way
    the lock is released and the consumer acknowledges the event, the
    oldest of [cfg] in the queue (section 4.6).  Without a call in flight
    nothing happens. *)
Definition complete (cfg : nat) (o : Outcome) (s : System) : System :=
  match inflight s !! cfg with
  | None => s
  | Some a =>
      if awaited a (active_state cfg (instances s)) then
        let '(prov, conts) := stage_effects a cfg o s in
        {| configs := configs s;
           instances := update_active cfg (persisted a cfg o s) (instances s);
           provisioned := prov;
           containers := conts;
           inflight := delete cfg (inflight s);
           queue := remove_first cfg (queue s);
           published := published s;
           ide_factory := ide_factory s |}
      else
        {| configs := configs s;
           instances := instances s;
           provisioned := provisioned s;
           containers := containers s;
           inflight := delete cfg (inflight s);
           queue := remove_first cfg (queue s);
           published := published s;
           ide_factory := ide_factory s |}
  end.

(** *** Executions *)

Inductive Label : Type :=
| Request (a : Action) (cfg : nat)
| Begin (cfg : nat)
| Checkpoint (cfg : nat)
| Complete (cfg : nat) (o : Outcome)
| Redeliver (a : Action) (cfg : nat).

Definition step (l : Label) (s : System) : System :=
  match l with
  | Request a cfg => snd (request a cfg s)
  | Begin cfg => begin cfg s
  | Checkpoint cfg => checkpoint cfg s
  | Complete cfg o => complete cfg o s
  | Redeliver a cfg => redeliver a cfg s
  end.

Definition run (ls : list Label) (s : System) : System :=
  fold_left (fun s l => step l s) ls s.

(** The system as it is wired at startup: configs and the IDE factory are
    given, nothing else exists yet. *)
Definition boot (cfgs : gmap nat Config) (factory : gmap string string) : System :=
  {| configs := cfgs; instances := []; provisioned := ∅; containers := ∅;
     inflight := ∅; queue := []; published := []; ide_factory := factory |}.

Definition reachable (s : System) : Prop :=
  exists cfgs factory ls, s = run ls (boot cfgs factory).




End Gitspace.

(* ===================================================================== *)
(** ** Properties of the orchestration engine *)
(* ===================================================================== *)

Module GitspaceFacts.
Import Gitspace.

Local Open Scope list_scope.

(** *** A scenario (section 8 of the specification) *)

(** The config of the scenario, with IDE type [browser-ide], and a factory
    that has an adapter for it. *)
Definition browser_config : Config := {| ide_type := "browser-ide" |}.

Definition scenario_factory : gmap string string :=
  <["browser-ide" := "browser"]> ∅.

Definition fresh : System := boot (<[1 := browser_config]> ∅) scenario_factory.

Definition started : System :=
  run [Request Start 1; Begin 1; Complete 1 Succeeded] fresh.

Definition stopped : System :=
  run [Request Stop 1; Begin 1; Complete 1 Succeeded] started.

Example scenario_start :
  instances started =
    [ {| inst_config := 1; inst_state := Running;
         inst_uri := "browser://gitspace"; inst_failed := None |} ] /\
  bool_decide (1 ∈ provisioned started) = true /\
  containers started !! 1 = Some ContainerRunning.
Proof. repeat split. Qed.

Example scenario_checkpoint :
  map (fun ls => active_state 1 (instances (run ls fresh)))
    [ [Request Start 1];
      [Request Start 1; Begin 1];
      [Request Start 1; Begin 1; Checkpoint 1];
      [Request Start 1; Begin 1; Checkpoint 1; Complete 1 Succeeded] ]
  = [Some Provisioning; Some Provisioning; Some Starting; Some Running].
Proof. reflexivity. Qed.

Example scenario_stop :
  active_state 1 (instances stopped) = Some Stopped /\
  containers stopped !! 1 = Some ContainerStopped /\
  bool_decide (1 ∈ provisioned stopped) = true.
Proof. repeat split. Qed.

Example scenario_delete :
  let deleted := run [Request Delete 1; Begin 1; Complete 1 Succeeded] stopped in
  map inst_state (instances deleted) = [Deleted] /\
  bool_decide (1 ∈ provisioned deleted) = false /\
  containers deleted !! 1 = None.
Proof. repeat split. Qed.

Example scenario_image_pull_failure :
  let failed := run [Request Start 1; Begin 1; Complete 1 (Failed StageContainer)] fresh in
  map inst_state (instances failed) = [Error] /\
  map inst_failed (instances failed) = [Some StageContainer] /\
  fst (request Start 1 failed) = Accepted.
Proof. repeat split. Qed.

Example scenario_unsupported_ide :
  fst (request Start 2
         (boot (<[2 := {| ide_type := "emacs" |}]> ∅) scenario_factory))
  = UnsupportedIDE.
Proof. reflexivity. Qed.

(** *** What a step leaves alone *)


Lemma checkpoint_cases cfg s :
  checkpoint cfg s = s \/
  (inflight s !! cfg = Some Start /\
   active_state cfg (instances s) = Some Provisioning /\
   checkpoint cfg s =
     {| configs := configs s;
        instances := update_active cfg (with_state Starting) (instances s);
        provisioned := provisioned s ∪ {[cfg]};
        containers := containers s;
        inflight := inflight s;
        queue := queue s;
        published := published s;
        ide_factory := ide_factory s |}).
Proof.
  unfold checkpoint.
  destruct (inflight s !! cfg) as [[| |]|]; try now left.
  destruct (active_state cfg (instances s)) as [[| | | | | | | |]|];
    try now left.
  right. now repeat split.
Qed.

Lemma request_cases a cfg s :
  snd (request a cfg s) = s \/
  (fst (request a cfg s) = Accepted /\
   inflight s !! cfg = None /\
   is_Some (configs s !! cfg) /\
   exists insts,
     snd (request a cfg s) = enqueue a cfg (set_instances insts s) /\
     ((exists st,
         active_state cfg (instances s) = Some st /\
         mid_transition st = false /\ legal a st = true /\
         insts = update_active cfg (with_state (pending_state a cfg s))
                   (instances s))
      \/ (a = Start /\ active_state cfg (instances s) = None /\
          insts = instances s ++ [new_instance cfg (pending_state a cfg s)]))).
Proof.
  unfold request.
  destruct (configs s !! cfg) as [c|]; [|now left].
  destruct (inflight s !! cfg); [now left|].
  destruct (active_state cfg (instances s)) as [st|] eqn:Hst.
  - destruct (mid_transition st) eqn:Hmid; [now left|].
    destruct (bool_decide (st = target a)); [now left|].
    destruct (legal a st) eqn:Hlegal; [|now left]. simpl.
    destruct (_ && _); [now left|].
    right. repeat split; [now exists c|]. eexists. split; [reflexivity|].
    left. now exists st.
  - destruct a; try now left.
    destruct (bool_decide _); [now left|].
    right. repeat split; [now exists c|].
    eexists. split; [reflexivity|]. now right.
Qed.

(** A delivery only takes the lock, when it is free. *)
Lemma begin_cases cfg s :
  configs (begin cfg s) = configs s /\
  instances (begin cfg s) = instances s /\
  provisioned (begin cfg s) = provisioned s /\
  containers (begin cfg s) = containers s /\
  queue (begin cfg s) = queue s /\
  ide_factory (begin cfg s) = ide_factory s /\
  (inflight (begin cfg s) = inflight s \/
   exists a,
     inflight s !! cfg = None /\
     List.find (event_of cfg) (queue s) = Some (a, cfg) /\
     inflight (begin cfg s) = <[cfg := a]> (inflight s)).
Proof.
  unfold begin.
  destruct (inflight s !! cfg) eqn:Hfree; [now repeat split; try left|].
  destruct (List.find _ _) as [[a c1]|] eqn:Hfind; [|now repeat split; try left].
  simpl. repeat split. right. exists a. repeat split.
  destruct (find_some _ _ Hfind) as [_ Hc1]. unfold event_of in Hc1.
  simpl in Hc1. apply Nat.eqb_eq in Hc1. now subst c1.
Qed.

(** The return of an orchestrator call: nothing without a call in flight;
    the operation's effects, when the instance awaits the event; otherwise
    only the release of the lock and the acknowledgement. *)
Lemma complete_cases cfg o s :
  complete cfg o s = s \/
  exists a,
    inflight s !! cfg = Some a /\
    configs (complete cfg o s) = configs s /\
    ide_factory (complete cfg o s) = ide_factory s /\
    inflight (complete cfg o s) = delete cfg (inflight s) /\
    queue (complete cfg o s) = remove_first cfg (queue s) /\
    ((awaited a (active_state cfg (instances s)) = true /\
      instances (complete cfg o s) =
        update_active cfg (persisted a cfg o s) (instances s))
     \/ (awaited a (active_state cfg (instances s)) = false /\
         instances (complete cfg o s) = instances s /\
         provisioned (complete cfg o s) = provisioned s /\
         containers (complete cfg o s) = containers s)).
Proof.
  unfold complete.
  destruct (inflight s !! cfg) as [a|]; [|now left].
  right. exists a. split; [reflexivity|].
  destruct (awaited a _).
  - destruct (stage_effects a cfg o s) as [prov conts]. simpl.
    repeat split. now left.
  - simpl. repeat split. now right.
Qed.

(** A redelivery only adds to the queue. *)
Lemma redeliver_cases a cfg s :
  configs (redeliver a cfg s) = configs s /\
  instances (redeliver a cfg s) = instances s /\
  provisioned (redeliver a cfg s) = provisioned s /\
  containers (redeliver a cfg s) = containers s /\
  inflight (redeliver a cfg s) = inflight s /\
  ide_factory (redeliver a cfg s) = ide_factory s.
Proof. unfold redeliver. now destruct (bool_decide _). Qed.


Lemma step_ide_factory l s : ide_factory (step l s) = ide_factory s.
Proof.
  destruct l as [a cfg|cfg|cfg|cfg o|a cfg]; simpl.
  - destruct (request_cases a cfg s) as [->|(_ & _ & _ & insts & -> & _)]; reflexivity.
  - apply begin_cases.
  - destruct (checkpoint_cases cfg s) as [->|(_ & _ & ->)]; reflexivity.
  - destruct (complete_cases cfg o s) as [->|(a & _ & _ & -> & _)]; reflexivity.
  - apply redeliver_cases.
Qed.


Lemma run_cons l ls s : run (l :: ls) s = run ls (step l s).
Proof. reflexivity. Qed.


Lemma run_ide_factory ls : forall s, ide_factory (run ls s) = ide_factory s.
Proof.
  induction ls as [|l ls IH]; intros s; [reflexivity|].
  now rewrite run_cons, IH, step_ide_factory.
Qed.

(** *** The records, events and lock of one config *)















Lemma find_none_filter {A} (p : A -> bool) xs :
  List.find p xs = None -> List.filter p xs = [].
Proof.
  induction xs as [|y xs IH]; simpl; [reflexivity|].
  destruct (p y); [discriminate|]. exact IH.
Qed.


(** *** One active instance per config *)






















(** *** Instances belong to configs *)







(** *** The event of the call in flight *)

(** While an orchestrator call holds the lock of a config, its event is the
    oldest event of the config in the queue: the event [complete]
    acknowledges is the event the call was begun with. *)
Definition lock_event (cfg : nat) (s : System) : Prop :=
  forall a, inflight s !! cfg = Some a ->
            List.find (event_of cfg) (queue s) = Some (a, cfg).

Lemma find_event_app cfg q e x :
  List.find (event_of cfg) q = Some x ->
  List.find (event_of cfg) (q ++ [e]) = Some x.
Proof.
  induction q as [|y q IH]; simpl; [discriminate|].
  destruct (event_of cfg y); [trivial|exact IH].
Qed.

Lemma find_remove_first_other cfg cfg0 q :
  cfg <> cfg0 ->
  List.find (event_of cfg) (remove_first cfg0 q) = List.find (event_of cfg) q.
Proof.
  intros Hne. induction q as [|e q IH]; simpl; [reflexivity|].
  destruct (event_of cfg0 e) eqn:H0; simpl.
  - unfold event_of in *. apply Nat.eqb_eq in H0. rewrite H0.
    destruct (Nat.eqb_spec cfg0 cfg); [congruence|reflexivity].
  - now rewrite IH.
Qed.

Lemma step_lock_event l cfg s : lock_event cfg s -> lock_event cfg (step l s).
Proof.
  intros Hs a.
  destruct l as [a0 cfg0|cfg0|cfg0|cfg0 o|a0 cfg0]; simpl.
  - destruct (request_cases a0 cfg0 s)
      as [->|(_ & _ & _ & insts & -> & _)]; [apply Hs|].
    simpl. intros Hheld. now apply find_event_app, Hs.
  - destruct (begin_cases cfg0 s) as (_ & _ & _ & _ & -> & _ & Hlock).
    destruct Hlock as [->|(a1 & _ & Hfind & ->)]; [apply Hs|].
    destruct (Nat.eq_dec cfg0 cfg) as [->|Hne].
    + rewrite lookup_insert_eq. now intros [= <-].
    + rewrite lookup_insert_ne by assumption. apply Hs.
  - destruct (checkpoint_cases cfg0 s) as [->|(_ & _ & ->)]; apply Hs.
  - destruct (complete_cases cfg0 o s)
      as [->|(a1 & _ & _ & _ & -> & -> & _)]; [apply Hs|].
    destruct (Nat.eq_dec cfg0 cfg) as [->|Hne].
    + rewrite lookup_delete_eq. discriminate.
    + rewrite lookup_delete_ne by assumption.
      rewrite find_remove_first_other by congruence. apply Hs.
  - unfold redeliver. destruct (bool_decide _); [|apply Hs].
    simpl. intros Hheld. now apply find_event_app, Hs.
Qed.

Lemma reachable_lock_event s cfg : reachable s -> lock_event cfg s.
Proof.
  intros (cfgs & factory & ls & ->).
  assert (H : forall s, lock_event cfg s -> lock_event cfg (run ls s)).
  { induction ls as [|l ls IH]; intros s Hs; [exact Hs|].
    rewrite run_cons. apply IH. now apply step_lock_event. }
  apply H. intros a. simpl. rewrite lookup_empty. discriminate.
Qed.

(** *** A start under way *)















Lemma fresh_reachable : reachable fresh.
Proof. exists (<[1 := browser_config]> ∅), scenario_factory, []. reflexivity. Qed.






(** Redelivery of events that have been processed (section 8): each is
    handed to a consumer again, the orchestrator call returns and the event
    is acknowledged, and instances, infra and containers are as they
    were. *)
Example scenario_redelivery :
  let again :=
    run [ Redeliver Stop 1; Begin 1; Complete 1 Succeeded;
          Redeliver Start 1; Begin 1; Complete 1 Succeeded ] stopped in
  queue (run [Redeliver Stop 1; Redeliver Start 1] stopped)
    = [(Stop, 1); (Start, 1)] /\
  queue again = [] /\
  instances again = instances stopped /\
  bool_decide (provisioned again = provisioned stopped) = true /\
  containers again = containers stopped /\
  inflight again = inflight stopped.
Proof. vm_compute. repeat split; reflexivity. Qed.









End GitspaceFacts.

(* ===================================================================== *)
(** ** The IDE factory *)
(* ===================================================================== *)

Module IDEFacts.
Import Wire Constants Gitspace GitspaceFacts.

Local Open Scope list_scope.

(** X15. The adapters of the IDE factory.  [initSystem] builds the factory
    from exactly three adapters, the results of [ide.ProvideVSCodeService],
    [ide.ProvideVSCodeWebService] and [ide.ProvideJetBrainsIDEsService];
    each adapter is built from a configuration of its own, which is read
    from [config] and passed to nothing else, and each adapter is passed to
    the factory only. *)
Theorem ide_adapters_wiring :
  map (fun v => option_map provider (binding_of v)) (args_of "ideFactory") =
    [ Some "ide.ProvideVSCodeService"; Some "ide.ProvideVSCodeWebService";
      Some "ide.ProvideJetBrainsIDEsService" ]%string /\
  map users (args_of "ideFactory") = [["ideFactory"]; ["ideFactory"]; ["ideFactory"]] /\
  map args_of (args_of "ideFactory") =
    [["vsCodeConfig"]; ["vsCodeWebConfig"]; ["jetBrainsIDEConfig"]] /\
  (forall cfg, In cfg (concat (map args_of (args_of "ideFactory"))) ->
     args_of cfg = ["config"] /\
     package_of (default "" (provider <$> binding_of cfg)) = "server" /\
     length (users cfg) = 1).
Proof.
  split; [reflexivity|]. split; [reflexivity|]. split; [reflexivity|].
  intros cfg Hin. vm_compute in Hin.
  destruct Hin as [<-|[<-|[<-|[]]]]; vm_compute; repeat split.
Qed.

(** C6. The mapping from IDE type to adapter is fixed at startup:
    [initSystem] calls [ide.ProvideIDEFactory] exactly once, with the three
    adapters; no variable of [initSystem] is bound twice and the factory is
    handed to the orchestrator only; no step of the running system writes
    the factory, so at any time a lookup returns what the factory built at
    startup returns, and any two lookups of one IDE type agree. *)
Theorem ide_factory_fixed_at_startup :
  calls "ide.ProvideIDEFactory" =
    [ bound "ideFactory" "ide.ProvideIDEFactory" total
        ["vsCode"; "vsCodeWeb"; "v"] ]%string /\
  bool_decide (NoDup (map var initSystem)) = true /\
  users "ideFactory" = [orchestrator] /\
  (forall (l : Label) (s : System) (ideType : string),
     ide_adapter (step l s) ideType = ide_adapter s ideType) /\
  (forall (cfgs : gmap nat Config) (factory : gmap string string)
          (ls : list Label) (ideType : string),
     ide_adapter (run ls (boot cfgs factory)) ideType = factory !! ideType) /\
  (forall (cfgs : gmap nat Config) (factory : gmap string string)
          (ls1 ls2 : list Label) (ideType : string),
     ide_adapter (run ls1 (boot cfgs factory)) ideType =
     ide_adapter (run (ls1 ++ ls2) (boot cfgs factory)) ideType).
Proof.
  split; [reflexivity|].
  split; [vm_compute; reflexivity|].
  split; [reflexivity|].
  split; [|split].
  - intros l s ideType. unfold ide_adapter. now rewrite step_ide_factory.
  - intros cfgs factory ls ideType. unfold ide_adapter.
    now rewrite run_ide_factory.
  - intros cfgs factory ls1 ls2 ideType. unfold ide_adapter.
    now rewrite !run_ide_factory.
Qed.

End IDEFacts.

(* ===================================================================== *)
(** ** registry/app/api/controller/metadata/utils.go: the other helpers *)
(* ===================================================================== *)

Module MetadataMore.
Import Metadata.

Local Open Scope list_scope.

(** The [for _, item := range slice { if item == x { return true } }]
    loop that [IsRepoTypeValid], [IsUpstreamSourceValid] and
    [IsPackageTypeValid] each run over their own slice. *)
Fixpoint range_has (slice : list string) (x : string) : bool :=
  match slice with
  | [] => false
  | item :: rest => if String.eqb item x then true else range_has rest x
  end.

Definition GetSortByOrder (sortOrder : string) : string :=
  let defaultSortOrder := "ASC" in
  let decreasingSortOrder := "DESC" in
  if Nat.eqb (String.length sortOrder) 0 then defaultSortOrder
  else if String.eqb sortOrder decreasingSortOrder then decreasingSortOrder
  else defaultSortOrder.

Definition ValidatePackageTypeChange (fromDB newPackage : string) : option error :=
  if Nat.ltb 0 (String.length fromDB) && Nat.ltb 0 (String.length newPackage)
     && String.eqb fromDB newPackage
  then None
  else Some (errors_New "package type change is not allowed").

Definition ValidateRepoTypeChange (fromDB newRepo : string) : option error :=
  if Nat.ltb 0 (String.length fromDB) && Nat.ltb 0 (String.length newRepo)
     && String.eqb fromDB newRepo
  then None
  else Some (errors_New "registry type change is not allowed").

Definition ValidateIdentifierChange (fromDB newIdentifier : string) : option error :=
  if Nat.ltb 0 (String.length fromDB) && Nat.ltb 0 (String.length newIdentifier)
     && String.eqb fromDB newIdentifier
  then None
  else Some (errors_New "registry identifier change is not allowed").

Section Api.

(** Declared outside of src/: the string constants of the generated API
    contract (package artifact), [commons.IsEmpty] on a slice of strings
    and on a string, and [GetRepoURLWithoutProtocol], which rests on
    [net/url] and [path]. *)
Variable RegistryTypeUPSTREAM RegistryTypeVIRTUAL : string.
Variable PackageTypeDOCKER PackageTypeHELM PackageTypeMAVEN : string.
Variable UpstreamConfigSourceCustom UpstreamConfigSourceDockerhub : string.
Variable IsEmpty_slice : list string -> bool.
Variable IsEmpty_string : string -> bool.
Variable GetRepoURLWithoutProtocol : string -> string -> string -> string.

Definition validRepositoryTypes : list string :=
  [RegistryTypeUPSTREAM; RegistryTypeVIRTUAL].

Definition validPackageTypes : list string :=
  [PackageTypeDOCKER; PackageTypeHELM; PackageTypeMAVEN].

Definition validUpstreamSources : list string :=
  [UpstreamConfigSourceCustom; UpstreamConfigSourceDockerhub].

Definition IsRepoTypeValid (repoType : string) : bool :=
  range_has validRepositoryTypes repoType.

Definition IsUpstreamSourceValid (source : string) : bool :=
  range_has validUpstreamSources source.

Definition IsPackageTypeValid (packageType : string) : bool :=
  range_has validPackageTypes packageType.

Fixpoint IsPackageTypesValid (packageTypes : list string) : bool :=
  match packageTypes with
  | [] => true
  | item :: rest =>
      if negb (IsPackageTypeValid item) then false else IsPackageTypesValid rest
  end.

Definition ValidatePackageTypes (packageTypes : list string) : option error :=
  if IsEmpty_slice packageTypes || IsPackageTypesValid packageTypes then None
  else Some (errors_New "invalid package type").

Definition ValidatePackageType (packageType : string) : option error :=
  if Nat.eqb (String.length packageType) 0 || IsPackageTypeValid packageType
  then None
  else Some (errors_New "invalid package type").

Definition ValidateRepoType (repoType : string) : option error :=
  if Nat.eqb (String.length repoType) 0 || IsRepoTypeValid repoType then None
  else Some (errors_New "invalid repository type").

Definition ValidateUpstreamSource (source : string) : option error :=
  if Nat.eqb (String.length source) 0 || IsUpstreamSourceValid source then None
  else Some (errors_New "invalid upstream proxy source").

Definition GetRegRef (parentRef regIdentifier : string) : string * option error :=
  let result := "" in
  if IsEmpty_string parentRef || IsEmpty_string regIdentifier then
    (result, Some (errors_New "parentRef or regIdentifier is empty"))
  else ((parentRef ++ "/" ++ regIdentifier)%string, None).

Definition GetDockerPullCommand
    (rootIdentifier registry image tag registryURL : string) : string :=
  ("docker pull " ++ GetRepoURLWithoutProtocol rootIdentifier registry registryURL
     ++ "/" ++ image ++ ":" ++ tag)%string.

Definition GetHelmPullCommand
    (rootIdentifier registry image tag registryURL : string) : string :=
  ("helm install " ++ GetRepoURLWithoutProtocol rootIdentifier registry registryURL
     ++ "/" ++ image ++ ":" ++ tag)%string.

Definition GetPullCommand
    (rootIdentifier registry image tag packageType registryURL : string) : string :=
  if String.eqb packageType "DOCKER" then
    GetDockerPullCommand rootIdentifier registry image tag registryURL
  else if String.eqb packageType "HELM" then
    GetHelmPullCommand rootIdentifier registry image tag registryURL
  else "".

End Api.

End MetadataMore.

Module MetadataMoreFacts.
Import Regexp RegexpFacts Metadata MetadataFacts MetadataMore.

Local Open Scope list_scope.

(** *** Identifiers, read from left to right *)

Definition is_alnum (c : ascii) : bool :=
  in_class [("a", "z"); ("0", "9")]%char c.

Definition is_separator (c : ascii) : bool :=
  in_class [(".", "."); ("_", "_"); ("-", "-")]%char c.

(** A scan of the word that remembers whether the character before was a
    letter or digit: a letter or digit is always fine, a separator only
    after one, anything else never; the word must end after one. *)
Fixpoint scan (after_alnum : bool) (w : list ascii) : bool :=
  match w with
  | [] => after_alnum
  | c :: rest =>
      if is_alnum c then scan true rest
      else if is_separator c then after_alnum && scan false rest
      else false
  end.

Arguments is_alnum : simpl never.
Arguments is_separator : simpl never.

Lemma separator_not_alnum c : is_separator c = true -> is_alnum c = false.
Proof.
  destruct c as [[] [] [] [] [] [] [] []]; vm_compute; congruence.
Qed.

Lemma class_inv ranges w :
  matches (Class ranges) w -> exists c, w = [c] /\ in_class ranges c = true.
Proof. intros H. inversion H; subst. eauto. Qed.

(** Induction over the iterations of a star. *)
Lemma star_induction r (P : list ascii -> Prop) :
  P [] ->
  (forall s1 s2, matches r s1 -> matches (Star r) s2 -> P s2 -> P (s1 ++ s2)) ->
  forall w, matches (Star r) w -> P w.
Proof.
  intros Hnil Happ w H.
  remember (Star r) as r' eqn:Hr.
  induction H as [| | | | | |r0 s1 s2 H1 _ H2 IH2|]; try discriminate.
  - exact Hnil.
  - injection Hr as ->. apply Happ; auto.
Qed.

Lemma star_alnum_all w : matches (Star alnum) w -> forallb is_alnum w = true.
Proof.
  revert w.
  apply (star_induction alnum (fun w => forallb is_alnum w = true));
    [reflexivity|].
  intros s1 s2 H1 _ IH. apply class_inv in H1 as (c & -> & Hc).
  change (is_alnum c = true) in Hc. simpl. now rewrite Hc.
Qed.

Lemma plus_alnum_inv w :
  matches (Plus alnum) w ->
  exists c rest, w = c :: rest /\ is_alnum c = true /\ forallb is_alnum rest = true.
Proof.
  intros H. apply plus_inv in H as (s1 & s2 & -> & H1 & H2).
  apply class_inv in H1 as (c & -> & Hc).
  change (is_alnum c = true) in Hc.
  exists c, s2. repeat split; [exact Hc|now apply star_alnum_all].
Qed.

Lemma scan_alnum_prefix w1 w2 :
  forallb is_alnum w1 = true -> scan true (w1 ++ w2) = scan true w2.
Proof.
  induction w1 as [|c w1 IH]; simpl; [reflexivity|].
  intros H. apply andb_true_iff in H as [Hc H]. rewrite Hc. now apply IH.
Qed.

Lemma scan_tail w :
  matches (Star (Cat separator (Plus alnum))) w -> scan true w = true.
Proof.
  revert w.
  apply (star_induction (Cat separator (Plus alnum))
           (fun w => scan true w = true)); [reflexivity|].
  intros s1 s2 H1 _ IH.
  apply cat_inv in H1 as (t1 & t2 & -> & Hsep & Hplus).
  apply class_inv in Hsep as (c & -> & Hc).
  apply plus_alnum_inv in Hplus as (x & rest & -> & Hx & Hrest).
  change (is_separator c = true) in Hc. simpl.
  rewrite (separator_not_alnum c Hc), Hc, Hx. simpl.
  now rewrite scan_alnum_prefix.
Qed.

Lemma matches_scan w : matches identifierRegex w -> scan false w = true.
Proof.
  intros H. apply cat_inv in H as (t1 & t2 & -> & Hplus & Htail).
  apply plus_alnum_inv in Hplus as (x & rest & -> & Hx & Hrest).
  simpl. rewrite Hx, scan_alnum_prefix by assumption.
  now apply scan_tail.
Qed.

Lemma scan_matches w :
  (scan true w = true ->
   matches (Cat (Star alnum) (Star (Cat separator (Plus alnum)))) w) /\
  (scan false w = true -> matches identifierRegex w).
Proof.
  induction w as [|c w [IHtrue IHfalse]]; simpl.
  - split; [|discriminate]. intros _.
    exact (MCat _ _ [] [] (MStarNil _) (MStarNil _)).
  - destruct (is_alnum c) eqn:Hc.
    + assert (Hboth : scan true w = true ->
                forall head, (head = Star alnum \/ head = Plus alnum) ->
                matches (Cat head (Star (Cat separator (Plus alnum)))) (c :: w)).
      { intros Hw head Hhead.
        apply IHtrue in Hw. apply cat_inv in Hw as (a & b & -> & Ha & Hb).
        change (c :: a ++ b) with ((c :: a) ++ b). apply MCat; [|exact Hb].
        change (c :: a) with ([c] ++ a).
        destruct Hhead as [-> | ->];
          [apply MStarApp | apply MPlus]; auto; now constructor. }
      split; intros Hw; apply Hboth; auto.
    + destruct (is_separator c) eqn:Hs; [|split; discriminate].
      split; [|discriminate]. simpl. intros Hw.
      apply IHfalse in Hw. apply cat_inv in Hw as (a & b & -> & Ha & Hb).
      apply (MCat _ _ [] (c :: a ++ b) (MStarNil _)).
      change (c :: a ++ b) with (([c] ++ a) ++ b).
      apply MStarApp; [|exact Hb].
      apply MCat; [now constructor|exact Ha].
Qed.

Lemma scan_allowed b w :
  scan b w = true -> forallb (fun c => is_alnum c || is_separator c) w = true.
Proof.
  revert b. induction w as [|c w IH]; intros b; simpl; [reflexivity|].
  destruct (is_alnum c); simpl; [apply IH|].
  destruct (is_separator c); simpl; [|discriminate].
  intros H. apply andb_true_iff in H as [_ H]. now apply (IH false).
Qed.

Lemma scan_ends_alnum b w d :
  scan b w = true -> w <> [] -> is_alnum (List.last w d) = true.
Proof.
  revert b. induction w as [|c w IH]; intros b; simpl; [congruence|].
  intros H _. destruct w as [|x w].
  - destruct (is_alnum c); [reflexivity|].
    simpl in H. destruct (is_separator c); [|discriminate].
    now rewrite andb_false_r in H.
  - destruct (is_alnum c).
    + now apply (IH true).
    + destruct (is_separator c); [|discriminate].
      apply andb_true_iff in H as [_ H]. now apply (IH false).
Qed.

Lemma scan_no_double_separator b w : forall w1 c1 c2 w2,
  scan b w = true -> w = w1 ++ c1 :: c2 :: w2 ->
  is_separator c1 = true -> is_alnum c2 = true.
Proof.
  revert b. induction w as [|c w IH]; intros b w1 c1 c2 w2 H Heq Hsep.
  - now destruct w1.
  - destruct w1 as [|x w1]; simpl in Heq; injection Heq as -> ->.
    + simpl in H. rewrite (separator_not_alnum c1 Hsep), Hsep in H.
      apply andb_true_iff in H as [_ H].
      destruct (is_alnum c2); [reflexivity|].
      now destruct (is_separator c2).
    + simpl in H. destruct (is_alnum x).
      * now apply (IH true w1 c1 c2 w2).
      * destruct (is_separator x); [|discriminate].
        apply andb_true_iff in H as [_ H]. now apply (IH false w1 c1 c2 w2).
Qed.

(** X1. [ValidateIdentifier] returns nil exactly on the strings a scan from
    left to right accepts; so an accepted identifier is made of lower-case
    letters, digits and the separators [._-] only, begins and ends with a
    letter or digit, and has a letter or digit after every separator. *)
Theorem ValidateIdentifier_scan (identifier : string) :
  let w := list_ascii_of_string identifier in
  (ValidateIdentifier identifier = None <-> scan false w = true) /\
  (ValidateIdentifier identifier = None ->
   forallb (fun c => is_alnum c || is_separator c) w = true /\
   is_alnum (List.hd "."%char w) = true /\
   is_alnum (List.last w "."%char) = true /\
   forall w1 c1 c2 w2,
     w = w1 ++ c1 :: c2 :: w2 -> is_separator c1 = true -> is_alnum c2 = true).
Proof.
  intros w.
  assert (Hiff : ValidateIdentifier identifier = None <-> scan false w = true).
  { rewrite ValidateIdentifier_nil_iff. split.
    - intros [_ H]. now apply matches_scan.
    - intros H. split; [|now apply scan_matches].
      intros ->. discriminate. }
  split; [exact Hiff|].
  intros Hvalid. apply Hiff in Hvalid.
  split; [now apply (scan_allowed false)|].
  split; [|split].
  - destruct w as [|c rest]; [discriminate|]. simpl in *.
    destruct (is_alnum c); [reflexivity|].
    now destruct (is_separator c).
  - apply (scan_ends_alnum false); [assumption|].
    intros Hnil. rewrite Hnil in Hvalid. discriminate.
  - intros w1 c1 c2 w2. now apply (scan_no_double_separator false).
Qed.

(** *** Registry references *)

Lemma In_separator_append (c : ascii) (p r : string) :
  In c (list_ascii_of_string (p ++ String c r)%string).
Proof. induction p as [|x p IH]; simpl; auto. Qed.

Lemma append_separator_inj (c : ascii) (p1 : string) : forall p2 r1 r2,
  ~ In c (list_ascii_of_string r1) -> ~ In c (list_ascii_of_string r2) ->
  (p1 ++ String c r1 = p2 ++ String c r2)%string ->
  p1 = p2 /\ r1 = r2.
Proof.
  induction p1 as [|x p1 IH]; intros [|y p2] r1 r2 H1 H2 Heq; simpl in Heq.
  - injection Heq as ->. now split.
  - injection Heq as -> ->. exfalso. apply H1, In_separator_append.
  - injection Heq as -> <-. exfalso. apply H2, In_separator_append.
  - injection Heq as -> Heq. destruct (IH p2 r1 r2 H1 H2 Heq) as [-> ->].
    now split.
Qed.

Lemma valid_identifier_no_slash (identifier : string) :
  ValidateIdentifier identifier = None ->
  ~ In "/"%char (list_ascii_of_string identifier).
Proof.
  intros Hvalid Hin.
  apply ValidateIdentifier_scan in Hvalid as (Hallowed & _).
  rewrite forallb_forall in Hallowed. specialize (Hallowed _ Hin).
  vm_compute in Hallowed. discriminate.
Qed.

(** X2. A registry reference names one registry: when [GetRegRef] returns
    the same reference for two parents and two identifiers that
    [ValidateIdentifier] accepts, the parents are equal and the identifiers
    are equal. *)
Theorem GetRegRef_injective
    (IsEmpty : string -> bool) (parent1 id1 parent2 id2 ref : string) :
  GetRegRef IsEmpty parent1 id1 = (ref, None) ->
  GetRegRef IsEmpty parent2 id2 = (ref, None) ->
  ValidateIdentifier id1 = None -> ValidateIdentifier id2 = None ->
  parent1 = parent2 /\ id1 = id2.
Proof.
  unfold GetRegRef. intros H1 H2 Hv1 Hv2.
  destruct (IsEmpty parent1 || IsEmpty id1); [discriminate|].
  destruct (IsEmpty parent2 || IsEmpty id2); [discriminate|].
  injection H1 as <-. injection H2 as H2.
  apply (append_separator_inj "/"%char); auto using valid_identifier_no_slash.
Qed.

Lemma GetRegRef_injective_witness :
  let IsEmpty := fun s => Nat.eqb (String.length s) 0 in
  GetRegRef IsEmpty "acme/tools" "registry-1" = ("acme/tools/registry-1", None) /\
  ("acme/tools" = "acme/tools" /\ "registry-1" = "registry-1").
Proof.
  split; [reflexivity|].
  apply (GetRegRef_injective (fun s => Nat.eqb (String.length s) 0)
           "acme/tools" "registry-1" "acme/tools" "registry-1"
           "acme/tools/registry-1"); reflexivity.
Defined.

(** *** Sorting *)

Definition sort_columns : list string :=
  [ "name"; "updated_at"; "size"; "artifact_count"; "download_count";
    "image_name"; "created_at" ].

Lemma columns_within (cols slice : list string) (m : gmap string string) :
  forallb (fun k => existsb (String.eqb (map_index m k)) cols)
          ("createdAt" :: slice) = true ->
  forall target, In (map_index m (sortKey slice target)) cols.
Proof.
  intros Hall target.
  rewrite forallb_forall in Hall.
  assert (Hk : In (sortKey slice target) ("createdAt" :: slice)).
  { destruct (sortKey_cases slice target) as [[Hin ->]|[_ ->]];
      [now right | now left]. }
  specialize (Hall _ Hk).
  apply existsb_exists in Hall as (col & Hcol & Heq).
  apply String.eqb_eq in Heq. now rewrite Heq.
Qed.

(** X3. Whatever sort field and resource a request carries,
    [GetSortByField] returns one of seven fixed column names; the text of
    the request never reaches the result. *)
Theorem GetSortByField_column (sortByField resource : string) :
  In (GetSortByField sortByField resource) sort_columns.
Proof.
  unfold GetSortByField.
  destruct (String.eqb resource RepositoryResource);
    [now apply columns_within|].
  destruct (String.eqb resource ArtifactResource);
    [now apply columns_within|].
  destruct (String.eqb resource ArtifactVersionResource);
    [now apply columns_within|].
  simpl. tauto.
Qed.

(** X4. [GetSortByOrder] returns DESC for the string DESC exactly and ASC
    for every other string, the empty one and lower-case desc included;
    applying it twice is applying it once. *)
Theorem GetSortByOrder_cases (sortOrder : string) :
  (GetSortByOrder sortOrder = "DESC" <-> sortOrder = "DESC") /\
  (GetSortByOrder sortOrder = "ASC" <-> sortOrder <> "DESC") /\
  GetSortByOrder (GetSortByOrder sortOrder) = GetSortByOrder sortOrder.
Proof.
  assert (Hcases : GetSortByOrder sortOrder =
                   if String.eqb sortOrder "DESC" then "DESC" else "ASC").
  { unfold GetSortByOrder.
    destruct (Nat.eqb_spec (String.length sortOrder) 0) as [Hlen|Hlen];
      [|reflexivity].
    apply length_zero_empty in Hlen. now subst. }
  rewrite Hcases. clear Hcases.
  destruct (String.eqb_spec sortOrder "DESC") as [Heq|Hne]; [subst sortOrder|].
  - split; [tauto|]. split; [|reflexivity].
    split; [discriminate|]. intros H. now contradiction H.
  - split; [split; [discriminate|congruence]|].
    split; [tauto|reflexivity].
Qed.

(** *** Change and type validation *)

Lemma unchanged_iff (a b : string) :
  Nat.ltb 0 (String.length a) && Nat.ltb 0 (String.length b) && String.eqb a b
    = true <-> a = b /\ a <> "".
Proof.
  rewrite !andb_true_iff, String.eqb_eq, !Nat.ltb_lt. split.
  - intros [[Ha _] ->]. split; [reflexivity|].
    intros ->. simpl in Ha. lia.
  - intros [-> Hne]. destruct b; [congruence|]. simpl. repeat split; lia.
Qed.

(** X5. The three change validators return nil exactly when the stored and
    the new value are equal and not empty: a change is refused, and so is
    an empty value that stays empty. *)
Theorem change_validators (fromDB new : string) :
  (ValidatePackageTypeChange fromDB new = None <-> fromDB = new /\ fromDB <> "") /\
  (ValidateRepoTypeChange fromDB new = None <-> fromDB = new /\ fromDB <> "") /\
  (ValidateIdentifierChange fromDB new = None <-> fromDB = new /\ fromDB <> "").
Proof.
  unfold ValidatePackageTypeChange, ValidateRepoTypeChange,
    ValidateIdentifierChange.
  rewrite <- unchanged_iff.
  destruct (_ && _); repeat split; congruence.
Qed.

Lemma range_has_In slice x : range_has slice x = true <-> In x slice.
Proof.
  induction slice as [|item rest IH]; simpl; [split; [discriminate|tauto]|].
  destruct (String.eqb_spec item x) as [->|Hne].
  - split; auto.
  - rewrite IH. split; [auto|]. intros [H|H]; [congruence|assumption].
Qed.

Lemma IsPackageTypesValid_Forall (D H M : string) (l : list string) :
  IsPackageTypesValid D H M l = true <->
  Forall (fun p => In p (validPackageTypes D H M)) l.
Proof.
  induction l as [|p l IH]; simpl.
  - split; [constructor|reflexivity].
  - unfold IsPackageTypeValid.
    destruct (range_has (validPackageTypes D H M) p) eqn:Hp; simpl.
    + rewrite IH. apply range_has_In in Hp. split.
      * now constructor.
      * intros Hall. now inversion Hall.
    + split; [discriminate|]. intros Hall. inversion Hall as [|? ? Hin _]; subst.
      assert (Hp' : range_has (validPackageTypes D H M) p = true)
        by (apply range_has_In; exact Hin).
      congruence.
Qed.

Lemma or_empty_iff (s : string) (b : bool) :
  Nat.eqb (String.length s) 0 || b = true <-> s = "" \/ b = true.
Proof.
  rewrite orb_true_iff, Nat.eqb_eq, length_zero_empty. reflexivity.
Qed.

(** X6. Type validation.  A single package type, repository type or
    upstream source passes when it is empty or one of the valid values; a
    list of package types passes exactly when every element is a valid
    value, so the empty string passes alone and fails inside a list. *)
Theorem type_validators
    (D H M U V C K : string) (IsEmpty : list string -> bool) :
  (forall l, IsEmpty l = true -> l = []) ->
  (forall p, ValidatePackageType D H M p = None <-> p = "" \/ In p [D; H; M]) /\
  (forall r, ValidateRepoType U V r = None <-> r = "" \/ In r [U; V]) /\
  (forall u, ValidateUpstreamSource C K u = None <-> u = "" \/ In u [C; K]) /\
  (forall l, ValidatePackageTypes D H M IsEmpty l = None <->
             Forall (fun p => In p [D; H; M]) l) /\
  (D <> "" -> H <> "" -> M <> "" ->
   ValidatePackageType D H M "" = None /\
   ValidatePackageTypes D H M IsEmpty [""] <> None).
Proof.
  intros HIsEmpty.
  assert (Hsingle : forall slice x,
            (if Nat.eqb (String.length x) 0 || range_has slice x
             then @None error else Some (errors_New "invalid package type")) = None
            <-> x = "" \/ In x slice).
  { intros slice x. rewrite <- range_has_In, <- or_empty_iff.
    destruct (_ || _); split; congruence. }
  assert (Hlist : forall l, ValidatePackageTypes D H M IsEmpty l = None <->
                            Forall (fun p => In p [D; H; M]) l).
  { intros l. unfold ValidatePackageTypes.
    change [D; H; M] with (validPackageTypes D H M).
    rewrite <- IsPackageTypesValid_Forall.
    destruct (IsEmpty l) eqn:He; simpl.
    - apply HIsEmpty in He. subst. simpl. tauto.
    - destruct (IsPackageTypesValid D H M l); split; congruence. }
  split; [intros p; apply Hsingle|].
  split.
  { intros r. unfold ValidateRepoType, IsRepoTypeValid.
    rewrite <- range_has_In, <- or_empty_iff.
    destruct (_ || _); split; congruence. }
  split.
  { intros u. unfold ValidateUpstreamSource, IsUpstreamSourceValid.
    rewrite <- range_has_In, <- or_empty_iff.
    destruct (_ || _); split; congruence. }
  split; [exact Hlist|].
  intros HD HH HM. split; [reflexivity|].
  rewrite Hlist. intros Hall. inversion Hall as [|? ? Hin _]; subst.
  simpl in Hin. intuition congruence.
Qed.

Lemma type_validators_witness :
  let IsEmpty := fun l : list string => match l with [] => true | _ => false end in
  ValidatePackageType "DOCKER" "HELM" "MAVEN" "" = None /\
  ValidatePackageTypes "DOCKER" "HELM" "MAVEN" IsEmpty [""] <> None.
Proof.
  apply (type_validators "DOCKER" "HELM" "MAVEN" "UPSTREAM" "VIRTUAL"
           "Custom" "Dockerhub"
           (fun l => match l with [] => true | _ => false end));
    try discriminate.
  intros [|x l]; [reflexivity|discriminate].
Defined.

(** X7. [GetPullCommand] gives a command for the package types DOCKER and
    HELM, spelled so, and the empty string for every other package type. *)
Theorem GetPullCommand_empty
    (repoURL : string -> string -> string -> string)
    (rootIdentifier registry image tag packageType registryURL : string) :
  GetPullCommand repoURL rootIdentifier registry image tag packageType registryURL
    = "" <->
  packageType <> "DOCKER" /\ packageType <> "HELM".
Proof.
  unfold GetPullCommand, GetDockerPullCommand, GetHelmPullCommand.
  destruct (String.eqb_spec packageType "DOCKER") as [->|Hd].
  - simpl. split; [discriminate|]. intros [H _]. now contradiction H.
  - destruct (String.eqb_spec packageType "HELM") as [->|Hh].
    + simpl. split; [discriminate|]. intros [_ H]. now contradiction H.
    + split; auto.
Qed.

End MetadataMoreFacts.

(* ===================================================================== *)
(** ** The order and the shared parts of the wiring *)
(* ===================================================================== *)

Module WireOrder.
Import Wire WireFacts.

Local Open Scope list_scope.

(** The place of the statement that binds [x]. *)
Fixpoint position (x : string) (bs : list Binding) : option nat :=
  match bs with
  | [] => None
  | b :: rest =>
      if String.eqb (var b) x then Some 0 else option_map S (position x rest)
  end.

Definition rank (x : string) : option nat := position x initSystem.

(** Every argument of every statement is a parameter of [initSystem] or is
    bound by a statement before it. *)
Definition bound_before (b : Binding) (a : string) : bool :=
  match rank a, rank (var b) with
  | None, _ => mem a ["ctx"; "config"]
  | Some j, Some i => (j <? i)%nat
  | Some _, None => false
  end.

Definition ordered : bool :=
  forallb (fun b => forallb (bound_before b) (args b)) initSystem.

(** Every statement is the one [binding_of] finds for its variable. *)
Definition list_eqb (l1 l2 : list string) : bool :=
  bool_decide (l1 = l2).

Definition found : bool :=
  forallb (fun b => list_eqb (args_of (var b)) (args b)) initSystem.

Definition in_package (pkg : string) (b : Binding) : bool :=
  String.eqb (package_of (provider b)) pkg.

End WireOrder.

Module WireOrderFacts.
Import Wire WireFacts WireOrder.

Local Open Scope list_scope.

Lemma position_In x bs b :
  In b bs -> var b = x -> exists i, position x bs = Some i.
Proof.
  induction bs as [|b' bs IH]; simpl; [tauto|].
  intros Hin Hvar. destruct (String.eqb (var b') x) eqn:Heq; [now exists 0|].
  destruct Hin as [->|Hin].
  - rewrite Hvar, String.eqb_refl in Heq. discriminate.
  - destruct (IH Hin Hvar) as [i ->]. now exists (S i).
Qed.

Lemma binding_of_In x b : binding_of x = Some b -> In b initSystem /\ var b = x.
Proof.
  unfold binding_of. intros H. apply find_some in H as [Hin Heq].
  now apply String.eqb_eq in Heq.
Qed.

Lemma direct_binding x v :
  direct x v -> exists b, binding_of x = Some b /\ In v (args b).
Proof.
  unfold direct, args_of. destruct (binding_of x) as [b|]; [|intros []].
  intros H. now exists b.
Qed.

Lemma ordered_true : ordered = true.
Proof. vm_compute. reflexivity. Qed.

Lemma found_true : found = true.
Proof. vm_compute. reflexivity. Qed.

Lemma direct_rank x v :
  direct x v ->
  exists i, rank x = Some i /\
    match rank v with
    | Some j => j < i
    | None => v = "ctx" \/ v = "config"
    end.
Proof.
  intros Hd. apply direct_binding in Hd as (b & Hb & Hv).
  apply binding_of_In in Hb as [Hin Hvar].
  destruct (position_In x initSystem b Hin Hvar) as [i Hi].
  exists i. split; [exact Hi|].
  pose proof ordered_true as Hord. unfold ordered in Hord.
  rewrite forallb_forall in Hord. specialize (Hord b Hin).
  rewrite forallb_forall in Hord. specialize (Hord v Hv).
  unfold bound_before in Hord. rewrite Hvar in Hord. fold (rank x) in Hi.
  rewrite Hi in Hord. destruct (rank v) as [j|].
  - now apply Nat.ltb_lt in Hord.
  - apply mem_In in Hord. simpl in Hord. intuition.
Qed.

Lemma depends_rank x v :
  depends x v ->
  exists i, rank x = Some i /\
    match rank v with
    | Some j => j < i
    | None => v = "ctx" \/ v = "config"
    end.
Proof.
  induction 1 as [x v Hd|x y v Hd _ (k & Hk & Hv)]; [now apply direct_rank|].
  destruct (direct_rank x y Hd) as (i & Hi & Hy). rewrite Hk in Hy.
  exists i. split; [exact Hi|].
  destruct (rank v); [lia|exact Hv].
Qed.

Lemma depends_direct_r x y v : depends x y -> direct y v -> depends x v.
Proof.
  induction 1 as [x y Hd|x z y Hd _ IH]; intros Hv.
  - exact (depends_via x y v Hd (depends_direct y v Hv)).
  - exact (depends_via x z v Hd (IH Hv)).
Qed.

(** The pass of [dependencies] only collects what [x] depends on. *)
Lemma collected_depends x bs : forall needed,
  (forall b, In b bs -> args_of (var b) = args b) ->
  (forall y, In y needed -> y = x \/ depends x y) ->
  forall y,
    In y (fold_right
            (fun b k needed =>
               if mem (var b) needed then k (args b ++ needed) else k needed)
            (fun needed => needed) bs needed) ->
    y = x \/ depends x y.
Proof.
  induction bs as [|b bs IH]; intros needed Hbs Hneeded y; simpl; [apply Hneeded|].
  assert (Hbs' : forall b', In b' bs -> args_of (var b') = args b')
    by (intros b' Hb'; apply Hbs; now right).
  destruct (mem (var b) needed) eqn:Hmem; apply IH; auto.
  intros a Ha. apply in_app_iff in Ha as [Ha|Ha]; [|now apply Hneeded].
  right. apply mem_In in Hmem.
  assert (Hdirect : direct (var b) a).
  { unfold direct. rewrite (Hbs b) by now left. exact Ha. }
  destruct (Hneeded _ Hmem) as [Heq|Hdep].
  - rewrite <- Heq. now apply depends_direct.
  - now apply (depends_direct_r x (var b)).
Qed.

Lemma dependencies_depends x y :
  In y (dependencies x) -> y = x \/ depends x y.
Proof.
  unfold dependencies. apply collected_depends.
  - intros b Hb. apply in_rev in Hb.
    pose proof found_true as Hfound. unfold found in Hfound.
    rewrite forallb_forall in Hfound. specialize (Hfound b Hb).
    now apply bool_decide_eq_true_1 in Hfound.
  - intros z [<-|[]]. now left.
Qed.

(** X11. [initSystem] builds its components in dependency order: whatever a
    component depends on is a parameter of [initSystem] or is bound by an
    earlier statement, so no component depends on itself; no variable is
    bound twice; and every component that is built is the returned system
    or something the returned system depends on. *)
Theorem initSystem_ordered :
  (forall x v, depends x v ->
     exists i, rank x = Some i /\
       match rank v with
       | Some j => j < i
       | None => v = "ctx" \/ v = "config"
       end) /\
  (forall x, ~ depends x x) /\
  NoDup (map var initSystem) /\
  (forall b, In b initSystem ->
     var b = "serverSystem" \/ depends "serverSystem" (var b)).
Proof.
  split; [exact depends_rank|]. split; [|split].
  - intros x Hx. destruct (depends_rank x x Hx) as (i & Hi & Hlt).
    rewrite Hi in Hlt. lia.
  - apply (bool_decide_unpack (NoDup (map var initSystem))).
    vm_compute. exact I.
  - assert (Hall : forallb (fun b => mem (var b) (dependencies "serverSystem"))
                     initSystem = true) by (vm_compute; reflexivity).
    rewrite forallb_forall in Hall. intros b Hb.
    apply dependencies_depends, mem_In. now apply Hall.
Qed.

(** X12. One database and one events system.  [initSystem] opens the
    database once and every other provider of the two database packages is
    handed that handle as its first argument; it builds the events system
    once, every reader factory is built from it alone, and so is every
    other component the events system is passed to. *)
Theorem shared_database_and_events :
  map var (calls "database.ProvideDatabase") = ["db"] /\
  (forall b, In b initSystem ->
     in_package "database" b || in_package "database2" b = true ->
     var b = "db" \/ List.hd "" (args b) = "db") /\
  map var (calls "events.ProvideSystem") = ["eventsSystem"] /\
  (forall b, In b initSystem ->
     function_of (provider b) = "ProvideReaderFactory" ->
     args b = ["eventsSystem"]) /\
  (forall b, In b initSystem ->
     In "eventsSystem" (args b) -> args b = ["eventsSystem"]).
Proof.
  split; [reflexivity|]. split; [|split; [reflexivity|split]].
  - assert (Hall : forallb
              (fun b => negb (in_package "database" b || in_package "database2" b)
                        || String.eqb (var b) "db"
                        || String.eqb (List.hd "" (args b)) "db")
              initSystem = true) by (vm_compute; reflexivity).
    rewrite forallb_forall in Hall. intros b Hb Hpkg.
    specialize (Hall b Hb). rewrite Hpkg in Hall. simpl in Hall.
    apply orb_true_iff in Hall as [H|H]; apply String.eqb_eq in H; auto.
  - assert (Hall : forallb
              (fun b => negb (String.eqb (function_of (provider b))
                                "ProvideReaderFactory")
                        || list_eqb (args b) ["eventsSystem"])
              initSystem = true) by (vm_compute; reflexivity).
    rewrite forallb_forall in Hall. intros b Hb Hfn.
    specialize (Hall b Hb). rewrite Hfn in Hall. simpl in Hall.
    now apply bool_decide_eq_true_1 in Hall.
  - assert (Hall : forallb
              (fun b => negb (mem "eventsSystem" (args b))
                        || list_eqb (args b) ["eventsSystem"])
              initSystem = true) by (vm_compute; reflexivity).
    rewrite forallb_forall in Hall. intros b Hb Hin.
    specialize (Hall b Hb). apply mem_In in Hin. rewrite Hin in Hall.
    simpl in Hall. now apply bool_decide_eq_true_1 in Hall.
Qed.

End WireOrderFacts.

(* ===================================================================== *)
(** ** web/src/cde-gitness: the filter options and the listing request *)
(* ===================================================================== *)

Module Listing.
Import Constants.

Local Open Scope list_scope.

Inductive EnumGitspaceCodeRepoType : Type :=
| GITHUB
| GITLAB
| HARNESS_CODE
| BITBUCKET
| REPO_UNKNOWN
| GITNESS.

Definition EnumGitspaceCodeRepoType_value (t : EnumGitspaceCodeRepoType) : string :=
  match t with
  | GITHUB => "github"
  | GITLAB => "gitlab"
  | HARNESS_CODE => "harness_code"
  | BITBUCKET => "bitbucket"
  | REPO_UNKNOWN => "unknown"
  | GITNESS => "gitness"
  end.

Inductive GitspaceOwnerType : Type :=
| SELF
| ALL.

Definition GitspaceOwnerType_value (t : GitspaceOwnerType) : string :=
  match t with
  | SELF => "self"
  | ALL => "all"
  end.

Inductive GitspaceRegion : Type :=
| USEast
| USWest
| Europe
| Australia.

Definition GitspaceRegion_value (r : GitspaceRegion) : string :=
  match r with
  | USEast => "us-east"
  | USWest => "us-west"
  | Europe => "Europe"
  | Australia => "Australia"
  end.

Record GitspaceStatusTypesListItem : Type := {
  status_label : string;
  status_value : GitspaceStatus
}.

Definition GitspaceStatusTypes (getString : string -> string)
  : list GitspaceStatusTypesListItem :=
  [ {| status_label := getString "cde.gitspaceStatus.error";
       status_value := ERROR |};
    {| status_label := getString "cde.gitspaceStatus.running";
       status_value := RUNNING |};
    {| status_label := getString "cde.gitspaceStatus.stopped";
       status_value := STOPPED |} ].

Record GitspaceOwnerTypeListItem : Type := {
  owner_label : string;
  owner_value : GitspaceOwnerType
}.

Definition GitspaceOwnerTypes (getString : string -> string)
  : list GitspaceOwnerTypeListItem :=
  [ {| owner_label := getString "cde.gitspaceOwners.allGitspaces";
       owner_value := ALL |};
    {| owner_label := getString "cde.gitspaceOwners.myGitspaces";
       owner_value := SELF |} ].

(** The values that occur in the query parameters of [useLisitngApi]. *)
Inductive Value : Type :=
| VUndefined
| VString (s : string)
| VNumber (n : Z)
| VArray (items : list string).

(** An object is a map from its keys to their values, and
    [{...o, k: v}] is [<[k := v]> o]. *)

Definition truthy (v : Value) : bool :=
  match v with
  | VUndefined => false
  | VString s => negb (String.eqb s "")
  | VNumber n => negb (n =? 0)%Z
  | VArray _ => true
  end.

(** [v || undefined] *)
Definition or_undefined (v : Value) : Value :=
  if truthy v then v else VUndefined.

Record Filter : Type := {
  gitspace_owner : Value;
  gitspace_states : list string
}.

Section Hook.

Variable LIST_FETCHING_LIMIT : Z.

(** The query parameters of [gitness.refetch]. *)
Definition gitness_queryParams (pageBrowser : gmap string Value) (page : Z) : gmap string Value :=
  <["limit" := VNumber LIST_FETCHING_LIMIT]>
    (<["page" := VNumber page]> pageBrowser).

(** The query parameters of [cde.refetch]. *)
Definition cde_queryParams (pageBrowser : gmap string Value) (page : Z) (filter : Filter)
  : gmap string Value :=
  <["gitspace_states" :=
      if (length (gitspace_states filter) =? 0)%nat
      then VUndefined
      else VArray (gitspace_states filter)]>
    (<["gitspace_owner" := or_undefined (gitspace_owner filter)]>
       (<["limit" := VNumber LIST_FETCHING_LIMIT]>
          (<["page" := VNumber page]> pageBrowser))).

(** The request the effect of [useLisitngApi] sends. *)
Definition queryParams (standalone : bool) (pageBrowser : gmap string Value) (page : Z)
    (filter : Filter) : gmap string Value :=
  if standalone then gitness_queryParams pageBrowser page
  else cde_queryParams pageBrowser page filter.

End Hook.

End Listing.

Module ListingFacts.
Import Constants Listing.

Local Open Scope list_scope.

(** X13. The filter options.  Whatever the translation function, the status
    filter offers the three statuses error, running and stopped, each once
    and each under the translation of the key [cde.gitspaceStatus.] followed
    by the status' own value; the owner filter offers every owner type
    once; and the values of each enumeration are pairwise distinct. *)
Theorem filter_options (getString : string -> string) :
  map status_value (GitspaceStatusTypes getString) = [ERROR; RUNNING; STOPPED] /\
  (forall item, In item (GitspaceStatusTypes getString) ->
     status_label item =
       getString ("cde.gitspaceStatus." ++ GitspaceStatus_value (status_value item))%string) /\
  NoDup (map owner_value (GitspaceOwnerTypes getString)) /\
  (forall t, In t (map owner_value (GitspaceOwnerTypes getString))) /\
  (forall s1 s2, GitspaceStatus_value s1 = GitspaceStatus_value s2 -> s1 = s2) /\
  (forall t1 t2, GitspaceOwnerType_value t1 = GitspaceOwnerType_value t2 -> t1 = t2) /\
  (forall t1 t2, IDEType_value t1 = IDEType_value t2 -> t1 = t2) /\
  (forall a1 a2, GitspaceActionType_value a1 = GitspaceActionType_value a2 -> a1 = a2) /\
  (forall t1 t2, EnumGitspaceCodeRepoType_value t1 = EnumGitspaceCodeRepoType_value t2 ->
     t1 = t2) /\
  (forall r1 r2, GitspaceRegion_value r1 = GitspaceRegion_value r2 -> r1 = r2).
Proof.
  split; [reflexivity|]. split.
  { intros item [<-|[<-|[<-|[]]]]; reflexivity. }
  split.
  { simpl. apply NoDup_cons_2; [|apply NoDup_singleton].
    intros H. apply list_elem_of_singleton in H. discriminate H. }
  split.
  { intros []; simpl; tauto. }
  repeat split; intros [] []; simpl; intros H; try reflexivity; discriminate H.
Qed.

(** X14. The listing request.  The page and the limit that are sent are the
    hook's page and [LIST_FETCHING_LIMIT], whatever the query string of the
    browser holds; the other keys of the query string are passed on.  In
    the standalone application the owner and the states are those of the
    query string; otherwise they are those of the filter, the owner
    undefined when the filter's is empty and the states undefined when the
    filter has none, and the query string has no say in them. *)
Theorem queryParams_sent (limit : Z) (standalone : bool) (pageBrowser : gmap string Value)
    (page : Z) (filter : Filter) :
  let sent := queryParams limit standalone pageBrowser page filter in
  sent !! "page" = Some (VNumber page) /\
  sent !! "limit" = Some (VNumber limit) /\
  (forall key,
     ~ In key ["page"; "limit"; "gitspace_owner"; "gitspace_states"] ->
     sent !! key = pageBrowser !! key) /\
  (if standalone
   then sent !! "gitspace_owner" = pageBrowser !! "gitspace_owner" /\
        sent !! "gitspace_states" = pageBrowser !! "gitspace_states"
   else sent !! "gitspace_owner" =
          Some (match gitspace_owner filter with
                | VString "" | VNumber 0 => VUndefined
                | v => v
                end) /\
        sent !! "gitspace_states" =
          Some (match gitspace_states filter with
                | [] => VUndefined
                | states => VArray states
                end)).
Proof.
  intros sent. subst sent.
  unfold queryParams, gitness_queryParams, cde_queryParams.
  assert (Hother : forall key,
            ~ In key ["page"; "limit"; "gitspace_owner"; "gitspace_states"] ->
            "page" <> key /\ "limit" <> key /\
            "gitspace_owner" <> key /\ "gitspace_states" <> key).
  { intros key Hkey. repeat split; intros <-; apply Hkey; simpl; tauto. }
  destruct standalone; cbv iota.
  - split; [|split; [|split; [|split]]].
    + rewrite lookup_insert_ne by discriminate. apply lookup_insert_eq.
    + apply lookup_insert_eq.
    + intros key Hkey. destruct (Hother key Hkey) as (Hp & Hl & _).
      now rewrite !lookup_insert_ne.
    + now rewrite !lookup_insert_ne.
    + now rewrite !lookup_insert_ne.
  - split; [|split; [|split; [|split]]].
    + rewrite !lookup_insert_ne by discriminate. apply lookup_insert_eq.
    + rewrite !lookup_insert_ne by discriminate. apply lookup_insert_eq.
    + intros key Hkey. destruct (Hother key Hkey) as (Hp & Hl & Ho & Hs).
      now rewrite !lookup_insert_ne.
    + rewrite lookup_insert_ne by discriminate. rewrite lookup_insert_eq.
      f_equal. unfold or_undefined.
      destruct (gitspace_owner filter) as [|s|n|items]; simpl; try reflexivity.
      * destruct s; reflexivity.
      * destruct n; reflexivity.
    + rewrite lookup_insert_eq. f_equal.
      destruct (gitspace_states filter); reflexivity.
Qed.

End ListingFacts.
